(** * unix-shell-js: the shell command engine and the vi editor

    A shallow embedding of [src/index.ts] (class [UnixShell]) and of
    [vi-editor.js] (class [ViEditor]), followed by the properties the
    specification states about them (C1 to C10) and by further properties
    read off the code (X1 to X30).

    Conventions of the embedding.
    - A JavaScript string is a [string]; each [ascii] stands for one UTF-16
      code unit below 256.  The box-drawing characters printed by [tree]
      are the only literals of the program outside that range; they appear
      here in UTF-8.
    - A JavaScript object used as a dictionary is an association list in
      enumeration order ([Obj.t]); the [in] operator and property reads see
      own properties only (names inherited from [Object.prototype] are not
      modelled).
    - Mutation of [this] is explicit state passing; a handler returns a
      completion ([Normal] value or [Throw] message) and the next state.
    - What the program asks of the JavaScript engine and cannot be read off
      the source (dynamic [RegExp], [localeCompare], [Date], messages of
      engine errors) is a field of the record [Host].
    - [saveToStorage] only writes to the host's [localStorage] and changes
      no field of the shell; it is left out. *)

From Stdlib Require Import String Ascii List ZArith Bool Lia DecimalString
Permutation.
Import ListNotations.
Open Scope string_scope.
Set Warnings "-register-all".

(** ** The string primitives of the engine used by the program *)

Module JS.

(** [WhiteSpace] and [LineTerminator] code units below 256 (what [trim]
    strips and [\s] matches): TAB, LF, VT, FF, CR, SP, NBSP. *)
Definition is_space (c : ascii) : bool :=
  let n := nat_of_ascii c in
  (((9 <=? n) && (n <=? 13)) || (n =? 32) || (n =? 160))%nat.

(** [.] in a regular expression without the [s] flag matches every code
    unit but the line terminators (LF and CR below 256). *)
Definition is_dot (c : ascii) : bool :=
  let n := nat_of_ascii c in
  negb ((n =? 10) || (n =? 13))%nat.

Definition is_quote (c : ascii) : bool :=
  (Ascii.eqb c "034" || Ascii.eqb c "'")%char.

(** The double quote as a string. *)
Definition DQUOTE : string := String "034"%char EmptyString.

Definition nonempty (s : string) : bool :=
  match s with EmptyString => false | String _ _ => true end.

Fixpoint trimStart (s : string) : string :=
  match s with
  | String c s' => if is_space c then trimStart s' else s
  | EmptyString => EmptyString
  end.

Fixpoint trimEnd (s : string) : string :=
  match s with
  | EmptyString => EmptyString
  | String c s' =>
      match trimEnd s' with
      | EmptyString => if is_space c then EmptyString else String c EmptyString
      | r => String c r
      end
  end.

Definition trim (s : string) : string := trimEnd (trimStart s).

(** [s.startsWith(p)] *)
Fixpoint startsWith (s p : string) {struct p} : bool :=
  match p with
  | EmptyString => true
  | String c p' =>
      match s with
      | String a s' => Ascii.eqb a c && startsWith s' p'
      | EmptyString => false
      end
  end.

(** [s.endsWith(p)] *)
Fixpoint endsWith (s p : string) : bool :=
  (s =? p) ||
  match s with
  | EmptyString => false
  | String _ s' => endsWith s' p
  end.

(** [s.includes(p)] *)
Fixpoint includes (s p : string) : bool :=
  startsWith s p ||
  match s with
  | EmptyString => false
  | String _ s' => includes s' p
  end.

(** [s.includes(c)] for a one-character needle *)
Fixpoint includes_char (s : string) (c : ascii) : bool :=
  match s with
  | EmptyString => false
  | String a s' => Ascii.eqb a c || includes_char s' c
  end.

(** [s.substring(n)] and [s.slice(n)] for [0 <= n] *)
Fixpoint drop (n : nat) (s : string) : string :=
  match n, s with
  | O, _ => s
  | S n', String _ s' => drop n' s'
  | S _, EmptyString => EmptyString
  end.

(** [s.substring(0, n)] and [s.slice(0, n)] for [0 <= n] *)
Fixpoint take (n : nat) (s : string) : string :=
  match n, s with
  | O, _ => EmptyString
  | S n', String c s' => String c (take n' s')
  | S _, EmptyString => EmptyString
  end.

(** [s.slice(0, -1)] *)
Fixpoint dropLast (s : string) : string :=
  match s with
  | EmptyString => EmptyString
  | String c EmptyString => EmptyString
  | String c s' => String c (dropLast s')
  end.

(** [s.split(c)] for a one-character separator: never the empty list. *)
Fixpoint split (c : ascii) (s : string) : list string :=
  match s with
  | EmptyString => [EmptyString]
  | String a s' =>
      if Ascii.eqb a c then EmptyString :: split c s'
      else match split c s' with
           | h :: t => String a h :: t
           | [] => [String a EmptyString]
           end
  end.

(** [s.split(/\s+/)]: the separators are the maximal runs of white space;
    [in_run] tells that the previous character belonged to one. *)
Fixpoint split_ws_from (in_run : bool) (s : string) : list string :=
  match s with
  | EmptyString => [EmptyString]
  | String a s' =>
      if is_space a then
        if in_run then split_ws_from true s'
        else EmptyString :: split_ws_from true s'
      else match split_ws_from false s' with
           | h :: t => String a h :: t
           | [] => [String a EmptyString]
           end
  end.

Definition split_ws (s : string) : list string := split_ws_from false s.

(** [l.join(sep)] *)
Definition join (sep : string) (l : list string) : string :=
  String.concat sep l.

(** [s.indexOf(c)] followed by [substring(0, i)] and [substring(i + 1)]:
    [None] when [indexOf] answers [-1]. *)
Fixpoint cut (c : ascii) (s : string) : option (string * string) :=
  match s with
  | EmptyString => None
  | String a s' =>
      if Ascii.eqb a c then Some (EmptyString, s')
      else match cut c s' with
           | Some (l, r) => Some (String a l, r)
           | None => None
           end
  end.

(** [toLowerCase] on code units below 256: A-Z and the Latin-1 capitals
    (all of 192..222 but the multiplication sign 215) move up by 32. *)
Definition lower_char (c : ascii) : ascii :=
  let n := nat_of_ascii c in
  if (((65 <=? n) && (n <=? 90)) ||
      ((192 <=? n) && (n <=? 222) && negb (n =? 215)))%nat
  then ascii_of_nat (n + 32) else c.

Fixpoint toLowerCase (s : string) : string :=
  match s with
  | EmptyString => EmptyString
  | String c s' => String (lower_char c) (toLowerCase s')
  end.

(** [s.replace(/^["']|["']$/g, '')]: a quote at the very start goes, and
    a quote at the very end of what remains to be scanned goes. *)
Fixpoint strip_trailing_quote (s : string) : string :=
  match s with
  | EmptyString => EmptyString
  | String c EmptyString => if is_quote c then EmptyString else s
  | String c s' => String c (strip_trailing_quote s')
  end.

Definition strip_quotes (s : string) : string :=
  match s with
  | String c s' => if is_quote c then strip_trailing_quote s'
                   else strip_trailing_quote s
  | EmptyString => EmptyString
  end.

(** [String(n)] for a natural number *)
Definition of_nat (n : nat) : string :=
  NilZero.string_of_uint (Nat.to_uint n).

Fixpoint repeat_char (c : ascii) (n : nat) : string :=
  match n with
  | O => EmptyString
  | S n' => String c (repeat_char c n')
  end.

(** [s.padStart(n)] and [s.padEnd(n)], padding with spaces *)
Definition padStart (s : string) (n : nat) : string :=
  repeat_char " " (n - String.length s) ++ s.

Definition padEnd (s : string) (n : nat) : string :=
  s ++ repeat_char " " (n - String.length s).

(** [Math.round(b / d)] for naturals [b] and [0 < d]: halves go up. *)
Definition round_div (b d : nat) : nat := (2 * b + d) / (2 * d).

(** Stable sort by a comparator, as [Array.prototype.sort] is for a
    comparator that is a consistent ordering: [cmp a b <= 0] keeps [a]
    before [b]. *)
Fixpoint insert_by {A} (cmp : A -> A -> Z) (x : A) (l : list A) : list A :=
  match l with
  | [] => [x]
  | y :: l' => if (0 <? cmp x y)%Z then y :: insert_by cmp x l' else x :: l
  end.

Definition sort_by {A} (cmp : A -> A -> Z) (l : list A) : list A :=
  fold_right (insert_by cmp) [] l.

(** The comparator of [sort()] without argument: code unit order. *)
Definition default_compare (a b : string) : Z :=
  match String.compare a b with
  | Lt => (-1)%Z
  | Eq => 0%Z
  | Gt => 1%Z
  end.

End JS.

(** ** JavaScript objects used as dictionaries *)

Module Obj.

(** Own enumerable string-keyed properties, in the order [Object.keys]
    and [Object.entries] enumerate them. *)
Definition t (A : Type) : Type := list (string * A).

Definition digit (c : ascii) : option N :=
  let n := N_of_ascii c in
  if ((48 <=? n) && (n <=? 57))%N then Some (n - 48)%N else None.

Fixpoint digits (acc : N) (s : string) : option N :=
  match s with
  | EmptyString => Some acc
  | String c s' =>
      match digit c with
      | Some d => digits (acc * 10 + d)%N s'
      | None => None
      end
  end.

(** An array index is a canonical numeric string below [2^32 - 1]; such
    keys are enumerated first, in ascending numeric order. *)
Definition array_index (k : string) : option N :=
  match k with
  | EmptyString => None
  | String c s' =>
      if Ascii.eqb c "0" && JS.nonempty s' then None
      else match digits 0 k with
           | Some n => if (n <? 4294967295)%N then Some n else None
           | None => None
           end
  end.

Section Ops.
Context {A : Type}.

(** [o[k]]: [None] stands for [undefined]. *)
Fixpoint get (o : t A) (k : string) : option A :=
  match o with
  | [] => None
  | (k', v) :: o' => if k' =? k then Some v else get o' k
  end.

(** [k in o] *)
Definition has (o : t A) (k : string) : bool :=
  match get o k with Some _ => true | None => false end.

(** [Object.keys(o)] *)
Definition keys (o : t A) : list string := map fst o.

(** [o[k] = v] for a key that is present: the position is kept. *)
Fixpoint replace (o : t A) (k : string) (v : A) : t A :=
  match o with
  | [] => []
  | (k', v') :: o' =>
      if k' =? k then (k, v) :: o' else (k', v') :: replace o' k v
  end.

(** [o[k] = v] for an absent array-index key [k] of value [n]. *)
Fixpoint insert_index (n : N) (k : string) (v : A) (o : t A) : t A :=
  match o with
  | [] => [(k, v)]
  | (k', v') :: o' =>
      match array_index k' with
      | Some n' =>
          if (n' <? n)%N then (k', v') :: insert_index n k v o'
          else (k, v) :: o
      | None => (k, v) :: o
      end
  end.

(** [o[k] = v] *)
Definition set (o : t A) (k : string) (v : A) : t A :=
  if has o k then replace o k v
  else match array_index k with
       | Some n => insert_index n k v o
       | None => (o ++ [(k, v)])%list
       end.

(** [delete o[k]] *)
Fixpoint remove (o : t A) (k : string) : t A :=
  match o with
  | [] => []
  | (k', v') :: o' =>
      if k' =? k then o' else (k', v') :: remove o' k
  end.
End Ops.

End Obj.

(** ** The shell: [class UnixShell] *)

Module Shell.

Import JS.

Definition LF : string := String "010"%char EmptyString.

(** [type FileSystemNode = string | FileSystemDirectory] *)
Inductive Node : Type :=
| File (content : string)
| Dir (entries : list (string * Node)).

Definition Directory : Type := Obj.t Node.

(** [typeof n === 'object'] *)
Definition isDir (n : Node) : bool :=
  match n with Dir _ => true | File _ => false end.

Record Environment : Type := mkEnv {
  USER : string;
  HOME : string;
  PWD : string;
  PATH : string;
  SHELL : string
}.

Record UserState : Type := mkUserState {
  user : string;
  home : string;
  path : string
}.

Record GrepFlags : Type := mkFlags {
  ignoreCase : bool;
  invert : bool
}.

(** [fileSystem] holds the directory stored under the key ['/']. *)
Record UnixShell : Type := mkShell {
  fileSystem : Directory;
  currentUser : string;
  currentPath : string;
  environment : Environment;
  commandHistory : list string;
  userStack : list UserState;
  isPiped : bool
}.

(** How a call ends: [return value] or [throw new Error(message)]. *)
Inductive Completion : Type :=
| Normal (value : string)
| Throw (message : string).

(** What the program takes from the JavaScript engine. *)
Record Host : Type := mkHost {
  (** [new RegExp(source)]: [None] when it throws a [SyntaxError],
      otherwise the [test] method of the expression *)
  RegExp : string -> option (string -> bool);
  (** the message of that [SyntaxError] *)
  syntaxErrorMessage : string -> string;
  (** [a.localeCompare(b)] *)
  localeCompare : string -> string -> Z;
  (** [new Date().toString()] *)
  dateString : string;
  (** [new Date().toLocaleDateString('en-US', ...)] of [ls -l] *)
  shortDate : string;
  (** the message of the [TypeError] of [Object.entries(null)] *)
  nullEntriesMessage : string;
  (** the message of the [RangeError] of a call stack overflow *)
  stackOverflowMessage : string
}.

Inductive Builtin : Type :=
| Bhelp | Bls | Bcd | Bpwd | Bcat | Becho | Bclear | Bwhoami | Bdate
| Buname | Benv | Bhistory | Bmkdir | Btouch | Brm | Btree | Bps | Bvi
| Bvim | Bsu | Bsudo | Bexit.

(** [type CommandHandler]: a bound method of the class, or a function of
    the caller bound to the shell, which may read and write its fields. *)
Inductive Handler : Type :=
| Method (b : Builtin)
| Custom (f : list string -> UnixShell -> Completion * UnixShell).

Definition Commands : Type := Obj.t Handler.

(** *** Field updates *)

Definition with_fileSystem (s : UnixShell) (fs : Directory) : UnixShell :=
  mkShell fs (currentUser s) (currentPath s) (environment s)
          (commandHistory s) (userStack s) (isPiped s).

Definition with_history (s : UnixShell) (h : list string) : UnixShell :=
  mkShell (fileSystem s) (currentUser s) (currentPath s) (environment s)
          h (userStack s) (isPiped s).

Definition with_isPiped (s : UnixShell) (b : bool) : UnixShell :=
  mkShell (fileSystem s) (currentUser s) (currentPath s) (environment s)
          (commandHistory s) (userStack s) b.

Definition with_PWD (e : Environment) (p : string) : Environment :=
  mkEnv (USER e) (HOME e) p (PATH e) (SHELL e).

(** *** Paths *)

(** [p.split('/').filter((p) => p)] *)
Definition segments (p : string) : list string :=
  filter nonempty (split "/" p).

(** One turn of the loop of [resolvePath]. *)
Definition resolveStep (parts : list string) (part : string) : list string :=
  if part =? ".." then removelast parts
  else if negb (part =? ".") then (parts ++ [part])%list
  else parts.

Definition resolvePath (s : UnixShell) (path : string) : string :=
  let path :=
    if startsWith path "~" then HOME (environment s) ++ drop 1 path
    else path in
  if startsWith path "/" then path
  else
    let parts := segments (currentPath s) in
    let newParts := segments path in
    "/" ++ join "/" (fold_left resolveStep newParts parts).

(** The loop of [getNode]. *)
Fixpoint walk (current : Node) (parts : list string) : option Node :=
  match parts with
  | [] => Some current
  | part :: rest =>
      match current with
      | Dir d =>
          match Obj.get d part with
          | Some n => walk n rest
          | None => None
          end
      | File _ => None
      end
  end.

(** [None] stands for [null]. *)
Definition getNode (s : UnixShell) (path : string) : option Node :=
  let fullPath := resolvePath s path in
  walk (Dir (fileSystem s)) (segments fullPath).

Definition getOwner (s : UnixShell) (path : string) : string * string :=
  let h := "/home/" ++ currentUser s in
  if startsWith path h || (path =? h) then (currentUser s, currentUser s)
  else ("root", "root").

Definition canWrite (s : UnixShell) (path : string) : bool :=
  if currentUser s =? "root" then true
  else
    let fullPath := resolvePath s path in
    startsWith fullPath ("/home/" ++ currentUser s).

(** The effect of assigning through the reference that [getNode] returned
    for the directory at [parts]: its entries become [f] of them. *)
Fixpoint modify (parts : list string) (f : Directory -> Directory)
         (current : Node) : Node :=
  match current with
  | File _ => current
  | Dir d =>
      match parts with
      | [] => Dir (f d)
      | part :: rest =>
          match Obj.get d part with
          | Some n => Dir (Obj.replace d part (modify rest f n))
          | None => current
          end
      end
  end.

Definition entriesOf (n : Node) : Directory :=
  match n with Dir d => d | File _ => [] end.

(** The file system after [f] was applied to the directory [getNode]
    finds at [parentPath]. *)
Definition modifyAt (s : UnixShell) (parentPath : string)
           (f : Directory -> Directory) : UnixShell :=
  with_fileSystem s
    (entriesOf (modify (segments (resolvePath s parentPath)) f
                       (Dir (fileSystem s)))).

(** [parts.pop()] followed by ['/' + parts.join('/')]; the name of an
    empty [parts] is [undefined], which as a property key is the string
    ["undefined"]. *)
Definition popName (parts : list string) : string :=
  last parts "undefined".

Definition parentOf (parts : list string) : string :=
  "/" ++ join "/" (removelast parts).

(** [!node] for what [getNode] returned: [null] and the empty string. *)
Definition falsy (n : option Node) : bool :=
  match n with
  | None => true
  | Some (File c) => negb (nonempty c)
  | Some (Dir _) => false
  end.

(** [args[0]] when it is truthy *)
Definition arg0 (args : list string) : option string :=
  match args with
  | a :: _ => if nonempty a then Some a else None
  | [] => None
  end.

(** *** The regular expressions of [execute]

    Each piece of a pattern is a function from the rest of the input to
    the result of the match from there on; it takes the pieces that
    follow it as its continuation [k] and tries its own choices in the
    order a backtracking matcher does. *)

(** [\s*] followed by [k]: greedy, gives characters back one by one. *)
Fixpoint ws_star {X} (k : string -> option X) (t : string) : option X :=
  match t with
  | String a t' =>
      if is_space a then
        match ws_star k t' with
        | Some r => Some r
        | None => k t
        end
      else k t
  | EmptyString => k t
  end.

(** A literal character followed by [k]. *)
Definition lit {X} (c : ascii) (k : string -> option X) (t : string)
  : option X :=
  match t with
  | String a t' => if Ascii.eqb a c then k t' else None
  | EmptyString => None
  end.

(** [c?] followed by [k]: greedy. *)
Definition lit_opt {X} (c : ascii) (k : string -> option X) (t : string)
  : option X :=
  match lit c k t with
  | Some r => Some r
  | None => k t
  end.

(** [(.+)$]: the rest of the input, when it is not empty and holds no
    line terminator. *)
Fixpoint all_dot (t : string) : bool :=
  match t with
  | EmptyString => true
  | String a t' => is_dot a && all_dot t'
  end.

Definition dot_plus_end (t : string) : option string :=
  if nonempty t && all_dot t then Some t else None.

(** [^(.+?)] followed by [k]: lazy, the shortest prefix of at least one
    character first; answers the prefix and the result of [k]. *)
Fixpoint dot_plus_lazy {X} (k : string -> option X) (t : string)
  : option (string * X) :=
  match t with
  | EmptyString => None
  | String a t' =>
      if is_dot a then
        match k t' with
        | Some r => Some (String a EmptyString, r)
        | None =>
            match dot_plus_lazy k t' with
            | Some (g, r) => Some (String a g, r)
            | None => None
            end
        end
      else None
  end.

(** [/^(.+?)\s*>>\s*(.+)$/]: groups 1 and 2 *)
Definition appendRegex (line : string) : option (string * string) :=
  dot_plus_lazy (ws_star (lit ">" (lit ">" (ws_star dot_plus_end)))) line.

(** [/^(.+?)\s*>\s*(.+)$/]: groups 1 and 2 *)
Definition overwriteRegex (line : string) : option (string * string) :=
  dot_plus_lazy (ws_star (lit ">" (ws_star dot_plus_end))) line.

(** [/^(.+?)\s*>>?\s*.+$/]: group 1 *)
Definition grepRedirectRegex (grepCommand : string) : option string :=
  match dot_plus_lazy
          (ws_star (lit ">" (lit_opt ">" (ws_star dot_plus_end))))
          grepCommand with
  | Some (g, _) => Some g
  | None => None
  end.

(** [s.match(/(?:[^\s"']+|"[^"]*"|'[^']*')+/g) || []].  A match is a
    maximal run of unquoted characters and closed quoted pieces; white
    space and a quote that is never closed end it and are skipped.
    [tokenScan q s] answers the piece of the match in progress that [s]
    starts with, and the matches after it; [q] is the quote that is
    open. *)
Fixpoint has_char (c : ascii) (s : string) : bool :=
  match s with
  | EmptyString => false
  | String a s' => Ascii.eqb a c || has_char c s'
  end.

Definition pushToken (r : string * list string) : list string :=
  if nonempty (fst r) then fst r :: snd r else snd r.

Fixpoint tokenScan (q : option ascii) (s : string) : string * list string :=
  match s with
  | EmptyString => (EmptyString, [])
  | String a s' =>
      match q with
      | Some c =>
          let r := tokenScan (if Ascii.eqb a c then None else q) s' in
          (String a (fst r), snd r)
      | None =>
          if is_space a then (EmptyString, pushToken (tokenScan None s'))
          else if is_quote a then
            if has_char a s' then
              let r := tokenScan (Some a) s' in (String a (fst r), snd r)
            else (EmptyString, pushToken (tokenScan None s'))
          else
            let r := tokenScan None s' in (String a (fst r), snd r)
      end
  end.

Definition grepTokens (grepArgs : string) : list string :=
  pushToken (tokenScan None grepArgs).

(** The loop over [grepParts]: the pattern ([None] for [null]) and the
    flags after the parts were read. *)
Definition grepStep (st : option string * GrepFlags) (part : string)
  : option string * GrepFlags :=
  let '(pat, fl) := st in
  if part =? "-i" then (pat, mkFlags true (invert fl))
  else if part =? "-v" then (pat, mkFlags (ignoreCase fl) true)
  else match pat with
       | None => (Some (strip_quotes part), fl)
       | Some p =>
           if nonempty p then st else (Some (strip_quotes part), fl)
       end.

(** What the pipe stage of [execute] leaves in its variables. *)
Record Piped : Type := mkPiped {
  grepPattern : option string;
  grepFlags : GrepFlags;
  pipedCommand : string;      (* [actualCommand] *)
  pipedLine : string          (* [commandLine] *)
}.

Definition parsePipe (commandLine : string) : Piped :=
  let none := mkPiped None (mkFlags false false) commandLine commandLine in
  match cut "|" commandLine with
  | None => none
  | Some (before, after) =>
      let beforePipe := trim before in
      let afterPipe := trim after in
      if startsWith afterPipe "grep " || (afterPipe =? "grep") then
        let grepCommand := trim (drop 4 afterPipe) in
        let '(grepArgs, line) :=
          match grepRedirectRegex grepCommand with
          | Some g =>
              let grepArgs := trim g in
              (grepArgs,
               beforePipe ++ " " ++ drop (String.length grepArgs) grepCommand)
          | None => (grepCommand, commandLine)
          end in
        let '(pat, fl) :=
          fold_left grepStep (grepTokens grepArgs)
                    (None, mkFlags false false) in
        mkPiped pat fl beforePipe line
      else none
  end.

Inductive RedirectMode : Type := append | overwrite.

(** What the redirect stage leaves: the mode and the file ([None] for
    [null]), and [actualCommand]. *)
Definition parseRedirect (commandLine actualCommand : string)
  : option (RedirectMode * string) * string :=
  match appendRegex commandLine with
  | Some (g1, g2) => (Some (append, trim g2), trim g1)
  | None =>
      match overwriteRegex commandLine with
      | Some (g1, g2) => (Some (overwrite, trim g2), trim g1)
      | None => (None, actualCommand)
      end
  end.

(** *** Command implementations *)

Section Commands.
Variable H : Host.
Variable commands : Commands.

Definition cmd_help : string :=
  let commandList := sort_by default_compare (Obj.keys commands) in
  "Available commands:" ++ LF ++
  join LF (map (fun cmd => "  " ++ cmd) commandList) ++
  LF ++ LF ++ "Type any command to try it out!".

(** The size column of [ls -l] for a file of [bytes] code units. *)
Definition ls_size (humanReadable : bool) (bytes : nat) : string :=
  if humanReadable then
    if (bytes <? 1024)%nat then of_nat bytes ++ "B"
    else if (bytes <? 1024 * 1024)%nat then of_nat (round_div bytes 1024) ++ "K"
    else of_nat (round_div bytes (1024 * 1024)) ++ "M"
  else of_nat bytes.

(** The comparator of [entries.sort]: directories first, then
    [localeCompare]. *)
Definition ls_compare (node : Directory) (a b : string) : Z :=
  let dir k := match Obj.get node k with
               | Some n => isDir n
               | None => false
               end in
  if dir a && negb (dir b) then (-1)%Z
  else if negb (dir a) && dir b then 1%Z
  else localeCompare H a b.

Definition ls_long (s : UnixShell) (humanReadable : bool)
           (path : string) (node : Directory) (name : string) : string :=
  let value := Obj.get node name in
  let dir := match value with Some n => isDir n | None => false end in
  let perms := if dir then "drwxr-xr-x" else "-rw-r--r--" in
  let links := if dir then "2" else "1" in
  let filePath := if path =? "/" then "/" ++ name
                  else path ++ "/" ++ name in
  let owner := getOwner s filePath in
  let size :=
    match value with
    | Some (File c) => ls_size humanReadable (String.length c)
    | _ => "4096"
    end in
  perms ++ " " ++ links ++ " " ++ padEnd (fst owner) 8 ++ " " ++
  padEnd (snd owner) 8 ++ " " ++
  padStart size (if humanReadable then 5 else 8) ++ " " ++
  shortDate H ++ " " ++ name.

(** One turn of the loop over [targetPaths]: what it pushes on
    [results]. *)
Definition ls_target (s : UnixShell) (showHidden longFormat humanReadable : bool)
           (targetPath : string) : list string :=
  let path := if targetPath =? "." then currentPath s
              else resolvePath s targetPath in
  match getNode s path with
  | None =>
      ["ls: cannot access '" ++ targetPath ++
       "': No such file or directory"]
  | Some (File _) => [targetPath]
  | Some (Dir node) =>
      let entries := Obj.keys node in
      let entries :=
        if showHidden then entries
        else filter (fun name => negb (startsWith name ".")) entries in
      match entries with
      | [] => []
      | _ =>
          let entries := sort_by (ls_compare node) entries in
          if longFormat then
            [join LF (map (ls_long s humanReadable path node) entries)]
          else
            let formatted :=
              map (fun name =>
                     match Obj.get node name with
                     | Some (Dir _) => name ++ "/"
                     | _ => name
                     end) entries in
            if isPiped s then [join LF formatted]
            else [join "    " formatted]
      end
  end.

Definition cmd_ls (args : list string) (s : UnixShell) : string :=
  let flags := filter (fun arg => startsWith arg "-") args in
  let showHidden := existsb (fun arg => includes_char arg "a") flags in
  let longFormat := existsb (fun arg => includes_char arg "l") flags in
  let humanReadable := existsb (fun arg => includes_char arg "h") flags in
  let targetPaths :=
    filter (fun arg => negb (startsWith arg "-")) args in
  let targetPaths :=
    match targetPaths with [] => [currentPath s] | _ => targetPaths end in
  join LF
    (flat_map (ls_target s showHidden longFormat humanReadable)
              targetPaths).

Definition cmd_cd (args : list string) (s : UnixShell)
  : string * UnixShell :=
  match arg0 args with
  | None =>
      let p := HOME (environment s) in
      ("", mkShell (fileSystem s) (currentUser s) p
                   (with_PWD (environment s) p)
                   (commandHistory s) (userStack s) (isPiped s))
  | Some a =>
      let newPath := resolvePath s a in
      match getNode s newPath with
      | None => ("cd: " ++ a ++ ": No such file or directory", s)
      | Some (File _) => ("cd: " ++ a ++ ": Not a directory", s)
      | Some (Dir _) =>
          ("", mkShell (fileSystem s) (currentUser s) newPath
                       (with_PWD (environment s) newPath)
                       (commandHistory s) (userStack s) (isPiped s))
      end
  end.

Definition cmd_pwd (s : UnixShell) : string := currentPath s.

Definition cmd_cat (args : list string) (s : UnixShell) : string :=
  match arg0 args with
  | None => "cat: missing file operand"
  | Some a =>
      match getNode s a with
      | None => "cat: " ++ a ++ ": No such file or directory"
      | Some (Dir _) => "cat: " ++ a ++ ": Is a directory"
      | Some (File content) => content
      end
  end.

Definition cmd_echo (args : list string) : string :=
  let text := join " " args in
  strip_quotes text.

Definition cmd_clear : string := "__CLEAR__".

Definition cmd_whoami (s : UnixShell) : string := USER (environment s).

Definition cmd_date : string := dateString H.

Definition cmd_uname (args : list string) : string :=
  if existsb (fun a => a =? "-a") args
  then "UnixShell 1.0.0 UnixShell Terminal x86_64 GNU/JavaScript"
  else "UnixShell".

Definition cmd_env (s : UnixShell) : string :=
  let e := environment s in
  join LF ["USER=" ++ USER e; "HOME=" ++ HOME e; "PWD=" ++ PWD e;
           "PATH=" ++ PATH e; "SHELL=" ++ SHELL e].

Fixpoint history_lines (i : nat) (h : list string) : list string :=
  match h with
  | [] => []
  | cmd :: h' => (of_nat (i + 1) ++ "  " ++ cmd) :: history_lines (S i) h'
  end.

Definition cmd_history (s : UnixShell) : string :=
  join LF (history_lines 0 (commandHistory s)).

Definition cmd_mkdir (args : list string) (s : UnixShell)
  : string * UnixShell :=
  match arg0 args with
  | None => ("mkdir: missing operand", s)
  | Some a =>
      let path := resolvePath s a in
      let err reason :=
        "mkdir: cannot create directory '" ++ a ++ "': " ++ reason in
      if negb (canWrite s path) then (err "Permission denied", s)
      else
        let parts := segments path in
        let dirName := popName parts in
        let parentPath := parentOf parts in
        let parent := getNode s parentPath in
        if falsy parent then (err "No such file or directory", s)
        else match parent with
             | Some (Dir d) =>
                 if Obj.has d dirName then (err "File exists", s)
                 else
                   ("", modifyAt s parentPath
                                 (fun d => Obj.set d dirName (Dir [])))
             | _ => (err "Not a directory", s)
             end
  end.

Definition cmd_touch (args : list string) (s : UnixShell)
  : string * UnixShell :=
  match arg0 args with
  | None => ("touch: missing file operand", s)
  | Some a =>
      let path := resolvePath s a in
      let err reason := "touch: cannot touch '" ++ a ++ "': " ++ reason in
      if negb (canWrite s path) then (err "Permission denied", s)
      else
        let parts := segments path in
        let fileName := popName parts in
        let parentPath := parentOf parts in
        let parent := getNode s parentPath in
        if falsy parent then (err "No such file or directory", s)
        else match parent with
             | Some (Dir d) =>
                 if negb (Obj.has d fileName) then
                   ("", modifyAt s parentPath
                                 (fun d => Obj.set d fileName (File "")))
                 else ("", s)
             | _ => (err "Not a directory", s)
             end
  end.

(** The variables of the loop of [cmd_rm] over [targets]. *)
Record RmLoop : Type := mkRm {
  rm_shell : UnixShell;
  rm_errors : list string;
  rm_removed : list string
}.

Definition rm_target (recursive force verbose : bool)
           (st : RmLoop) (target : string) : RmLoop :=
  let s := rm_shell st in
  let path := resolvePath s target in
  let parts := segments path in
  let fileName := popName parts in
  let parentPath := parentOf parts in
  let parent := getNode s parentPath in
  let err reason :=
    (rm_errors st ++
     [("rm: cannot remove '" ++ target ++ "': " ++ reason)%string])%list in
  if negb (canWrite s parentPath) then
    mkRm s (err "Permission denied") (rm_removed st)
  else
    match parent with
    | Some (Dir d) =>
        match Obj.get d fileName with
        | None =>
            if negb force
            then mkRm s (err "No such file or directory") (rm_removed st)
            else st
        | Some n =>
            if isDir n && negb recursive then
              if negb force
              then mkRm s (err "Is a directory") (rm_removed st)
              else st
            else
              mkRm (modifyAt s parentPath (fun d => Obj.remove d fileName))
                   (rm_errors st)
                   (if verbose
                    then (rm_removed st ++
                          [("removed '" ++ target ++ "'")%string])%list
                    else rm_removed st)
        end
    | _ =>
        if negb force
        then mkRm s (err "No such file or directory") (rm_removed st)
        else st
    end.

Definition cmd_rm (args : list string) (s : UnixShell)
  : string * UnixShell :=
  match arg0 args with
  | None => ("rm: missing operand", s)
  | Some _ =>
      let flags := filter (fun arg => startsWith arg "-") args in
      let recursive :=
        existsb (fun arg => includes_char arg "r" || includes_char arg "R")
                flags in
      let force := existsb (fun arg => includes_char arg "f") flags in
      let verbose := existsb (fun arg => includes_char arg "v") flags in
      let targets := filter (fun arg => negb (startsWith arg "-")) args in
      match targets with
      | [] => ("rm: missing operand", s)
      | _ =>
          let st := fold_left (rm_target recursive force verbose) targets
                              (mkRm s [] []) in
          let output :=
            if verbose && negb (length (rm_removed st) =? 0)%nat
            then join LF (rm_removed st) else "" in
          let output :=
            match rm_errors st with
            | [] => output
            | _ => (if nonempty output then output ++ LF else output) ++
                   join LF (rm_errors st)
            end in
          (output, rm_shell st)
      end
  end.

(** [buildTree]: the lines for the entries of a directory. *)
Fixpoint buildTree (node : Node) (prefix : string) : string :=
  match node with
  | File _ => ""
  | Dir d =>
      (fix entries (l : list (string * Node)) : string :=
         match l with
         | [] => ""
         | (name, value) :: rest =>
             let isLastEntry := match rest with [] => true | _ => false end in
             let connector := if isLastEntry then "└── " else "├── " in
             prefix ++ connector ++ name ++
             (if isDir value then "/" ++ LF else LF) ++
             (if isDir value
              then buildTree value
                     (prefix ++ (if isLastEntry then "    " else "│   "))
              else "") ++
             entries rest
         end) d
  end.

(** [Object.entries] of a string: its indices, none of them a
    directory. *)
Fixpoint index_entries (i n : nat) : list (string * Node) :=
  match n with
  | O => []
  | S n' => (of_nat i, File "") :: index_entries (S i) n'
  end.

Definition cmd_tree (s : UnixShell) : Completion :=
  match getNode s (currentPath s) with
  | None => Throw (nullEntriesMessage H)
  | Some (Dir d) =>
      Normal (currentPath s ++ "/" ++ LF ++ buildTree (Dir d) "")
  | Some (File c) =>
      Normal (currentPath s ++ "/" ++ LF ++
              buildTree (Dir (index_entries 0 (String.length c))) "")
  end.

Definition ps_line (pid : nat) (tty time cmd : string) : string :=
  padStart (of_nat pid) 5 ++ " " ++ padEnd tty 12 ++ " " ++
  padStart time 8 ++ " " ++ cmd ++ LF.

Definition cmd_ps : string :=
  "  PID TTY          TIME CMD" ++ LF ++
  ps_line 1 "?" "0:01" "init" ++
  ps_line 100 "pts/0" "0:00" "bash" ++
  ps_line 101 "pts/0" "0:00" "ps".

(** [openEditor]: the editor it opens lives in the page; the shell
    itself is left as it is. *)
Definition openEditor (filename : string) : string := "__VI_OPENED__".

Definition cmd_vi (args : list string) : string :=
  openEditor (match arg0 args with Some a => a | None => "untitled" end).

Definition cmd_vim (args : list string) : string :=
  openEditor (match arg0 args with Some a => a | None => "untitled" end).

Definition cmd_su (args : list string) (s : UnixShell)
  : string * UnixShell :=
  let targetUser := match arg0 args with Some a => a | None => "root" end in
  let stack :=
    (userStack s ++
     [mkUserState (currentUser s) (HOME (environment s)) (currentPath s)])%list in
  let e := environment s in
  ("__USER_SWITCHED__:" ++ targetUser,
   mkShell (fileSystem s) targetUser (currentPath s)
           (mkEnv targetUser
                  (if targetUser =? "root" then "/root"
                   else "/home/" ++ targetUser)
                  (currentPath s) (PATH e) (SHELL e))
           (commandHistory s) stack (isPiped s)).

Definition cmd_exit (s : UnixShell) : string * UnixShell :=
  match userStack s with
  | [] => ("exit: no other user session to return to", s)
  | _ =>
      let previousUser := last (userStack s) (mkUserState "" "" "") in
      let e := environment s in
      ("__USER_SWITCHED__:" ++ user previousUser,
       mkShell (fileSystem s) (user previousUser) (path previousUser)
               (mkEnv (user previousUser) (home previousUser)
                      (path previousUser) (PATH e) (SHELL e))
               (commandHistory s) (removelast (userStack s)) (isPiped s))
  end.

Definition returns (r : string * UnixShell) : Completion * UnixShell :=
  (Normal (fst r), snd r).

(** The bound methods; [sudo] stands for [this.cmd_sudo]. *)
Definition method
           (sudo : list string -> UnixShell -> Completion * UnixShell)
           (b : Builtin) (args : list string) (s : UnixShell)
  : Completion * UnixShell :=
  match b with
  | Bhelp => (Normal cmd_help, s)
  | Bls => (Normal (cmd_ls args s), s)
  | Bcd => returns (cmd_cd args s)
  | Bpwd => (Normal (cmd_pwd s), s)
  | Bcat => (Normal (cmd_cat args s), s)
  | Becho => (Normal (cmd_echo args), s)
  | Bclear => (Normal cmd_clear, s)
  | Bwhoami => (Normal (cmd_whoami s), s)
  | Bdate => (Normal cmd_date, s)
  | Buname => (Normal (cmd_uname args), s)
  | Benv => (Normal (cmd_env s), s)
  | Bhistory => (Normal (cmd_history s), s)
  | Bmkdir => returns (cmd_mkdir args s)
  | Btouch => returns (cmd_touch args s)
  | Brm => returns (cmd_rm args s)
  | Btree => (cmd_tree s, s)
  | Bps => (Normal cmd_ps, s)
  | Bvi => (Normal (cmd_vi args), s)
  | Bvim => (Normal (cmd_vim args), s)
  | Bsu => returns (cmd_su args s)
  | Bsudo => sudo args s
  | Bexit => returns (cmd_exit s)
  end.

(** [this.commands[command](args)] for a handler [h] of the table *)
Definition call_with
           (sudo : list string -> UnixShell -> Completion * UnixShell)
           (h : Handler) (args : list string) (s : UnixShell)
  : Completion * UnixShell :=
  match h with
  | Custom f => f args s
  | Method b => method sudo b args s
  end.

(** [sudo] with no argument left looks its command, [undefined], up
    under the key ["undefined"]; a table that holds [cmd_sudo] itself
    there sends the call into itself until the stack overflows. *)
Definition overflow (args : list string) (s : UnixShell)
  : Completion * UnixShell :=
  (Throw (stackOverflowMessage H), s).

Fixpoint cmd_sudo (args : list string) (s : UnixShell)
  : Completion * UnixShell :=
  match args with
  | [] =>
      match Obj.get commands "undefined" with
      | Some h => call_with overflow h [] s
      | None => (Normal "sudo: undefined: command not found", s)
      end
  | command :: cmdArgs =>
      if command =? "su" then returns (cmd_su cmdArgs s)
      else
        match Obj.get commands command with
        | Some h => call_with cmd_sudo h cmdArgs s
        | None =>
            (Normal ("sudo: " ++ command ++ ": command not found"), s)
        end
  end.

Definition call : Handler -> list string -> UnixShell
                  -> Completion * UnixShell :=
  call_with cmd_sudo.

End Commands.

(** *** Wildcards, redirection and [execute] *)

(** [s.replace(/c/g, r)] for a one-character pattern *)
Fixpoint replaceAll (c : ascii) (r : string) (s : string) : string :=
  match s with
  | EmptyString => EmptyString
  | String a s' =>
      if Ascii.eqb a c then r ++ replaceAll c r s'
      else String a (replaceAll c r s')
  end.

(** The source handed to [new RegExp] for a wildcard argument. *)
Definition wildcardSource (arg : string) : string :=
  let pattern := replaceAll "?" "." (replaceAll "*" ".*" arg) in
  "^" ++ pattern ++ "$".

Definition hasWildcard (arg : string) : bool :=
  includes_char arg "*" || includes_char arg "?".

(** The loop of [expandWildcards] from the arguments still to read and
    the array [expanded] built so far; [inr] is the message of the
    [SyntaxError] that [new RegExp] threw. *)
Fixpoint expandLoop (H : Host) (s : UnixShell) (args expanded : list string)
  : list string + string :=
  match args with
  | [] => inl expanded
  | arg :: rest =>
      if hasWildcard arg then
        match getNode s (currentPath s) with
        | Some (Dir currentDir) =>
            match RegExp H (wildcardSource arg) with
            | None => inr (syntaxErrorMessage H (wildcardSource arg))
            | Some test =>
                match filter test (Obj.keys currentDir) with
                | [] => expandLoop H s rest (expanded ++ [arg])%list
                | matches =>
                    expandLoop H s rest (expanded ++ matches)%list
                end
            end
        | _ => expandLoop H s rest (expanded ++ [arg])%list
        end
      else expandLoop H s rest (expanded ++ [arg])%list
  end.

Definition expandWildcards (H : Host) (s : UnixShell) (args : list string)
  : list string + string :=
  expandLoop H s args [].

(** [None] stands for the [null] of a successful write. *)
Definition writeToFile (filePath content : string) (mode : RedirectMode)
           (s : UnixShell) : option string * UnixShell :=
  let fullPath := resolvePath s filePath in
  let parts := segments fullPath in
  let fileName := popName parts in
  let parentPath := parentOf parts in
  let parent := getNode s parentPath in
  if falsy parent
  then (Some ("bash: " ++ filePath ++ ": No such file or directory"), s)
  else
    match parent with
    | Some (Dir d) =>
        match Obj.get d fileName with
        | Some (Dir _) =>
            (Some ("bash: " ++ filePath ++ ": Is a directory"), s)
        | Some (File old) =>
            let new := match mode with
                       | append => old ++ content
                       | overwrite => content
                       end in
            (None, modifyAt s parentPath
                            (fun d => Obj.set d fileName (File new)))
        | None =>
            (None, modifyAt s parentPath
                            (fun d => Obj.set d fileName (File content)))
        end
    | _ => (Some ("bash: " ++ filePath ++ ": Not a directory"), s)
    end.

(** The test of the [filter] callback of the grep stage. *)
Definition grepKeeps (fl : GrepFlags) (pattern line : string) : bool :=
  let matches :=
    if ignoreCase fl
    then includes (toLowerCase line) (toLowerCase pattern)
    else includes line pattern in
  if invert fl then negb matches else matches.

(** The grep stage for a pattern that is not [null]. *)
Definition grepFilter (fl : GrepFlags) (pattern output : string) : string :=
  if nonempty output then
    let lines := split "010" output in
    let filtered := filter (grepKeeps fl pattern) lines in
    let output := join LF filtered in
    if endsWith output (LF ++ LF) then dropLast output else output
  else output.

Definition isSome {A} (o : option A) : bool :=
  match o with Some _ => true | None => false end.

(** The second half of [execute], from the lookup of the command on:
    [pattern] and [fl] are [grepPattern] and [grepFlags], [redirect] is
    the mode and the file of the redirection ([None] when
    [redirectMode] is [null]). *)
Definition dispatch (H : Host) (commands : Commands)
           (pattern : option string) (fl : GrepFlags)
           (redirect : option (RedirectMode * string))
           (command : string) (args : list string) (s : UnixShell)
  : Completion * UnixShell :=
  match expandWildcards H s args with
  | inr message => (Throw message, s)
  | inl args =>
      match Obj.get commands command with
      | None => (Normal (command ++ ": command not found"), s)
      | Some h =>
          match call H commands h args (with_isPiped s (isSome pattern)) with
          | (Throw message, s) =>
              (Normal ("Error executing " ++ command ++ ": " ++ message), s)
          | (Normal output, s) =>
              let s := with_isPiped s false in
              let output :=
                match pattern with
                | Some pattern => grepFilter fl pattern output
                | None => output
                end in
              match redirect with
              | Some (mode, redirectFile) =>
                  if nonempty redirectFile then
                    match writeToFile redirectFile output mode s with
                    | (Some writeResult, s) => (Normal writeResult, s)
                    | (None, s) => (Normal "", s)
                    end
                  else (Normal output, s)
              | None => (Normal output, s)
              end
          end
      end
  end.

(** What the first half of [execute] reads off the line: the redirection
    and the words of the command. *)
Definition redirectOf (commandLine : string) : option (RedirectMode * string) :=
  let piped := parsePipe commandLine in
  fst (parseRedirect (pipedLine piped) (pipedCommand piped)).

Definition wordsOf (commandLine : string) : list string :=
  let piped := parsePipe commandLine in
  let actualCommand :=
    snd (parseRedirect (pipedLine piped) (pipedCommand piped)) in
  split_ws (trim actualCommand).

(** [execute] after the history entry was pushed. *)
Definition run (H : Host) (commands : Commands) (commandLine : string)
           (s : UnixShell) : Completion * UnixShell :=
  let piped := parsePipe commandLine in
  let parts := wordsOf commandLine in
  let command := hd "" parts in
  let args := tl parts in
  dispatch H commands (grepPattern piped) (grepFlags piped)
           (redirectOf commandLine) command args s.

Definition execute (H : Host) (commands : Commands) (commandLine : string)
           (s : UnixShell) : Completion * UnixShell :=
  if negb (nonempty (trim commandLine)) then (Normal "", s)
  else run H commands commandLine
           (with_history s (commandHistory s ++ [commandLine])%list).

(** *** Construction *)

Definition createDefaultFileSystem (username : string) : Directory :=
  [("home",
    Dir [(username,
          Dir [("README.md",
                File ("# Welcome" ++ LF ++ LF ++
                      "This is a simple Unix shell emulator." ++ LF));
               ("example.txt",
                File ("This is an example file." ++ LF))])]);
   ("etc", Dir [("hostname", File ("localhost" ++ LF))]);
   ("tmp", Dir [])].

(** What [loadFromStorage] returned when it did not return [null]. *)
Record LoadedState : Type := mkLoaded {
  loadedFileSystem : Directory;
  loadedUser : string;
  loadedPath : string
}.

(** [new UnixShell({ fileSystem, username, persistence })]: [loaded] is
    the state found in the store when persistence is enabled and
    [loadFromStorage] succeeded, and [None] otherwise. *)
Definition construct (fileSystem : option Directory) (username : string)
           (loaded : option LoadedState) : UnixShell :=
  let '(fs, u, p) :=
    match loaded with
    | Some l => (loadedFileSystem l, loadedUser l, loadedPath l)
    | None =>
        (match fileSystem with
         | Some fs => fs
         | None => createDefaultFileSystem username
         end,
         username, "/home/" ++ username)
    end in
  mkShell fs u p
          (mkEnv u ("/home/" ++ u) p "/usr/local/bin:/usr/bin:/bin"
                 "/bin/bash")
          [] [] false.

Definition builtins : Commands :=
  [("help", Method Bhelp); ("ls", Method Bls); ("cd", Method Bcd);
   ("pwd", Method Bpwd); ("cat", Method Bcat); ("echo", Method Becho);
   ("clear", Method Bclear); ("whoami", Method Bwhoami);
   ("date", Method Bdate); ("uname", Method Buname); ("env", Method Benv);
   ("history", Method Bhistory); ("mkdir", Method Bmkdir);
   ("touch", Method Btouch); ("rm", Method Brm); ("tree", Method Btree);
   ("ps", Method Bps); ("vi", Method Bvi); ("vim", Method Bvim);
   ("su", Method Bsu); ("sudo", Method Bsudo); ("exit", Method Bexit)].

Definition initializeCommands
           (customCommands :
              Obj.t (list string -> UnixShell -> Completion * UnixShell))
  : Commands :=
  fold_left (fun cmds entry => Obj.set cmds (fst entry) (Custom (snd entry)))
            customCommands builtins.

(** *** Tab completion, the store and the editor's save *)

Inductive CompletionType : Type := commandType | pathType.

(** [filePrefix] is [None] where the result has no such property. *)
Record CompletionResult : Type := mkCompletion {
  completionType : CompletionType;
  matches : list string;
  completionPrefix : string;
  filePrefix : option string
}.

(** [s.lastIndexOf(c)] followed by [substring(0, i + 1)] and
    [substring(i + 1)]: [None] when [lastIndexOf] answers [-1]. *)
Fixpoint cutLast (c : ascii) (s : string) : option (string * string) :=
  match s with
  | EmptyString => None
  | String a s' =>
      match cutLast c s' with
      | Some (d, f) => Some (String a d, f)
      | None =>
          if Ascii.eqb a c then Some (String a EmptyString, s') else None
      end
  end.

Definition getCompletions (commands : Commands) (partial : string)
           (s : UnixShell) : CompletionResult :=
  let parts := split_ws (trim partial) in
  match parts with
  | [prefix] =>
      mkCompletion commandType
                   (filter (fun cmd => startsWith cmd prefix)
                           (Obj.keys commands))
                   prefix None
  | _ =>
      let pathPrefix := last parts EmptyString in
      let '(searchDir, prefix) :=
        match cutLast "/" pathPrefix with
        | Some (dirPart, rest) => (resolvePath s dirPart, rest)
        | None => (currentPath s, pathPrefix)
        end in
      match getNode s searchDir with
      | Some (Dir node) =>
          mkCompletion pathType
            (map (fun name =>
                    match Obj.get node name with
                    | Some (Dir _) => name ++ "/"
                    | _ => name
                    end)
                 (filter (fun name => startsWith name prefix) (Obj.keys node)))
            pathPrefix (Some prefix)
      | _ => mkCompletion pathType [] pathPrefix None
      end
  end.





(** The [saveCallback] that [openEditor] hands to the editor: did the
    write succeed? *)
Definition saveCallback (filename content : string) (s : UnixShell)
  : bool * UnixShell :=
  let r := writeToFile filename content overwrite s in
  (negb (isSome (fst r)), snd r).

End Shell.

(** ** The editor: [class ViEditor] *)

Module Vi.

Import JS.
Open Scope Z_scope.

Inductive Mode : Type := normal | insert | command.

(** The fields of a [keydown] event the editor reads. *)
Record KeyboardEvent : Type := mkKey {
  key : string;
  shiftKey : bool;
  ctrlKey : bool;
  metaKey : bool
}.

(** [saved] lists the contents handed to [saveCallback], oldest first;
    [closed] tells that [close] removed the key listener. *)
Record ViEditor : Type := mkEditor {
  filename : string;
  lines : list string;
  cursorRow : Z;
  cursorCol : Z;
  mode : Mode;
  commandBuffer : string;
  normalModeBuffer : string;
  yankBuffer : string;
  message : string;
  modified : bool;
  saved : list string;
  closed : bool
}.

Definition len (s : string) : Z := Z.of_nat (String.length s).

Definition count (l : list string) : Z := Z.of_nat (List.length l).

(** The relative index of [slice] and [splice]: a negative one counts
    from the end, and all are clamped to [0 .. n]. *)
Definition clamp (n i : Z) : nat :=
  Z.to_nat (if i <? 0 then Z.max (n + i) 0 else Z.min i n).

(** [s.slice(a)] *)
Definition sliceFrom (s : string) (a : Z) : string :=
  drop (clamp (len s) a) s.

(** [s.slice(a, b)] *)
Definition slice (s : string) (a b : Z) : string :=
  let from := clamp (len s) a in
  let to := clamp (len s) b in
  take (to - from) (drop from s).

(** [s[i]]; the empty string stands for [undefined], both of which are
    falsy where the program tests the value. *)
Definition charAt (s : string) (i : Z) : string :=
  if (0 <=? i) && (i <? len s) then take 1 (drop (Z.to_nat i) s)
  else "".

(** [lines[row]], for a [row] inside the array; every state the editor
    reaches has its row there ([row_in_range] below). *)
Definition lineAt (l : list string) (row : Z) : string :=
  nth (Z.to_nat row) l "".

(** [lines[row] = v], for a [row] inside the array. *)
Fixpoint update (l : list string) (n : nat) (v : string) : list string :=
  match l, n with
  | [], _ => []
  | _ :: l', O => v :: l'
  | x :: l', S n' => x :: update l' n' v
  end.

Definition setLine (l : list string) (row : Z) (v : string) : list string :=
  update l (Z.to_nat row) v.

(** [lines.splice(start, n)] *)
Definition spliceOut (l : list string) (start : Z) (n : nat) : list string :=
  let i := clamp (count l) start in
  (firstn i l ++ skipn (i + n) l)%list.

(** [lines.splice(start, 0, v)] *)
Definition spliceIn (l : list string) (start : Z) (v : string) : list string :=
  let i := clamp (count l) start in
  (firstn i l ++ v :: skipn i l)%list.

(** [new ViEditor(filename, content, saveCallback, exitCallback)] *)
Definition construct (filename content : string) : ViEditor :=
  mkEditor filename
           (if nonempty content then split "010" content else [""])
           0 0 normal "" "" "" "" false [] false.

(** *** Field updates *)

Definition with_lines (e : ViEditor) (l : list string) : ViEditor :=
  mkEditor (filename e) l (cursorRow e) (cursorCol e) (mode e)
           (commandBuffer e) (normalModeBuffer e) (yankBuffer e)
           (message e) (modified e) (saved e) (closed e).

Definition with_row (e : ViEditor) (r : Z) : ViEditor :=
  mkEditor (filename e) (lines e) r (cursorCol e) (mode e)
           (commandBuffer e) (normalModeBuffer e) (yankBuffer e)
           (message e) (modified e) (saved e) (closed e).

Definition with_col (e : ViEditor) (c : Z) : ViEditor :=
  mkEditor (filename e) (lines e) (cursorRow e) c (mode e)
           (commandBuffer e) (normalModeBuffer e) (yankBuffer e)
           (message e) (modified e) (saved e) (closed e).

Definition with_mode (e : ViEditor) (m : Mode) : ViEditor :=
  mkEditor (filename e) (lines e) (cursorRow e) (cursorCol e) m
           (commandBuffer e) (normalModeBuffer e) (yankBuffer e)
           (message e) (modified e) (saved e) (closed e).

Definition with_commandBuffer (e : ViEditor) (b : string) : ViEditor :=
  mkEditor (filename e) (lines e) (cursorRow e) (cursorCol e) (mode e)
           b (normalModeBuffer e) (yankBuffer e)
           (message e) (modified e) (saved e) (closed e).

Definition with_normalModeBuffer (e : ViEditor) (b : string) : ViEditor :=
  mkEditor (filename e) (lines e) (cursorRow e) (cursorCol e) (mode e)
           (commandBuffer e) b (yankBuffer e)
           (message e) (modified e) (saved e) (closed e).

Definition with_yankBuffer (e : ViEditor) (y : string) : ViEditor :=
  mkEditor (filename e) (lines e) (cursorRow e) (cursorCol e) (mode e)
           (commandBuffer e) (normalModeBuffer e) y
           (message e) (modified e) (saved e) (closed e).

Definition with_message (e : ViEditor) (m : string) : ViEditor :=
  mkEditor (filename e) (lines e) (cursorRow e) (cursorCol e) (mode e)
           (commandBuffer e) (normalModeBuffer e) (yankBuffer e)
           m (modified e) (saved e) (closed e).

Definition with_modified (e : ViEditor) (b : bool) : ViEditor :=
  mkEditor (filename e) (lines e) (cursorRow e) (cursorCol e) (mode e)
           (commandBuffer e) (normalModeBuffer e) (yankBuffer e)
           (message e) b (saved e) (closed e).

(** The current line, [this.lines[this.cursorRow]]. *)
Definition line (e : ViEditor) : string := lineAt (lines e) (cursorRow e).

Definition with_line (e : ViEditor) (v : string) : ViEditor :=
  with_lines e (setLine (lines e) (cursorRow e) v).

(** *** Delete motions *)

(** [if (this.lines.length === 0) this.lines = ['']] *)
Definition keepOneLine (e : ViEditor) : ViEditor :=
  match lines e with
  | [] => with_lines e [""]
  | _ => e
  end.

(** [if (this.cursorRow >= this.lines.length) this.cursorRow =
    this.lines.length - 1] *)
Definition clampRow (e : ViEditor) : ViEditor :=
  if count (lines e) <=? cursorRow e
  then with_row e (count (lines e) - 1)
  else e.

(** The length of what [/^\S+\s*/] matches at the start of [s]: [None]
    when [s] does not start with a character that is not white space. *)
Fixpoint spaces (s : string) : nat :=
  match s with
  | String a s' => if is_space a then S (spaces s') else O
  | EmptyString => O
  end.

Fixpoint wordEnd (s : string) : nat :=
  match s with
  | String a s' => if is_space a then spaces s else S (wordEnd s')
  | EmptyString => O
  end.

Definition wordMatch (s : string) : option nat :=
  match s with
  | String a _ => if is_space a then None else Some (wordEnd s)
  | EmptyString => None
  end.

(** The end of [handleDeleteMotion] for a motion it knows. *)
Definition finishDelete (deletedContent : string) (numLinesDeleted : nat)
           (e : ViEditor) : ViEditor :=
  let e :=
    if nonempty deletedContent then
      let e := with_modified (with_yankBuffer e deletedContent) true in
      with_message e
        (match numLinesDeleted with
         | O => "deleted"
         | 1%nat => "1 line deleted"
         | n => of_nat n ++ " lines deleted"
         end)
    else e in
  with_normalModeBuffer e "".

Definition is_key (k a b : string) : bool := (k =? a)%string || (k =? b)%string.

Definition handleDeleteMotion (k : string) (e : ViEditor) : ViEditor :=
  let row := cursorRow e in
  let col := cursorCol e in
  if (k =? "d")%string then
    let deletedContent := line e in
    let e := with_lines e (spliceOut (lines e) row 1) in
    let e := clampRow (keepOneLine e) in
    finishDelete deletedContent 1 (with_col e 0)
  else if is_key k "j" "ArrowDown" then
    if row <? count (lines e) - 1 then
      let deletedContent :=
        (line e ++ String "010" "" ++ lineAt (lines e) (row + 1))%string in
      let e := with_lines e (spliceOut (lines e) row 2) in
      let e := clampRow (keepOneLine e) in
      finishDelete deletedContent 2 (with_col e 0)
    else
      let deletedContent := line e in
      let e := with_lines e (spliceOut (lines e) row 1) in
      let e := clampRow (keepOneLine e) in
      finishDelete deletedContent 1 (with_col e 0)
  else if is_key k "k" "ArrowUp" then
    if 0 <? row then
      let deletedContent :=
        (lineAt (lines e) (row - 1) ++ String "010" "" ++ line e)%string in
      let e := with_lines e (spliceOut (lines e) (row - 1) 2) in
      let e := with_row e (row - 1) in
      let e := match lines e with
               | [] => with_row (with_lines e [""]) 0
               | _ => e
               end in
      let e := clampRow e in
      finishDelete deletedContent 2 (with_col e 0)
    else
      let deletedContent := line e in
      let e := with_lines e (spliceOut (lines e) row 1) in
      let e := keepOneLine e in
      finishDelete deletedContent 1 (with_col e 0)
  else if (k =? "$")%string then
    let deletedContent := sliceFrom (line e) col in
    finishDelete deletedContent 0 (with_line e (slice (line e) 0 col))
  else if (k =? "0")%string then
    let deletedContent := slice (line e) 0 col in
    finishDelete deletedContent 0
                 (with_col (with_line e (sliceFrom (line e) col)) 0)
  else if (k =? "w")%string then
    let l := line e in
    let remaining := sliceFrom l col in
    match wordMatch remaining with
    | Some n =>
        let deletedContent := take n remaining in
        finishDelete deletedContent 0
          (with_line e (slice l 0 col ++ sliceFrom l (col + Z.of_nat n))%string)
    | None => finishDelete "" 0 e
    end
  else if is_key k "l" "ArrowRight" then
    let l := line e in
    if col <? len l then
      finishDelete (charAt l col) 0
        (with_line e (slice l 0 col ++ sliceFrom l (col + 1))%string)
    else finishDelete "" 0 e
  else if is_key k "h" "ArrowLeft" then
    let l := line e in
    if 0 <? col then
      finishDelete (charAt l (col - 1)) 0
        (with_col
           (with_line e (slice l 0 (col - 1) ++ sliceFrom l col)%string)
           (col - 1))
    else finishDelete "" 0 e
  else with_normalModeBuffer e "".

(** *** The three modes *)

Definition handleNormalMode (ev : KeyboardEvent) (e : ViEditor) : ViEditor :=
  let k := key ev in
  if (normalModeBuffer e =? "d")%string then handleDeleteMotion k e
  else
    let e := with_normalModeBuffer e "" in
    let row := cursorRow e in
    let col := cursorCol e in
    if is_key k "h" "ArrowLeft" then with_col e (Z.max 0 (col - 1))
    else if is_key k "j" "ArrowDown" then
      let e := with_row e (Z.min (count (lines e) - 1) (row + 1)) in
      with_col e (Z.min col (len (line e)))
    else if is_key k "k" "ArrowUp" then
      let e := with_row e (Z.max 0 (row - 1)) in
      with_col e (Z.min col (len (line e)))
    else if is_key k "l" "ArrowRight" then
      with_col e (Z.min (len (line e)) (col + 1))
    else if (k =? "0")%string then with_col e 0
    else if (k =? "$")%string then with_col e (len (line e))
    else if (k =? "g")%string && shiftKey ev then
      with_row e (count (lines e) - 1)
    else if (k =? "i")%string then with_mode e insert
    else if (k =? "a")%string then
      with_mode (with_col e (Z.min (len (line e)) (col + 1))) insert
    else if (k =? "o")%string then
      let e := with_lines e (spliceIn (lines e) (row + 1) "") in
      with_modified (with_mode (with_col (with_row e (row + 1)) 0) insert)
                    true
    else if (k =? "O")%string && shiftKey ev then
      let e := with_lines e (spliceIn (lines e) row "") in
      with_modified (with_mode (with_col e 0) insert) true
    else if (k =? "x")%string then
      if col <? len (line e) then
        let l := line e in
        with_modified
          (with_line e (slice l 0 col ++ sliceFrom l (col + 1))%string) true
      else e
    else if (k =? "d")%string && shiftKey ev then
      with_modified (with_line e (slice (line e) 0 col)) true
    else if (k =? "d")%string && negb (shiftKey ev) then
      with_normalModeBuffer e "d"
    else if (k =? "y")%string && shiftKey ev then
      with_message (with_yankBuffer e (line e)) "yanked line"
    else if (k =? "p")%string then
      if nonempty (yankBuffer e) then
        let e := with_lines e (spliceIn (lines e) (row + 1) (yankBuffer e)) in
        with_modified (with_row e (row + 1)) true
      else e
    else if (k =? ":")%string then
      with_commandBuffer (with_mode e command) ""
    else e.

(** [key.length === 1 && !e.ctrlKey && !e.metaKey] *)
Definition printable (ev : KeyboardEvent) : bool :=
  (String.length (key ev) =? 1)%nat && negb (ctrlKey ev) && negb (metaKey ev).

Definition handleInsertMode (ev : KeyboardEvent) (e : ViEditor) : ViEditor :=
  let k := key ev in
  let row := cursorRow e in
  let col := cursorCol e in
  if (k =? "Escape")%string then
    with_col (with_mode e normal) (Z.max 0 (col - 1))
  else if (k =? "Enter")%string then
    let l := line e in
    let before := slice l 0 col in
    let after := sliceFrom l col in
    let e := with_line e before in
    let e := with_lines e (spliceIn (lines e) (row + 1) after) in
    with_modified (with_col (with_row e (row + 1)) 0) true
  else if (k =? "Backspace")%string then
    if 0 <? col then
      let l := line e in
      with_modified
        (with_col
           (with_line e (slice l 0 (col - 1) ++ sliceFrom l col)%string)
           (col - 1))
        true
    else if 0 <? row then
      let currentLine := line e in
      let e := with_row e (row - 1) in
      let e := with_col e (len (line e)) in
      let e := with_line e (line e ++ currentLine)%string in
      let e := with_lines e (spliceOut (lines e) (cursorRow e + 1) 1) in
      with_modified e true
    else e
  else if printable ev then
    let l := line e in
    with_modified
      (with_col (with_line e (slice l 0 col ++ k ++ sliceFrom l col)%string)
                (col + 1))
      true
  else e.

Definition save (e : ViEditor) : ViEditor :=
  let content := join (String "010" "") (lines e) in
  mkEditor (filename e) (lines e) (cursorRow e) (cursorCol e) (mode e)
           (commandBuffer e) (normalModeBuffer e) (yankBuffer e)
           (message e) false (saved e ++ [content])%list (closed e).

Definition close (e : ViEditor) : ViEditor :=
  mkEditor (filename e) (lines e) (cursorRow e) (cursorCol e) (mode e)
           (commandBuffer e) (normalModeBuffer e) (yankBuffer e)
           (message e) (modified e) (saved e) true.

Definition executeCommand (cmd : string) (e : ViEditor) : ViEditor :=
  if (cmd =? "w")%string then
    let e := save e in
    with_mode
      (with_message e
         (DQUOTE ++ filename e ++ DQUOTE ++ " " ++
          of_nat (List.length (lines e)) ++ "L written")%string)
      normal
  else if (cmd =? "q")%string then
    if modified e then
      with_mode
        (with_message e "No write since last change (add ! to override)")
        normal
    else close e
  else if (cmd =? "q!")%string then close e
  else if is_key cmd "wq" "x" then close (save e)
  else
    with_mode (with_message e ("Not an editor command: " ++ cmd)%string)
              normal.

Definition handleCommandMode (ev : KeyboardEvent) (e : ViEditor) : ViEditor :=
  let k := key ev in
  if (k =? "Escape")%string then
    with_commandBuffer (with_mode e normal) ""
  else if (k =? "Enter")%string then
    with_commandBuffer (executeCommand (commandBuffer e) e) ""
  else if (k =? "Backspace")%string then
    let e := with_commandBuffer e (dropLast (commandBuffer e)) in
    if (commandBuffer e =? "")%string then with_mode e normal else e
  else if printable ev then
    with_commandBuffer e (commandBuffer e ++ k)%string
  else e.

Definition handleKey (ev : KeyboardEvent) (e : ViEditor) : ViEditor :=
  let e := with_message e "" in
  match mode e with
  | normal => handleNormalMode ev e
  | insert => handleInsertMode ev e
  | command => handleCommandMode ev e
  end.

(** A key with no modifier held. *)
Definition plain (k : string) : KeyboardEvent := mkKey k false false false.

(** The states of an editor session: what the constructor builds, and
    what [handleKey] makes of a state whose listener is still attached. *)
Inductive Reachable : ViEditor -> Prop :=
| reach_construct (filename content : string) :
    Reachable (construct filename content)
| reach_key (ev : KeyboardEvent) (e : ViEditor) :
    Reachable e -> closed e = false -> Reachable (handleKey ev e).

End Vi.

(** ** A sample host and sample states *)

Module Sample.

Import JS Shell.

(** A small regular-expression engine.  It knows the sources [^...$]
    whose body is made of literal characters, [.] and [.*], which is
    what a wildcard argument without any other special character turns
    into, and rejects every other source. *)
Inductive Atom : Type :=
| Lit (c : ascii)
| Any
| AnyStar.

Definition special (c : ascii) : bool :=
  has_char c "\^$.*+?()[]{}|".

Fixpoint atoms (s : string) : option (list Atom) :=
  match s with
  | EmptyString => None
  | String a s1 =>
      if Ascii.eqb a "$" then
        match s1 with EmptyString => Some [] | _ => None end
      else if Ascii.eqb a "." then
        match s1 with
        | String "*" s2 => option_map (cons AnyStar) (atoms s2)
        | _ => option_map (cons Any) (atoms s1)
        end
      else if special a then None
      else option_map (cons (Lit a)) (atoms s1)
  end.

Fixpoint matches (l : list Atom) (s : string) : bool :=
  match l with
  | [] => negb (nonempty s)
  | Lit c :: l' =>
      match s with
      | String a s' => Ascii.eqb a c && matches l' s'
      | EmptyString => false
      end
  | Any :: l' =>
      match s with
      | String a s' => is_dot a && matches l' s'
      | EmptyString => false
      end
  | AnyStar :: l' =>
      (fix star (s : string) : bool :=
         matches l' s ||
         match s with
         | String a s' => is_dot a && star s'
         | EmptyString => false
         end) s
  end.

Definition regExp (source : string) : option (string -> bool) :=
  match source with
  | String "^" body => option_map matches (atoms body)
  | _ => None
  end.

Definition host : Host :=
  mkHost regExp
         (fun source => "Invalid regular expression: /" ++ source ++ "/")
         (fun a b => default_compare (toLowerCase a) (toLowerCase b))
         "Mon Jan 01 2024 00:00:00 GMT+0000"
         "Jan 1, 12:00 AM"
         "Cannot convert undefined or null to object"
         "Maximum call stack size exceeded".

(** [new UnixShell({ username: 'testuser' })] and the calls of a
    session on it. *)
Definition fresh : UnixShell := construct None "testuser" None.

Fixpoint session (lines : list string) (s : UnixShell) : UnixShell :=
  match lines with
  | [] => s
  | l :: rest => session rest (snd (execute host builtins l s))
  end.

(** The output of [line] after the lines of [before]. *)
Definition output (before : list string) (line : string) : Completion :=
  fst (execute host builtins line (session before fresh)).

End Sample.

(** ** Notions used to state the properties *)

Module Spec.

Import JS Shell.

(** A path segment: not empty and free of slashes. *)
Definition segment (x : string) : Prop :=
  nonempty x = true /\ has_char "/" x = false.

(** A line that is empty or holds white space only. *)
Fixpoint blank (s : string) : bool :=
  match s with
  | EmptyString => true
  | String c s' => is_space c && blank s'
  end.

(** The handlers of the caller leave the history alone. *)
Definition keepsHistory (commands : Commands) : Prop :=
  forall name f, In (name, Custom f) commands ->
  forall args s, commandHistory (snd (f args s)) = commandHistory s.

(** [environment.PWD] equals [currentPath]. *)
Definition pwdInSync (s : UnixShell) : Prop :=
  PWD (environment s) = currentPath s.





(** What one argument becomes under wildcard expansion, when the engine
    accepts its pattern: the names of the current directory that the
    pattern matches, in the order the directory enumerates them, or the
    argument itself when there is none. *)
Definition expandArg (H : Host) (s : UnixShell) (arg : string)
  : list string :=
  if hasWildcard arg then
    match getNode s (currentPath s), RegExp H (wildcardSource arg) with
    | Some (Dir currentDir), Some test =>
        match filter test (Obj.keys currentDir) with
        | [] => [arg]
        | matches => matches
        end
    | _, _ => [arg]
    end
  else [arg].

(** The current directory of [s] is the directory [d]: the current path
    is absolute and [getNode] finds [d] there. *)
Definition cwdIs (s : UnixShell) (d : Directory) : Prop :=
  startsWith (currentPath s) "/" = true /\
  getNode s (currentPath s) = Some (Dir d).

(** [x] between double quotes, as typed on a command line. *)
Definition quoted (x : string) : string := DQUOTE ++ x ++ DQUOTE.

(** The buffer has a line and the cursor is on one of its rows. *)
Definition rowInRange (e : Vi.ViEditor) : Prop :=
  (0 <= Vi.cursorRow e < Vi.count (Vi.lines e))%Z.

(** The cursor column is on the current line or just past its end. *)
Definition colInRange (e : Vi.ViEditor) : Prop :=
  (0 <= Vi.cursorCol e <= Vi.len (Vi.line e))%Z.

(** The keys of normal mode that move the row without looking at the
    column: [p] and [Shift+g]. *)
Definition pasteOrLastLine (ev : Vi.KeyboardEvent) : bool :=
  (Vi.key ev =? "p")%string ||
  ((Vi.key ev =? "g")%string && Vi.shiftKey ev).

(** A name as typed for an entry of the current directory: one path
    segment that is not [..] or [.] and starts with neither [~] nor [-]. *)
Definition plainName (name : string) : Prop :=
  segment name /\ startsWith name "~" = false /\
  startsWith name "-" = false /\ name <> ".." /\ name <> ".".

(** A path written the way [resolvePath] writes one: a slash, then the
    segments joined by slashes. *)
Definition canonical (p : string) : Prop :=
  p = "/" ++ join "/" (segments p).

(** The user's name is not [root] and the path lies outside the user's
    home prefix. *)
Definition outsideHome (s : UnixShell) (p : string) : Prop :=
  currentUser s <> "root" /\
  startsWith (resolvePath s p) ("/home/" ++ currentUser s) = false.

(** The paths the shell keeps are absolute: the current path, [HOME], and
    the homes and paths saved on the stack of users. *)
Definition wellPathed (s : UnixShell) : Prop :=
  startsWith (currentPath s) "/" = true /\
  startsWith (HOME (environment s)) "/" = true /\
  Forall (fun u => startsWith (home u) "/" = true /\
                   startsWith (path u) "/" = true) (userStack s).

(** [su] to each of [users] in turn, and [n] times [exit]. *)
Definition suAll (users : list string) (s : UnixShell) : UnixShell :=
  fold_left (fun s u => snd (cmd_su [u] s)) users s.

Fixpoint exitTimes (n : nat) (s : UnixShell) : UnixShell :=
  match n with
  | O => s
  | S n' => exitTimes n' (snd (cmd_exit s))
  end.

(** The keys of [evs] given to the editor one after the other, for as
    long as its listener is attached. *)
Fixpoint press (evs : list Vi.KeyboardEvent) (e : Vi.ViEditor)
  : Vi.ViEditor :=
  match evs with
  | [] => e
  | ev :: rest =>
      if Vi.closed e then e else press rest (Vi.handleKey ev e)
  end.

(** No line of the buffer holds a newline. *)
Definition singleLines (l : list string) : Prop :=
  Forall (fun x => has_char "010" x = false) l.

End Spec.

(** * Properties *)

Import JS Shell Spec.

(** ** Strings and paths *)

Lemma startsWith_refl (s : string) : startsWith s s = true.
Proof.
  induction s as [|c s IH]; simpl; [reflexivity|].
  rewrite Ascii.eqb_refl; exact IH.
Qed.


Lemma startsWith_app_l (p q s : string) :
  startsWith s (p ++ q) = true -> startsWith s p = true.
Proof.
  revert s; induction p as [|c p IH]; simpl; intros s Hp; [reflexivity|].
  destruct s as [|a s]; [discriminate|].
  apply andb_true_iff in Hp; destruct Hp as [Hc Hp].
  rewrite Hc; simpl; apply IH; exact Hp.
Qed.


Lemma split_no_sep (c : ascii) (a : string) :
  has_char c a = false -> split c a = [a].
Proof.
  induction a as [|x a IH]; simpl; intros Hc; [reflexivity|].
  apply orb_false_iff in Hc; destruct Hc as [Hx Ha].
  rewrite Hx, (IH Ha); reflexivity.
Qed.

Lemma split_app_sep (c : ascii) (a rest : string) :
  has_char c a = false ->
  split c (a ++ String c rest) = a :: split c rest.
Proof.
  induction a as [|x a IH]; simpl; intros Hc.
  - rewrite Ascii.eqb_refl; reflexivity.
  - apply orb_false_iff in Hc; destruct Hc as [Hx Ha].
    rewrite Hx, (IH Ha); reflexivity.
Qed.

Lemma split_pieces (c : ascii) (s : string) :
  Forall (fun x => has_char c x = false) (split c s).
Proof.
  induction s as [|a s IH]; simpl.
  - repeat constructor.
  - destruct (Ascii.eqb a c) eqn:E.
    + constructor; [reflexivity | exact IH].
    + destruct (split c s) as [|h t]; inversion IH; subst;
        constructor; simpl; try rewrite E; auto.
Qed.

Lemma segments_are_segments (p : string) : Forall segment (segments p).
Proof.
  unfold segments.
  pose proof (split_pieces "/" p) as Hs.
  induction Hs as [|x l Hx Hl IH]; simpl; [constructor|].
  destruct (nonempty x) eqn:E; [constructor; [split; assumption | exact IH] | exact IH].
Qed.

Lemma segments_join (l : list string) :
  Forall segment l -> segments ("/" ++ join "/" l) = l.
Proof.
  unfold segments; simpl.
  induction 1 as [|x l [Hne Hns] Hl IH]; [reflexivity|].
  unfold join in *; simpl.
  destruct l as [|y l].
  - rewrite (split_no_sep _ _ Hns); simpl; rewrite Hne; reflexivity.
  - change (String.concat "/" (y :: l)) with (join "/" (y :: l)).
    replace (x ++ "/" ++ join "/" (y :: l))
      with (x ++ String "/" (join "/" (y :: l))) by reflexivity.
    rewrite (split_app_sep _ _ _ Hns); simpl; rewrite Hne.
    f_equal; exact IH.
Qed.

Lemma resolvePath_absolute (s : UnixShell) (p : string) :
  startsWith p "/" = true -> resolvePath s p = p.
Proof.
  intros Hp; unfold resolvePath.
  destruct p as [|c p]; [discriminate|].
  simpl in Hp; apply andb_true_iff in Hp; destruct Hp as [Hc _].
  apply Ascii.eqb_eq in Hc; subst c; reflexivity.
Qed.

Lemma resolvePath_rooted (s : UnixShell) (p : string) :
  startsWith (resolvePath s p) "/" = true.
Proof.
  unfold resolvePath.
  set (q := if startsWith p "~" then _ else _).
  destruct (startsWith q "/") eqn:E; [exact E | reflexivity].
Qed.

(** ** C1: [canWrite] *)

Lemma canWrite_root (s : UnixShell) (p : string) :
  currentUser s = "root" -> canWrite s p = true.
Proof. intros Hu; unfold canWrite; rewrite Hu; reflexivity. Qed.

(** For another user the answer is the prefix test of the source. *)
Lemma canWrite_user (s : UnixShell) (p : string) :
  currentUser s <> "root" ->
  canWrite s p = startsWith (resolvePath s p) ("/home/" ++ currentUser s).
Proof.
  intros Hu; unfold canWrite.
  destruct (String.eqb_spec (currentUser s) "root"); [contradiction | reflexivity].
Qed.

(** The home directory and all below it are writable. *)
Lemma canWrite_home (s : UnixShell) (p : string) :
  resolvePath s p = "/home/" ++ currentUser s \/
  startsWith (resolvePath s p) ("/home/" ++ currentUser s ++ "/") = true ->
  canWrite s p = true.
Proof.
  intros Hp; unfold canWrite.
  destruct (currentUser s =? "root"); [reflexivity|].
  destruct Hp as [-> | Hp].
  - apply startsWith_refl.
  - apply startsWith_app_l with (q := "/").
    replace (("/home/" ++ currentUser s) ++ "/")
      with ("/home/" ++ currentUser s ++ "/"); [exact Hp|].
    simpl; repeat f_equal.
Qed.

(** C1, at the failing input.  For the user [al] the path [/home/alice],
    which is neither [/home/al] nor below [/home/al/], is writable: the
    prefix test of [canWrite] has no separator after the user's name. *)
Theorem canWrite_sibling_home :
  let s := construct None "al" None in
  currentUser s = "al" /\
  resolvePath s "/home/alice" = "/home/alice" /\
  "/home/alice" <> "/home/al" /\
  startsWith "/home/alice" "/home/al/" = false /\
  canWrite s "/home/alice" = true.
Proof. repeat split; discriminate. Qed.

(** ** C2: [resolvePath] and [..] *)

(** C2 as stated fails: an absolute path is returned as it is. *)
Lemma resolvePath_absolute_dotdot :
  resolvePath (construct None "user" None) "/../.." <> "/".
Proof. discriminate. Qed.

Lemma resolveStep_underflow : resolveStep [] ".." = [].
Proof. reflexivity. Qed.

Lemma fold_dotdot (l parts : list string) :
  Forall (eq "..") l -> (length parts <= length l)%nat ->
  fold_left resolveStep l parts = [].
Proof.
  revert parts; induction l as [|x l IH]; intros parts Hl Hn.
  - destruct parts; [reflexivity | simpl in Hn; lia].
  - inversion Hl as [|? ? Hx Hl']; subst; simpl.
    apply IH; [exact Hl'|].
    unfold resolveStep; simpl.
    destruct parts as [|p parts] using rev_ind; [simpl; lia|].
    rewrite removelast_last.
    rewrite length_app in Hn; simpl in Hn |- *; lia.
Qed.

(** C2, amended.  [resolvePath] is a total function; an absolute argument
    comes back unchanged, so ["/../.."] resolves to itself; for a relative
    argument a [..] on an empty stack of segments pops nothing, and an
    argument made of at least as many [..] segments as the current path
    has segments resolves to ["/"]. *)
Theorem resolvePath_dotdot_underflow (s : UnixShell) (p : string) :
  startsWith p "~" = false ->
  startsWith p "/" = false ->
  Forall (eq "..") (segments p) ->
  (length (segments (currentPath s)) <= length (segments p))%nat ->
  resolvePath s p = "/" /\
  resolveStep [] ".." = [] /\
  resolvePath s "/../.." = "/../..".
Proof.
  intros Ht Hs Hd Hn; split; [|split; reflexivity].
  unfold resolvePath; rewrite Ht, Hs.
  rewrite (fold_dotdot _ _ Hd Hn); reflexivity.
Qed.

Lemma resolvePath_dotdot_underflow_witness :
  resolvePath (construct None "user" None) "../../../.." = "/" /\
  resolveStep [] ".." = [] /\
  resolvePath (construct None "user" None) "/../.." = "/../..".
Proof.
  apply resolvePath_dotdot_underflow;
    [reflexivity | reflexivity | repeat constructor | simpl; lia].
Defined.

(** ** What every command leaves alone

    A relation [R] between the state before and the state after a call
    that holds across the elementary updates of the shell holds across
    every handler of the table and across [dispatch]. *)

Lemma get_In {A} (o : Obj.t A) (k : string) (v : A) :
  Obj.get o k = Some v -> exists k', In (k', v) o.
Proof.
  induction o as [|[k' v'] o IH]; simpl; [discriminate|].
  destruct (k' =? k).
  - intros [= ->]; eauto.
  - intros Hg; destruct (IH Hg) as [k'' Hin]; eauto.
Qed.

Section Frame.

Variable R : UnixShell -> UnixShell -> Prop.
Hypothesis R_refl : forall s, R s s.
Hypothesis R_trans : forall a b c, R a b -> R b c -> R a c.
Hypothesis R_fs : forall s fs, R s (with_fileSystem s fs).
Hypothesis R_piped : forall s b, R s (with_isPiped s b).
Hypothesis R_cd : forall args s, R s (snd (cmd_cd args s)).
Hypothesis R_su : forall args s, R s (snd (cmd_su args s)).
Hypothesis R_exit : forall s, R s (snd (cmd_exit s)).

Variable H : Host.
Variable commands : Commands.
Hypothesis R_custom :
  forall name f, In (name, Custom f) commands ->
  forall args s, R s (snd (f args s)).

Lemma frame_modifyAt (s : UnixShell) (p : string) (f : Directory -> Directory) :
  R s (modifyAt s p f).
Proof. apply R_fs. Qed.

Lemma frame_mkdir (args : list string) (s : UnixShell) :
  R s (snd (cmd_mkdir args s)).
Proof.
  unfold cmd_mkdir.
  repeat match goal with
         | |- context [match ?x with _ => _ end] => destruct x
         end; simpl; auto using frame_modifyAt.
Qed.

Lemma frame_touch (args : list string) (s : UnixShell) :
  R s (snd (cmd_touch args s)).
Proof.
  unfold cmd_touch.
  repeat match goal with
         | |- context [match ?x with _ => _ end] => destruct x
         end; simpl; auto using frame_modifyAt.
Qed.

Lemma frame_rm_target (r f v : bool) (st : RmLoop) (t : string) :
  R (rm_shell st) (rm_shell (rm_target r f v st t)).
Proof.
  unfold rm_target.
  repeat match goal with
         | |- context [match ?x with _ => _ end] => destruct x
         end; simpl; auto using frame_modifyAt.
Qed.

Lemma frame_rm_loop (r f v : bool) (targets : list string) (st : RmLoop) :
  R (rm_shell st) (rm_shell (fold_left (rm_target r f v) targets st)).
Proof.
  revert st; induction targets as [|t targets IH]; intros st; simpl.
  - apply R_refl.
  - eapply R_trans; [apply frame_rm_target | apply IH].
Qed.

Lemma frame_rm (args : list string) (s : UnixShell) :
  R s (snd (cmd_rm args s)).
Proof.
  unfold cmd_rm.
  destruct (arg0 args); simpl; [|apply R_refl].
  destruct (filter _ args) as [|t targets] eqn:E; simpl; [apply R_refl|].
  apply (frame_rm_loop _ _ _ (t :: targets) (mkRm s [] [])).
Qed.

Lemma frame_method
      (sudo : list string -> UnixShell -> Completion * UnixShell)
      (b : Builtin) (args : list string) (s : UnixShell) :
  R s (snd (sudo args s)) ->
  R s (snd (method H commands sudo b args s)).
Proof.
  intros Hsudo; destruct b; unfold method, returns; cbn [fst snd];
    auto using frame_mkdir, frame_touch, frame_rm.
Qed.

Lemma frame_call_with
      (sudo : list string -> UnixShell -> Completion * UnixShell)
      (h : Handler) (args : list string) (s : UnixShell) (name : string) :
  In (name, h) commands ->
  R s (snd (sudo args s)) ->
  R s (snd (call_with H commands sudo h args s)).
Proof.
  intros Hin Hsudo; destruct h as [b|f]; simpl.
  - apply frame_method; exact Hsudo.
  - eapply R_custom; exact Hin.
Qed.

Lemma frame_sudo (args : list string) (s : UnixShell) :
  R s (snd (cmd_sudo H commands args s)).
Proof.
  revert s; induction args as [|command cmdArgs IH]; intros s; simpl.
  - destruct (Obj.get commands "undefined") as [h|] eqn:E; [|apply R_refl].
    destruct (get_In _ _ _ E) as [k Hin].
    eapply frame_call_with; [exact Hin | apply R_refl].
  - destruct (command =? "su"); [apply R_su|].
    destruct (Obj.get commands command) as [h|] eqn:E; [|apply R_refl].
    destruct (get_In _ _ _ E) as [k Hin].
    eapply frame_call_with; [exact Hin | apply IH].
Qed.

Lemma frame_call (h : Handler) (args : list string) (s : UnixShell)
      (name : string) :
  In (name, h) commands -> R s (snd (call H commands h args s)).
Proof.
  intros Hin; eapply frame_call_with; [exact Hin | apply frame_sudo].
Qed.

Lemma frame_writeToFile (file content : string) (mode : RedirectMode)
      (s : UnixShell) :
  R s (snd (writeToFile file content mode s)).
Proof.
  unfold writeToFile.
  repeat match goal with
         | |- context [match ?x with _ => _ end] => destruct x
         end; simpl; auto using frame_modifyAt.
Qed.

Lemma frame_dispatch (pattern : option string) (fl : GrepFlags)
      (redirect : option (RedirectMode * string))
      (command : string) (args : list string) (s : UnixShell) :
  R s (snd (dispatch H commands pattern fl redirect command args s)).
Proof.
  unfold dispatch.
  destruct (expandWildcards H s args) as [args'|m]; [|apply R_refl].
  destruct (Obj.get commands command) as [h|] eqn:E; [|apply R_refl].
  destruct (get_In _ _ _ E) as [k Hin].
  pose proof (frame_call h args' (with_isPiped s (isSome pattern)) k Hin)
    as Hc.
  destruct (call H commands h args' _) as [[output|m] s1]; simpl in Hc.
  - assert (Hs2 : R s (with_isPiped s1 false)).
    { eapply R_trans; [apply R_piped|].
      eapply R_trans; [exact Hc | apply R_piped]. }
    destruct redirect as [[mode file]|]; [|exact Hs2].
    destruct (nonempty file); [|exact Hs2].
    match goal with
    | |- context [writeToFile ?f ?c ?m ?s] =>
        pose proof (frame_writeToFile f c m s) as Hw;
        destruct (writeToFile f c m s) as [[w|] s3]
    end; simpl in *; eapply R_trans; eauto.
  - simpl; eapply R_trans; [apply R_piped | exact Hc].
Qed.

End Frame.

(** ** C3: the history *)

Lemma trimStart_blank (s : string) :
  blank s = true -> trimStart s = "".
Proof.
  induction s as [|c s IH]; simpl; [reflexivity|].
  intros Hb; apply andb_true_iff in Hb; destruct Hb as [Hc Hs].
  rewrite Hc; exact (IH Hs).
Qed.

Lemma trimEnd_keeps_head (c : ascii) (s : string) :
  is_space c = false -> nonempty (trimEnd (String c s)) = true.
Proof.
  intros Hc; simpl.
  destruct (trimEnd s); [rewrite Hc|]; reflexivity.
Qed.

Lemma trim_blank (s : string) : nonempty (trim s) = negb (blank s).
Proof.
  unfold trim.
  induction s as [|c s IH]; simpl; [reflexivity|].
  destruct (is_space c) eqn:Hc; simpl; [exact IH|].
  change (nonempty (trimEnd (String c s)) = true).
  apply trimEnd_keeps_head; exact Hc.
Qed.

Lemma builtins_no_custom (name : string)
      (f : list string -> UnixShell -> Completion * UnixShell) :
  ~ In (name, Custom f) builtins.
Proof. simpl; intuition discriminate. Qed.

Lemma builtins_keepsHistory : keepsHistory builtins.
Proof. intros name f Hin; destruct (builtins_no_custom _ _ Hin). Qed.

Lemma dispatch_history (H : Host) (commands : Commands)
      (pattern : option string) (fl : GrepFlags)
      (redirect : option (RedirectMode * string))
      (command : string) (args : list string) (s : UnixShell) :
  keepsHistory commands ->
  commandHistory
    (snd (dispatch H commands pattern fl redirect command args s)) =
  commandHistory s.
Proof.
  intros Hk.
  apply (frame_dispatch
           (fun a b => commandHistory b = commandHistory a)); try reflexivity.
  - intros a b c Hab Hbc; congruence.
  - intros a0 s0; unfold cmd_cd.
    destruct (arg0 a0); [|reflexivity].
    destruct (getNode s0 _) as [[|]|]; reflexivity.
  - intros s0; unfold cmd_exit; destruct (userStack s0); reflexivity.
  - exact Hk.
Qed.

(** C3.  A line that is empty or white space only returns the empty
    string and leaves the whole state, history included, as it was.  Any
    other line is pushed on the history before the rest of [execute]
    runs, and there it stays, once, however the call ends: unknown
    command, fault of a handler, fault of the wildcard expansion, failed
    redirection.  The handlers of the caller are taken not to write the
    history themselves. *)
Theorem execute_history (H : Host) (commands : Commands) (line : string)
        (s : UnixShell) :
  keepsHistory commands ->
  (blank line = true -> execute H commands line s = (Normal "", s)) /\
  (blank line = false ->
   execute H commands line s =
     run H commands line (with_history s (commandHistory s ++ [line])) /\
   commandHistory (snd (execute H commands line s)) =
     (commandHistory s ++ [line])%list).
Proof.
  intros Hk; unfold execute; rewrite trim_blank, negb_involutive.
  split; intros Hb; rewrite Hb; [reflexivity|].
  split; [reflexivity|].
  unfold run; rewrite dispatch_history by exact Hk; reflexivity.
Qed.

Lemma execute_history_witness :
  keepsHistory builtins /\
  blank "frobnicate" = false /\
  fst (execute Sample.host builtins "frobnicate" Sample.fresh) =
    Normal "frobnicate: command not found" /\
  commandHistory (snd (execute Sample.host builtins "frobnicate" Sample.fresh)) =
    ["frobnicate"].
Proof.
  split; [exact builtins_keepsHistory|].
  split; [reflexivity|].
  split; [reflexivity|].
  apply (proj2 (proj2 (execute_history Sample.host builtins "frobnicate"
                                       Sample.fresh builtins_keepsHistory)
                      eq_refl)).
Defined.

(** ** C10: [environment.PWD] and [currentPath] *)








(** ** A line whose words are known *)

Lemma expandLoop_plain (H : Host) (s : UnixShell) (args acc : list string) :
  forallb (fun a => negb (hasWildcard a)) args = true ->
  expandLoop H s args acc = inl (acc ++ args)%list.
Proof.
  revert acc; induction args as [|a args IH]; simpl; intros acc Hp.
  - rewrite app_nil_r; reflexivity.
  - apply andb_true_iff in Hp; destruct Hp as [Ha Hp].
    apply negb_true_iff in Ha; rewrite Ha, (IH _ Hp), <- app_assoc.
    reflexivity.
Qed.

Lemma expandWildcards_plain (H : Host) (s : UnixShell) (args : list string) :
  forallb (fun a => negb (hasWildcard a)) args = true ->
  expandWildcards H s args = inl args.
Proof. intros Hp; apply (expandLoop_plain H s args [] Hp). Qed.

Lemma execute_words (H : Host) (commands : Commands) (line : string)
      (s : UnixShell) (pattern : option string) (fl : GrepFlags)
      (redirect : option (RedirectMode * string))
      (command : string) (args : list string) :
  blank line = false ->
  grepPattern (parsePipe line) = pattern ->
  grepFlags (parsePipe line) = fl ->
  redirectOf line = redirect ->
  wordsOf line = command :: args ->
  execute H commands line s =
    dispatch H commands pattern fl redirect command args
             (with_history s (commandHistory s ++ [line])).
Proof.
  intros Hb <- <- <- Hw; unfold execute, run.
  rewrite trim_blank, Hb, Hw; reflexivity.
Qed.

(** ** C5: [su] and [exit] *)

Lemma exit_after_su (args : list string) (s : UnixShell) :
  snd (cmd_exit (snd (cmd_su args s))) =
    mkShell (fileSystem s) (currentUser s) (currentPath s)
            (mkEnv (currentUser s) (HOME (environment s)) (currentPath s)
                   (PATH (environment s)) (SHELL (environment s)))
            (commandHistory s) (userStack s) (isPiped s).
Proof.
  unfold cmd_su, cmd_exit; cbn [snd userStack].
  destruct (userStack s ++ _)%list eqn:E.
  - destruct (app_cons_not_nil _ _ _ (eq_sym E)).
  - rewrite <- E; cbn [snd].
    rewrite last_last, removelast_last; reflexivity.
Qed.

Lemma execute_su_alice (H : Host) (s : UnixShell) :
  execute H builtins "su alice" s =
    (Normal "__USER_SWITCHED__:alice",
     with_isPiped
       (snd (cmd_su ["alice"]
               (with_isPiped
                  (with_history s (commandHistory s ++ ["su alice"])) false)))
       false).
Proof.
  rewrite (execute_words H builtins "su alice" s None (mkFlags false false)
                         None "su" ["alice"]) by reflexivity.
  unfold dispatch; rewrite expandWildcards_plain by reflexivity.
  reflexivity.
Qed.

Lemma execute_exit (H : Host) (s : UnixShell) :
  let r := cmd_exit (with_isPiped
                       (with_history s (commandHistory s ++ ["exit"])) false) in
  execute H builtins "exit" s = (Normal (fst r), with_isPiped (snd r) false).
Proof.
  rewrite (execute_words H builtins "exit" s None (mkFlags false false)
                         None "exit" []) by reflexivity.
  unfold dispatch; rewrite expandWildcards_plain by reflexivity.
  reflexivity.
Qed.

(** C5.  [exit] right after [su] restores the user, [HOME] and the current
    path that the state had before the [su], for a call of the two
    handlers with any arguments and for the lines [su alice] and [exit]
    given to [execute]; the file system and the stack of users are back
    as well.  [exit] on an empty stack answers its message and changes
    nothing; through [execute] only the history grows. *)
Theorem su_exit_roundtrip :
  (forall (args : list string) (s : UnixShell),
      let s2 := snd (cmd_exit (snd (cmd_su args s))) in
      currentUser s2 = currentUser s /\
      HOME (environment s2) = HOME (environment s) /\
      currentPath s2 = currentPath s /\
      fileSystem s2 = fileSystem s /\
      userStack s2 = userStack s) /\
  (forall (H : Host) (s : UnixShell),
      let s1 := snd (execute H builtins "su alice" s) in
      let s2 := snd (execute H builtins "exit" s1) in
      currentUser s1 = "alice" /\
      currentUser s2 = currentUser s /\
      HOME (environment s2) = HOME (environment s) /\
      currentPath s2 = currentPath s) /\
  (forall s : UnixShell,
      userStack s = [] ->
      cmd_exit s = ("exit: no other user session to return to", s)) /\
  (forall (H : Host) (s : UnixShell),
      userStack s = [] ->
      let r := execute H builtins "exit" s in
      fst r = Normal "exit: no other user session to return to" /\
      currentUser (snd r) = currentUser s /\
      environment (snd r) = environment s /\
      currentPath (snd r) = currentPath s /\
      fileSystem (snd r) = fileSystem s).
Proof.
  split; [|split; [|split]].
  - intros args s; cbv zeta; rewrite exit_after_su; repeat split.
  - intros H s; cbv zeta.
    rewrite execute_su_alice; cbn [snd].
    rewrite execute_exit; cbn [snd].
    split; [reflexivity|].
    unfold cmd_exit, cmd_su;
      cbn [userStack with_isPiped with_history snd fst arg0 nonempty].
    destruct (userStack s ++ _)%list eqn:E.
    + destruct (app_cons_not_nil _ _ _ (eq_sym E)).
    + rewrite <- E; cbn [snd with_isPiped currentUser currentPath environment
                           HOME].
      rewrite last_last; repeat split.
  - intros s Hs; unfold cmd_exit; rewrite Hs; reflexivity.
  - intros H s Hs; cbv zeta; rewrite execute_exit; cbv zeta.
    unfold cmd_exit; cbn [userStack with_isPiped with_history fst snd].
    rewrite Hs; repeat split.
Qed.

Lemma su_exit_roundtrip_witness :
  userStack Sample.fresh = [] /\
  cmd_exit Sample.fresh =
    ("exit: no other user session to return to", Sample.fresh) /\
  currentUser
    (snd (execute Sample.host builtins "exit"
            (snd (execute Sample.host builtins "su alice" Sample.fresh)))) =
    "testuser".
Proof.
  split; [reflexivity|].
  split.
  - apply (proj1 (proj2 (proj2 su_exit_roundtrip))); reflexivity.
  - apply (proj1 (proj2 (proj1 (proj2 su_exit_roundtrip)
                               Sample.host Sample.fresh))).
Defined.

(** ** C7: the grep stage *)


Lemma append_nil_r (a : string) : a ++ "" = a.
Proof. induction a as [|x a IH]; simpl; [reflexivity | rewrite IH; reflexivity]. Qed.










Example grep_readme :
  execute Sample.host builtins "ls | grep -i readme" Sample.fresh =
    (Normal "README.md", with_history Sample.fresh ["ls | grep -i readme"]).
Proof. reflexivity. Qed.

(** ** C6: wildcards *)

Lemma expandLoop_valid (H : Host) (s : UnixShell) (args acc : list string) :
  (forall arg, In arg args -> hasWildcard arg = true ->
               RegExp H (wildcardSource arg) <> None) ->
  expandLoop H s args acc = inl (acc ++ flat_map (expandArg H s) args)%list.
Proof.
  revert acc; induction args as [|arg args IH]; intros acc Hv; simpl.
  - rewrite app_nil_r; reflexivity.
  - assert (Hv' : forall a, In a args -> hasWildcard a = true ->
                            RegExp H (wildcardSource a) <> None)
      by (intros a Ha; apply Hv; right; exact Ha).
    pose proof (Hv arg (or_introl eq_refl)) as Harg.
    unfold expandArg at 1.
    destruct (hasWildcard arg).
    + destruct (getNode s (currentPath s)) as [[c|currentDir]|];
        try (rewrite (IH _ Hv'), <- app_assoc; reflexivity).
      destruct (RegExp H (wildcardSource arg)) as [test|];
        [|destruct (Harg eq_refl eq_refl)].
      destruct (filter test (Obj.keys currentDir));
        rewrite (IH _ Hv'), <- app_assoc; reflexivity.
    + rewrite (IH _ Hv'), <- app_assoc; reflexivity.
Qed.

(** Where the engine accepts every pattern, each argument is replaced in
    place by its expansion. *)
Lemma expandWildcards_valid (H : Host) (s : UnixShell) (args : list string) :
  (forall arg, In arg args -> hasWildcard arg = true ->
               RegExp H (wildcardSource arg) <> None) ->
  expandWildcards H s args = inl (flat_map (expandArg H s) args).
Proof. intros Hv; apply (expandLoop_valid H s args [] Hv). Qed.

(** C6, at the failing input.  The argument of [ls *(] holds a [*]; its
    pattern [^.*($] has a group that is never closed, which [new RegExp]
    rejects with a [SyntaxError].  [expandWildcards] is called outside the
    [try] of [execute], so no entry is matched and the error leaves
    [execute], after the line was pushed on the history. *)
Theorem wildcard_unterminated_group (H : Host) (s : UnixShell)
        (d : Directory) :
  RegExp H "^.*($" = None ->
  getNode s (currentPath s) = Some (Dir d) ->
  hasWildcard "*(" = true /\
  wildcardSource "*(" = "^.*($" /\
  execute H builtins "ls *(" s =
    (Throw (syntaxErrorMessage H "^.*($"),
     with_history s (commandHistory s ++ ["ls *("])).
Proof.
  intros Hr Hd; split; [reflexivity|]; split; [reflexivity|].
  rewrite (execute_words H builtins "ls *(" s None (mkFlags false false)
                         None "ls" ["*("]) by reflexivity.
  unfold dispatch, expandWildcards; cbn [expandLoop].
  change (hasWildcard "*(") with true; cbv iota.
  change (getNode (with_history s (commandHistory s ++ ["ls *("]))
                  (currentPath (with_history s (commandHistory s ++ ["ls *("]))))
    with (getNode s (currentPath s)).
  rewrite Hd.
  change (wildcardSource "*(") with "^.*($".
  rewrite Hr; reflexivity.
Qed.

Lemma wildcard_unterminated_group_witness :
  RegExp Sample.host "^.*($" = None /\
  execute Sample.host builtins "ls *(" Sample.fresh =
    (Throw "Invalid regular expression: /^.*($/",
     with_history Sample.fresh ["ls *("]).
Proof.
  split; [reflexivity|].
  apply (wildcard_unterminated_group
           Sample.host Sample.fresh
           [("README.md",
             File ("# Welcome" ++ LF ++ LF ++
                   "This is a simple Unix shell emulator." ++ LF));
            ("example.txt", File ("This is an example file." ++ LF))]);
    reflexivity.
Defined.

(** The wildcard tests of the repository, on the sample host. *)
Example wildcard_star_txt :
  Sample.output ["touch file1.txt"; "touch file2.txt"; "touch file3.log"]
                "ls file*.txt" =
    Normal ("file1.txt" ++ LF ++ "file2.txt").
Proof. reflexivity. Qed.

Example wildcard_no_match :
  Sample.output [] "ls *.xyz" =
    Normal "ls: cannot access '*.xyz': No such file or directory".
Proof. reflexivity. Qed.

(** ** C4: redirection to a file and [cat] *)

Lemma get_replace_same {A} (o : Obj.t A) (k : string) (v : A) :
  Obj.has o k = true -> Obj.get (Obj.replace o k v) k = Some v.
Proof.
  unfold Obj.has; induction o as [|[k' v'] o IH]; simpl; [discriminate|].
  destruct (k' =? k) eqn:E; simpl.
  - rewrite String.eqb_refl; reflexivity.
  - rewrite E; exact IH.
Qed.

Lemma get_app_absent {A} (o : Obj.t A) (k : string) (v : A) :
  Obj.get o k = None -> Obj.get (o ++ [(k, v)])%list k = Some v.
Proof.
  induction o as [|[k' v'] o IH]; simpl.
  - rewrite String.eqb_refl; reflexivity.
  - destruct (k' =? k); [discriminate | exact IH].
Qed.

Lemma get_insert_index {A} (n : N) (o : Obj.t A) (k : string) (v : A) :
  Obj.get o k = None -> Obj.get (Obj.insert_index n k v o) k = Some v.
Proof.
  induction o as [|[k' v'] o IH]; simpl.
  - rewrite String.eqb_refl; reflexivity.
  - destruct (k' =? k) eqn:E; [discriminate|]; intros Hg.
    destruct (Obj.array_index k') as [n'|].
    + destruct (n' <? n)%N; simpl.
      * rewrite E; exact (IH Hg).
      * rewrite String.eqb_refl; reflexivity.
    + simpl; rewrite String.eqb_refl; reflexivity.
Qed.

(** Reading a property just written gives the value written. *)
Lemma get_set_same {A} (o : Obj.t A) (k : string) (v : A) :
  Obj.get (Obj.set o k v) k = Some v.
Proof.
  unfold Obj.set.
  destruct (Obj.has o k) eqn:E; [apply get_replace_same; exact E|].
  assert (Hg : Obj.get o k = None)
    by (unfold Obj.has in E; destruct (Obj.get o k); [discriminate | reflexivity]).
  destruct (Obj.array_index k).
  - apply get_insert_index; exact Hg.
  - apply get_app_absent; exact Hg.
Qed.

Lemma modify_is_dir (parts : list string) (f : Directory -> Directory)
      (d : Directory) :
  Dir (entriesOf (modify parts f (Dir d))) = modify parts f (Dir d).
Proof.
  destruct parts as [|p parts]; simpl; [reflexivity|].
  destruct (Obj.get d p); reflexivity.
Qed.

(** After the directory at [parts] was modified, the walk to it finds the
    modified directory. *)
Lemma walk_modify (parts : list string) (f : Directory -> Directory)
      (root : Node) (d : Directory) :
  walk root parts = Some (Dir d) ->
  walk (modify parts f root) parts = Some (Dir (f d)).
Proof.
  revert root; induction parts as [|p parts IH]; intros root; simpl.
  - intros [= ->]; reflexivity.
  - destruct root as [c|d0]; [discriminate|].
    destruct (Obj.get d0 p) as [n|] eqn:E; [|discriminate].
    intros Hw; simpl.
    rewrite get_replace_same by (unfold Obj.has; rewrite E; reflexivity).
    apply IH; exact Hw.
Qed.

Lemma walk_snoc (parts : list string) (k : string) (root : Node)
      (d : Directory) :
  walk root parts = Some (Dir d) ->
  walk root (parts ++ [k])%list = Obj.get d k.
Proof.
  revert root; induction parts as [|p parts IH]; intros root; simpl.
  - intros [= ->]; destruct (Obj.get d k); reflexivity.
  - destruct root as [c|d0]; [discriminate|].
    destruct (Obj.get d0 p); [apply IH | discriminate].
Qed.

Lemma cwdIs_walk (s : UnixShell) (d : Directory) :
  cwdIs s d ->
  walk (Dir (fileSystem s)) (segments (currentPath s)) = Some (Dir d).
Proof.
  intros [Ha Hd]; unfold getNode in Hd.
  rewrite resolvePath_absolute in Hd by exact Ha; exact Hd.
Qed.

Lemma not_tilde (p : string) :
  startsWith p "/" = true -> startsWith p "~" = false.
Proof.
  destruct p as [|c p]; [discriminate|]; simpl.
  rewrite !andb_true_r; intros Hc; apply Ascii.eqb_eq in Hc; subst c.
  reflexivity.
Qed.

(** A plain name, resolved in the current directory. *)
Lemma resolvePath_name (s : UnixShell) (name : string) :
  startsWith name "~" = false -> startsWith name "/" = false ->
  segments name = [name] -> name <> ".." -> name <> "." ->
  resolvePath s name =
    "/" ++ join "/" (segments (currentPath s) ++ [name])%list.
Proof.
  intros Ht Hs Hseg Hdd Hd; unfold resolvePath.
  rewrite Ht, Hs, Hseg; cbn [fold_left]; unfold resolveStep.
  destruct (String.eqb_spec name ".."); [contradiction|].
  destruct (String.eqb_spec name "."); [contradiction|].
  reflexivity.
Qed.

Lemma segment_snoc (l : list string) (name : string) :
  Forall segment l -> segment name -> Forall segment (l ++ [name])%list.
Proof.
  intros Hl Hn; apply Forall_app; split; [exact Hl|].
  constructor; [exact Hn | constructor].
Qed.

Section PlainName.

Variable name : string.
Hypothesis name_tilde : startsWith name "~" = false.
Hypothesis name_slash : startsWith name "/" = false.
Hypothesis name_segments : segments name = [name].
Hypothesis name_dotdot : name <> "..".
Hypothesis name_dot : name <> ".".
Hypothesis name_segment : segment name.
Hypothesis name_truthy : nonempty name = true.

Lemma getNode_name (s : UnixShell) (d : Directory) :
  cwdIs s d -> getNode s name = Obj.get d name.
Proof.
  intros Hc; unfold getNode.
  rewrite resolvePath_name by assumption.
  rewrite segments_join
    by (apply segment_snoc; [apply segments_are_segments | assumption]).
  apply walk_snoc, cwdIs_walk; exact Hc.
Qed.

Lemma cat_name (s : UnixShell) (d : Directory) (content : string) :
  cwdIs s d -> Obj.get d name = Some (File content) ->
  cmd_cat [name] s = content.
Proof.
  intros Hc Hg; unfold cmd_cat, arg0; rewrite name_truthy.
  rewrite (getNode_name s d Hc), Hg; reflexivity.
Qed.

(** Writing to a name of the current directory that is not a directory
    there succeeds and sets the entry. *)
Lemma writeToFile_name (s : UnixShell) (d : Directory) (content : string)
      (mode : RedirectMode) :
  cwdIs s d ->
  (forall sub, Obj.get d name <> Some (Dir sub)) ->
  let new := match mode, Obj.get d name with
             | append, Some (File old) => old ++ content
             | _, _ => content
             end in
  exists s',
    writeToFile name content mode s = (None, s') /\
    cwdIs s' (Obj.set d name (File new)) /\
    currentPath s' = currentPath s /\
    commandHistory s' = commandHistory s.
Proof.
  intros Hc Hnd new.
  pose proof (cwdIs_walk s d Hc) as Hw.
  destruct Hc as [Ha Hd].
  set (parts := segments (currentPath s)).
  assert (Hparts : Forall segment parts) by apply segments_are_segments.
  assert (Hparent : parentOf (parts ++ [name])%list = "/" ++ join "/" parts)
    by (unfold parentOf; rewrite removelast_last; reflexivity).
  assert (Hseg : segments (resolvePath s ("/" ++ join "/" parts)) = parts)
    by (rewrite resolvePath_absolute by reflexivity;
        apply segments_join; exact Hparts).
  assert (Hget : getNode s ("/" ++ join "/" parts) = Some (Dir d))
    by (unfold getNode; rewrite Hseg; exact Hw).
  exists (modifyAt s ("/" ++ join "/" parts)
                   (fun d0 => Obj.set d0 name (File new))).
  split; [|split; [|split; reflexivity]].
  - unfold writeToFile.
    rewrite resolvePath_name by assumption.
    rewrite segments_join by (apply segment_snoc; assumption).
    fold parts; rewrite Hparent, Hget; cbn [falsy].
    unfold popName; rewrite last_last.
    subst new; destruct (Obj.get d name) as [[old|sub]|] eqn:E.
    + destruct mode; reflexivity.
    + destruct (Hnd sub eq_refl).
    + destruct mode; reflexivity.
  - split; [exact Ha|].
    unfold getNode, modifyAt; cbn [currentPath fileSystem with_fileSystem].
    rewrite (resolvePath_absolute _ (currentPath s)) by exact Ha.
    rewrite Hseg, modify_is_dir.
    exact (walk_modify parts _ _ d Hw).
Qed.

End PlainName.

Lemma execute_echo_to (H : Host) (s : UnixShell) (line word file : string)
      (mode : RedirectMode) :
  blank line = false ->
  grepPattern (parsePipe line) = None ->
  redirectOf line = Some (mode, file) ->
  nonempty file = true ->
  wordsOf line = ["echo"; word] ->
  hasWildcard word = false ->
  let s0 := with_isPiped (with_history s (commandHistory s ++ [line])) false in
  execute H builtins line s =
    match writeToFile file (cmd_echo [word]) mode s0 with
    | (Some writeResult, s2) => (Normal writeResult, s2)
    | (None, s2) => (Normal "", s2)
    end.
Proof.
  intros Hb Hp Hr Hf Hw Hx s0.
  rewrite (execute_words H builtins line s None
                         (grepFlags (parsePipe line)) (Some (mode, file))
                         "echo" [word]) by (assumption || reflexivity).
  unfold dispatch.
  rewrite expandWildcards_plain by (simpl; rewrite Hx; reflexivity).
  cbn [Obj.get builtins]; simpl (Obj.get builtins "echo").
  cbn [call call_with method isSome fst snd with_isPiped].
  rewrite Hf; reflexivity.
Qed.

Lemma execute_cat_name (H : Host) (s : UnixShell) (name : string) :
  let s0 := with_isPiped
              (with_history s (commandHistory s ++ [("cat " ++ name)%string])%list)
              false in
  nonempty name = true ->
  blank ("cat " ++ name) = false ->
  grepPattern (parsePipe ("cat " ++ name)) = None ->
  redirectOf ("cat " ++ name) = None ->
  wordsOf ("cat " ++ name) = ["cat"; name] ->
  hasWildcard name = false ->
  execute H builtins ("cat " ++ name) s = (Normal (cmd_cat [name] s0), s0).
Proof.
  intros s0 Hn Hb Hp Hr Hw Hx.
  rewrite (execute_words H builtins ("cat " ++ name) s None
                         (grepFlags (parsePipe ("cat " ++ name))) None
                         "cat" [name]) by (assumption || reflexivity).
  unfold dispatch.
  rewrite expandWildcards_plain by (simpl; rewrite Hx; reflexivity).
  reflexivity.
Qed.

Lemma cwdIs_logged (s : UnixShell) (d : Directory) (h : list string)
      (b : bool) :
  cwdIs s d -> cwdIs (with_isPiped (with_history s h) b) d.
Proof. intros Hc; exact Hc. Qed.

Section RoundTrip.

Variable H : Host.

Let f : string := "f.txt".

Lemma write_f (s : UnixShell) (d : Directory) (line word : string)
      (mode : RedirectMode) :
  cwdIs s d ->
  (forall sub, Obj.get d f <> Some (Dir sub)) ->
  blank line = false ->
  grepPattern (parsePipe line) = None ->
  redirectOf line = Some (mode, f) ->
  wordsOf line = ["echo"; word] ->
  hasWildcard word = false ->
  let new := match mode, Obj.get d f with
             | append, Some (File old) => old ++ cmd_echo [word]
             | _, _ => cmd_echo [word]
             end in
  exists s',
    execute H builtins line s = (Normal "", s') /\
    cwdIs s' (Obj.set d f (File new)).
Proof.
  intros Hc Hnd Hb Hp Hr Hw Hx new.
  rewrite (execute_echo_to H s line word f mode) by (assumption || reflexivity).
  destruct (writeToFile_name f eq_refl eq_refl eq_refl
              ltac:(discriminate) ltac:(discriminate)
              (conj eq_refl eq_refl)
              (with_isPiped (with_history s (commandHistory s ++ [line])) false)
              d (cmd_echo [word]) mode
              (cwdIs_logged s d _ false Hc) Hnd)
    as (s' & Hwr & Hc' & _).
  exists s'; rewrite Hwr; split; [reflexivity | exact Hc'].
Qed.

Lemma cat_f (s : UnixShell) (d : Directory) (content : string) :
  cwdIs s d -> Obj.get d f = Some (File content) ->
  exists s',
    execute H builtins "cat f.txt" s = (Normal content, s') /\ cwdIs s' d.
Proof.
  intros Hc Hg.
  change "cat f.txt" with ("cat " ++ f).
  rewrite execute_cat_name by reflexivity.
  eexists; split; [|apply cwdIs_logged; exact Hc].
  rewrite (cat_name f eq_refl eq_refl eq_refl
             ltac:(discriminate) ltac:(discriminate)
             (conj eq_refl eq_refl) eq_refl _ d content
             (cwdIs_logged s d _ false Hc) Hg).
  reflexivity.
Qed.

End RoundTrip.

(** C4.  In a state whose current directory (at an absolute current
    path) is a directory with no entry [f.txt] (writable or not: the
    redirection asks no permission), writing [A] with [>] and reading
    with [cat] gives exactly [A]; writing [B] with [>] then gives exactly
    [B]; and appending [C] with [>>] gives [BC].  In general appending
    through [writeToFile] leaves the old content followed directly by the
    new content. *)
Theorem redirect_roundtrip (H : Host) (s : UnixShell) (d : Directory) :
  cwdIs s d ->
  Obj.get d "f.txt" = None ->
  let s1 := snd (execute H builtins ("echo " ++ quoted "A" ++ " > f.txt") s) in
  let r2 := execute H builtins "cat f.txt" s1 in
  let s3 := snd (execute H builtins ("echo " ++ quoted "B" ++ " > f.txt")
                         (snd r2)) in
  let r4 := execute H builtins "cat f.txt" s3 in
  let s5 := snd (execute H builtins ("echo " ++ quoted "C" ++ " >> f.txt")
                         (snd r4)) in
  let r6 := execute H builtins "cat f.txt" s5 in
  fst r2 = Normal "A" /\
  fst r4 = Normal "B" /\
  fst r6 = Normal "BC" /\
  (forall (t : UnixShell) (e : Directory) (old content : string),
      cwdIs t e -> Obj.get e "f.txt" = Some (File old) ->
      exists t',
        writeToFile "f.txt" content append t = (None, t') /\
        getNode t' "f.txt" = Some (File (old ++ content))).
Proof.
  intros Hc Hg.
  destruct (write_f H s d ("echo " ++ quoted "A" ++ " > f.txt")
                    (quoted "A") overwrite Hc)
    as (s1 & E1 & C1); try reflexivity.
  { intros sub; rewrite Hg; discriminate. }
  destruct (cat_f H s1 _ "A" C1 (get_set_same _ _ _)) as (s2 & E2 & C2).
  destruct (write_f H s2 _ ("echo " ++ quoted "B" ++ " > f.txt")
                    (quoted "B") overwrite C2)
    as (s3 & E3 & C3); try reflexivity.
  { intros sub; rewrite get_set_same; discriminate. }
  destruct (cat_f H s3 _ "B" C3 (get_set_same _ _ _)) as (s4 & E4 & C4).
  destruct (write_f H s4 _ ("echo " ++ quoted "C" ++ " >> f.txt")
                    (quoted "C") append C4)
    as (s5 & E5 & C5); try reflexivity.
  { intros sub; rewrite get_set_same; discriminate. }
  rewrite get_set_same in C5.
  destruct (cat_f H s5 _ "BC" C5 (get_set_same _ _ _)) as (s6 & E6 & C6).
  cbv zeta.
  rewrite E1; cbn [snd]; rewrite E2; cbn [fst snd].
  rewrite E3; cbn [snd]; rewrite E4; cbn [fst snd].
  rewrite E5; cbn [snd]; rewrite E6; cbn [fst].
  repeat split.
  intros t e old content Ht He.
  destruct (writeToFile_name "f.txt" eq_refl eq_refl eq_refl
              ltac:(discriminate) ltac:(discriminate)
              (conj eq_refl eq_refl) t e content append Ht)
    as (t' & Hw & Ct & _).
  { intros sub; rewrite He; discriminate. }
  exists t'; split; [exact Hw|].
  rewrite He in Ct.
  rewrite (getNode_name "f.txt" eq_refl eq_refl eq_refl
             ltac:(discriminate) ltac:(discriminate)
             (conj eq_refl eq_refl) t' _ Ct).
  apply get_set_same.
Qed.

Lemma redirect_roundtrip_witness :
  cwdIs Sample.fresh
        [("README.md",
          File ("# Welcome" ++ LF ++ LF ++
                "This is a simple Unix shell emulator." ++ LF));
         ("example.txt", File ("This is an example file." ++ LF))] /\
  Sample.output [("echo " ++ quoted "A" ++ " > f.txt")%string] "cat f.txt" =
    Normal "A".
Proof.
  split; [split; reflexivity|].
  apply (redirect_roundtrip Sample.host Sample.fresh _
                            (conj eq_refl eq_refl) eq_refl).
Defined.

(** ** The editor *)

Import Vi.

(** *** C9: delete motions *)

Lemma count_nil (l : list string) : count l = 0%Z -> l = [].
Proof. destruct l; [reflexivity | unfold count; simpl; lia]. Qed.

Lemma update_length (l : list string) (n : nat) (v : string) :
  length (update l n v) = length l.
Proof.
  revert n; induction l as [|x l IH]; intros n; [reflexivity|].
  destruct n; simpl; [reflexivity | rewrite IH; reflexivity].
Qed.

Lemma finishDelete_lines (c : string) (n : nat) (e : ViEditor) :
  lines (finishDelete c n e) = lines e /\
  cursorRow (finishDelete c n e) = cursorRow e /\
  cursorCol (finishDelete c n e) = cursorCol e /\
  mode (finishDelete c n e) = mode e /\
  closed (finishDelete c n e) = closed e.
Proof. unfold finishDelete; destruct (nonempty c); repeat split. Qed.

Lemma keepOneLine_lines (e : ViEditor) : lines (keepOneLine e) <> [].
Proof.
  unfold keepOneLine; destruct (lines e) eqn:E; simpl; congruence.
Qed.

Lemma clampRow_lines (e : ViEditor) : lines (clampRow e) = lines e.
Proof. unfold clampRow; destruct (_ <=? _)%Z; reflexivity. Qed.

Lemma with_line_lines (e : ViEditor) (v : string) :
  lines e <> [] -> lines (with_line e v) <> [].
Proof.
  intros Hl Hn; apply Hl.
  apply length_zero_iff_nil.
  rewrite <- (update_length (lines e) (Z.to_nat (cursorRow e)) v).
  change (lines (with_line e v))
    with (update (lines e) (Z.to_nat (cursorRow e)) v) in Hn.
  rewrite Hn; reflexivity.
Qed.

(** A delete motion never leaves the buffer without a line. *)
Lemma handleDeleteMotion_lines (k : string) (e : ViEditor) :
  lines e <> [] -> lines (handleDeleteMotion k e) <> [].
Proof.
  intros Hl; unfold handleDeleteMotion.
  repeat match goal with
         | |- context [if ?b then _ else _] =>
             match type of b with bool => destruct b end
         | |- context [match wordMatch ?x with _ => _ end] =>
             destruct (wordMatch x)
         end;
    rewrite ?(proj1 (finishDelete_lines _ _ _));
    cbn [lines with_col with_row with_normalModeBuffer];
    rewrite ?clampRow_lines;
    try apply keepOneLine_lines;
    try (apply with_line_lines; exact Hl);
    try exact Hl.
  destruct (lines (with_lines _ _)) eqn:E; cbn [lines with_row with_lines];
    [discriminate|].
  cbn [lines with_lines] in E; rewrite E; discriminate.
Qed.

(** C9 as stated fails: [d], [d] on a buffer whose only line is empty
    leaves the modified flag unset. *)
Lemma dd_empty_line_unmodified :
  let e := construct "f.txt" "" in
  lines e = [""] /\
  modified (handleKey (plain "d") (handleKey (plain "d") e)) = false.
Proof. split; reflexivity. Qed.

Lemma handleKey_pending (ev : KeyboardEvent) (e : ViEditor) :
  mode e = normal -> normalModeBuffer e = "d" ->
  handleKey ev e = handleDeleteMotion (key ev) (with_message e "").
Proof.
  intros Hm Hb; unfold handleKey; cbn [mode with_message]; rewrite Hm.
  unfold handleNormalMode; cbn [normalModeBuffer with_message].
  rewrite Hb; reflexivity.
Qed.

Lemma handleKey_d (e : ViEditor) :
  mode e = normal -> normalModeBuffer e <> "d" ->
  handleKey (plain "d") e =
    with_normalModeBuffer (with_normalModeBuffer (with_message e "") "") "d".
Proof.
  intros Hm Hb; unfold handleKey; cbn [mode with_message]; rewrite Hm.
  unfold handleNormalMode; cbn [normalModeBuffer with_message].
  destruct (String.eqb_spec (normalModeBuffer e) "d"); [contradiction|].
  reflexivity.
Qed.

Lemma delete_only_line (e : ViEditor) (l : string) :
  lines e = [l] -> cursorRow e = 0%Z ->
  let e' := handleDeleteMotion "d" e in
  lines e' = [""] /\ cursorRow e' = 0%Z /\ cursorCol e' = 0%Z /\
  (l <> "" -> yankBuffer e' = l /\ modified e' = true).
Proof.
  intros Hl Hrow; cbv zeta; unfold handleDeleteMotion.
  cbn [String.eqb Ascii.eqb Bool.eqb].
  unfold line; rewrite Hl, Hrow.
  change (lineAt [l] 0) with l.
  change (spliceOut [l] 0 1) with (@nil string).
  unfold keepOneLine; cbn [lines with_lines].
  unfold clampRow; cbn [lines cursorRow with_lines]; rewrite Hrow.
  change (count [""] <=? 0)%Z with false; cbv iota.
  destruct (finishDelete_lines l 1
              (with_col (with_lines (with_lines e []) [""]) 0))
    as (E1 & E2 & E3 & _).
  rewrite E1, E2, E3; cbn [lines cursorRow cursorCol with_col with_lines].
  repeat split; [exact Hrow| |];
    unfold finishDelete; destruct l as [|c l]; try congruence; reflexivity.
Qed.

(** C9, amended.  A delete motion leaves at least one line in the
    buffer.  [d] then [d] in normal mode on a buffer of exactly one line
    leaves the buffer [[""]] with the cursor at row 0, column 0; when
    that line was not empty it is in the yank buffer and the modified
    flag is set. *)
Theorem dd_keeps_one_line (e : ViEditor) (ev : KeyboardEvent) (l : string) :
  mode e = normal ->
  rowInRange e ->
  (normalModeBuffer e = "d" -> lines (handleKey ev e) <> []) /\
  (normalModeBuffer e <> "d" -> lines e = [l] ->
   let e' := handleKey (plain "d") (handleKey (plain "d") e) in
   lines e' = [""] /\ cursorRow e' = 0%Z /\ cursorCol e' = 0%Z /\
   (l <> "" -> yankBuffer e' = l /\ modified e' = true)).
Proof.
  intros Hm Hr; split.
  - intros Hb; rewrite handleKey_pending by assumption.
    apply handleDeleteMotion_lines; cbn [lines with_message].
    intros Hn; unfold rowInRange in Hr; rewrite Hn in Hr.
    unfold count in Hr; simpl in Hr; lia.
  - intros Hb Hl.
    assert (Hrow : cursorRow e = 0%Z)
      by (unfold rowInRange in Hr; rewrite Hl in Hr; unfold count in Hr;
          simpl in Hr; lia).
    rewrite (handleKey_d e Hm Hb).
    rewrite handleKey_pending by (try reflexivity; exact Hm).
    apply delete_only_line; [exact Hl | exact Hrow].
Qed.

Lemma dd_keeps_one_line_witness :
  let e := construct "f.txt" "only line" in
  mode e = normal /\ rowInRange e /\ lines e = ["only line"] /\
  let e' := handleKey (plain "d") (handleKey (plain "d") e) in
  lines e' = [""] /\ cursorRow e' = 0%Z /\ cursorCol e' = 0%Z /\
  yankBuffer e' = "only line" /\ modified e' = true.
Proof.
  split; [reflexivity|].
  split; [unfold rowInRange, count; simpl; lia|].
  split; [reflexivity|].
  pose proof (proj2 (dd_keeps_one_line (construct "f.txt" "only line")
                                       (plain "d") "only line" eq_refl
                                       ltac:(unfold rowInRange, count;
                                             simpl; lia))
                    ltac:(discriminate) eq_refl) as Hd.
  cbv zeta in Hd |- *.
  destruct Hd as (H1 & H2 & H3 & H4).
  destruct (H4 ltac:(discriminate)) as [H5 H6].
  repeat split; assumption.
Defined.

(** *** C8: the cursor *)

Lemma len_nonneg (s : string) : (0 <= len s)%Z.
Proof. unfold len; lia. Qed.

Lemma length_append (a b : string) :
  String.length (a ++ b) = (String.length a + String.length b)%nat.
Proof. induction a as [|c a IH]; simpl; [reflexivity | rewrite IH; reflexivity]. Qed.

Lemma len_append (a b : string) : len (a ++ b) = (len a + len b)%Z.
Proof. unfold len; rewrite length_append; lia. Qed.

Lemma length_take (n : nat) (s : string) :
  String.length (take n s) = Nat.min n (String.length s).
Proof.
  revert s; induction n as [|n IH]; intros [|c s]; simpl; try reflexivity.
  rewrite IH; reflexivity.
Qed.

Lemma length_drop (n : nat) (s : string) :
  String.length (drop n s) = (String.length s - n)%nat.
Proof.
  revert s; induction n as [|n IH]; intros [|c s]; simpl; try reflexivity.
  apply IH.
Qed.

Lemma clamp_inside (n i : Z) :
  (0 <= i <= n)%Z -> clamp n i = Z.to_nat i.
Proof.
  intros Hi; unfold clamp.
  destruct (Z.ltb_spec i 0); [lia|]; f_equal; lia.
Qed.

Lemma len_slice0 (s : string) (c : Z) :
  (0 <= c <= len s)%Z -> len (slice s 0 c) = c.
Proof.
  intros Hc; unfold slice.
  rewrite (clamp_inside (len s) 0) by (pose proof (len_nonneg s); lia).
  rewrite (clamp_inside (len s) c) by exact Hc.
  unfold len in *; simpl; rewrite Nat.sub_0_r, length_take; lia.
Qed.

Lemma len_sliceFrom (s : string) (c : Z) :
  (0 <= c <= len s)%Z -> len (sliceFrom s c) = (len s - c)%Z.
Proof.
  intros Hc; unfold sliceFrom.
  rewrite clamp_inside by exact Hc.
  unfold len in *; rewrite length_drop; lia.
Qed.

Lemma count_setLine (l : list string) (r : Z) (v : string) :
  count (setLine l r v) = count l.
Proof. unfold count, setLine; rewrite update_length; reflexivity. Qed.

Lemma count_spliceIn (l : list string) (i : Z) (v : string) :
  count (spliceIn l i v) = (count l + 1)%Z.
Proof.
  unfold count, spliceIn.
  rewrite length_app; simpl; rewrite <- Nat.add_succ_comm; simpl.
  rewrite <- length_app, firstn_skipn; lia.
Qed.

Lemma count_spliceOut (l : list string) (i : Z) (n : nat) :
  (0 <= i)%Z -> (i + Z.of_nat n <= count l)%Z ->
  count (spliceOut l i n) = (count l - Z.of_nat n)%Z.
Proof.
  intros Hi Hn; unfold spliceOut.
  rewrite clamp_inside by lia.
  unfold count in *; rewrite length_app, length_firstn, length_skipn; lia.
Qed.

Lemma nth_update_same (l : list string) (n : nat) (v : string) :
  (n < length l)%nat -> nth n (update l n v) "" = v.
Proof.
  revert n; induction l as [|x l IH]; intros n Hn; simpl in Hn; [lia|].
  destruct n; simpl; [reflexivity | apply IH; lia].
Qed.

Lemma lineAt_setLine (l : list string) (r : Z) (v : string) :
  (0 <= r < count l)%Z -> lineAt (setLine l r v) r = v.
Proof.
  intros Hr; unfold lineAt, setLine.
  apply nth_update_same; unfold count in Hr; lia.
Qed.

Lemma lineAt_spliceOut_before (l : list string) (r i : Z) (n : nat) :
  (0 <= r < i)%Z -> (i <= count l)%Z ->
  lineAt (spliceOut l i n) r = lineAt l r.
Proof.
  intros Hr Hi; unfold lineAt, spliceOut.
  rewrite clamp_inside by lia.
  unfold count in Hi.
  rewrite app_nth1 by (rewrite length_firstn; lia).
  rewrite nth_firstn.
  destruct (Nat.ltb_spec (Z.to_nat r) (Z.to_nat i)); [reflexivity | lia].
Qed.

(** The bounds of the specification as two facts about a state. *)
Ltac bounds :=
  unfold rowInRange, colInRange, line, with_line in *;
  cbn [lines cursorRow cursorCol with_lines with_row with_col with_mode
       with_commandBuffer with_normalModeBuffer with_yankBuffer
       with_message with_modified save close] in *.

Ltac split_ifs :=
  repeat match goal with
         | |- context [if ?b then _ else _] =>
             match type of b with
             | bool =>
                 match b with
                 | (?x <? ?y)%Z => destruct (Z.ltb_spec0 x y)
                 | (?x <=? ?y)%Z => destruct (Z.leb_spec0 x y)
                 | _ => destruct b eqn:?
                 end
             end
         end.

Lemma finishDelete_bounds (c : string) (n : nat) (e : ViEditor) :
  (rowInRange e -> rowInRange (finishDelete c n e)) /\
  (colInRange e -> colInRange (finishDelete c n e)).
Proof. unfold finishDelete; destruct (nonempty c); split; bounds; auto. Qed.

(** Rows deleted from a buffer, the buffer kept to one line at least and
    the row clamped: the cursor is on a row, in column 0. *)
Lemma deleted_rows_bounds (e : ViEditor) (l : list string) (r : Z) :
  (0 <= r)%Z ->
  let e' := with_col (clampRow (keepOneLine (with_row (with_lines e l) r))) 0 in
  rowInRange e' /\ colInRange e'.
Proof.
  intros Hr; cbv zeta; unfold keepOneLine, clampRow.
  destruct l as [|x l]; bounds; split_ifs; bounds;
    unfold count in *; cbn [length] in *;
    repeat split; try lia; try apply len_nonneg.
Qed.

Ltac know_lengths :=
  repeat match goal with
         | |- context [len ?s] =>
             lazymatch goal with
             | _ : (0 <= len s)%Z |- _ => fail
             | _ => pose proof (len_nonneg s)
             end
         end.

Ltac solve_bounds :=
  bounds;
  repeat (rewrite count_setLine || rewrite count_spliceIn);
  rewrite ?lineAt_setLine by lia;
  rewrite ?len_append;
  rewrite ?len_slice0 by lia;
  know_lengths;
  try lia.

Ltac finish_delete :=
  split; [apply (proj1 (finishDelete_bounds _ _ _))
         |apply (proj2 (finishDelete_bounds _ _ _))].

Lemma handleDeleteMotion_bounds (k : string) (e : ViEditor) :
  rowInRange e -> colInRange e ->
  rowInRange (handleDeleteMotion k e) /\ colInRange (handleDeleteMotion k e).
Proof.
  intros Hr Hc; unfold handleDeleteMotion.
  assert (Hrow : (0 <= cursorRow e)%Z) by (unfold rowInRange in Hr; lia).
  destruct (k =? "d")%string.
  { finish_delete;
      apply (deleted_rows_bounds e (spliceOut (lines e) (cursorRow e) 1)
                                 (cursorRow e) Hrow). }
  destruct (is_key k "j" "ArrowDown").
  { destruct (Z.ltb_spec0 (cursorRow e) (count (lines e) - 1)); finish_delete;
      first [apply (deleted_rows_bounds
                      e (spliceOut (lines e) (cursorRow e) 2)
                      (cursorRow e) Hrow)
            |apply (deleted_rows_bounds
                      e (spliceOut (lines e) (cursorRow e) 1)
                      (cursorRow e) Hrow)]. }
  destruct (is_key k "k" "ArrowUp").
  { destruct (Z.ltb_spec0 0 (cursorRow e)) as [Hpos|Hzero].
    - remember (spliceOut (lines e) (cursorRow e - 1) 2) as l eqn:Dl.
      assert (Hl : count l = (count (lines e) - 2)%Z).
      { rewrite Dl, count_spliceOut; unfold rowInRange in Hr; lia. }
      finish_delete; cbn [lines with_lines with_row];
        clear Dl; destruct l as [|x l']; unfold clampRow; bounds;
        split_ifs; bounds; unfold count in *; cbn [length] in *;
        repeat split; try lia; try apply len_nonneg.
    - assert (H0 : cursorRow e = 0%Z) by lia.
      remember (spliceOut (lines e) (cursorRow e) 1) as l eqn:Dl.
      assert (Hl : count l = (count (lines e) - 1)%Z).
      { rewrite Dl, count_spliceOut; unfold rowInRange in Hr; lia. }
      finish_delete; unfold keepOneLine; cbn [lines with_lines];
        clear Dl; destruct l as [|x l']; bounds;
        unfold count in *; cbn [length] in *;
        repeat split; try lia; try apply len_nonneg. }
  destruct (k =? "$")%string; [finish_delete; solve_bounds|].
  destruct (k =? "0")%string; [finish_delete; solve_bounds|].
  destruct (k =? "w")%string.
  { destruct (wordMatch _); finish_delete; solve_bounds. }
  destruct (is_key k "l" "ArrowRight").
  { destruct (Z.ltb_spec0 (cursorCol e) (len (line e)));
      finish_delete; solve_bounds. }
  destruct (is_key k "h" "ArrowLeft").
  { destruct (Z.ltb_spec0 0 (cursorCol e)); finish_delete; solve_bounds. }
  split; solve_bounds.
Qed.

Lemma handleNormalMode_row (ev : KeyboardEvent) (e : ViEditor) :
  rowInRange e -> rowInRange (handleNormalMode ev e).
Proof.
  intros Hr; unfold handleNormalMode.
  destruct (normalModeBuffer e =? "d")%string.
  { assert (Hc : colInRange (with_col e 0))
      by (unfold colInRange; cbn [cursorCol with_col];
          pose proof (len_nonneg (line (with_col e 0))); lia).
    (* the row after a delete motion does not depend on the column *)
    unfold handleDeleteMotion.
    assert (Hrow : (0 <= cursorRow e)%Z) by (unfold rowInRange in Hr; lia).
    repeat match goal with
           | |- context [if ?b then _ else _] =>
               match b with
               | (_ =? _)%string => destruct b
               | is_key _ _ _ => destruct b
               end
           end.
    - apply finishDelete_bounds;
        apply (deleted_rows_bounds e (spliceOut (lines e) (cursorRow e) 1)
                                   (cursorRow e) Hrow).
    - destruct (Z.ltb_spec0 (cursorRow e) (count (lines e) - 1));
        apply finishDelete_bounds;
        first [apply (deleted_rows_bounds
                        e (spliceOut (lines e) (cursorRow e) 2)
                        (cursorRow e) Hrow)
              |apply (deleted_rows_bounds
                        e (spliceOut (lines e) (cursorRow e) 1)
                        (cursorRow e) Hrow)].
    - destruct (Z.ltb_spec0 0 (cursorRow e)) as [Hpos|Hzero].
      + remember (spliceOut (lines e) (cursorRow e - 1) 2) as l eqn:Dl.
        assert (Hl : count l = (count (lines e) - 2)%Z).
        { rewrite Dl, count_spliceOut; unfold rowInRange in Hr; lia. }
        apply finishDelete_bounds; cbn [lines with_lines with_row];
          clear Dl; destruct l as [|x l']; unfold clampRow; bounds;
          split_ifs; bounds; unfold count in *; cbn [length] in *; lia.
      + remember (spliceOut (lines e) (cursorRow e) 1) as l eqn:Dl.
        assert (Hl : count l = (count (lines e) - 1)%Z).
        { rewrite Dl, count_spliceOut; unfold rowInRange in Hr; lia. }
        apply finishDelete_bounds; unfold keepOneLine; cbn [lines with_lines];
          clear Dl; destruct l as [|x l']; bounds;
          unfold count in *; cbn [length] in *; lia.
    - apply finishDelete_bounds; solve_bounds.
    - apply finishDelete_bounds; solve_bounds.
    - destruct (wordMatch _); apply finishDelete_bounds; solve_bounds.
    - destruct (_ <? _)%Z; apply finishDelete_bounds; solve_bounds.
    - destruct (_ <? _)%Z; apply finishDelete_bounds; solve_bounds.
    - solve_bounds. }
  repeat match goal with
         | |- context [if ?b then _ else _] =>
             match type of b with bool => destruct b end
         end; solve_bounds.
Qed.

Lemma handleNormalMode_col (ev : KeyboardEvent) (e : ViEditor) :
  rowInRange e -> colInRange e ->
  normalModeBuffer e = "d" \/ pasteOrLastLine ev = false ->
  colInRange (handleNormalMode ev e).
Proof.
  intros Hr Hc Hx; unfold handleNormalMode.
  destruct (String.eqb_spec (normalModeBuffer e) "d") as [Hd|Hd].
  { apply handleDeleteMotion_bounds; assumption. }
  destruct Hx as [Hx|Hx]; [contradiction|].
  unfold pasteOrLastLine in Hx; apply orb_false_iff in Hx.
  destruct Hx as [Hp Hg].
  repeat match goal with
         | |- context [if ?b then _ else _] =>
             match type of b with
             | bool =>
                 match b with
                 | (?x <? ?y)%Z => destruct (Z.ltb_spec0 x y)
                 | _ => destruct b eqn:?
                 end
             end
         end; try congruence; solve_bounds.
Qed.

Lemma printable_length (ev : KeyboardEvent) :
  printable ev = true -> len (key ev) = 1%Z.
Proof.
  unfold printable, len; intros Hp.
  apply andb_true_iff in Hp; destruct Hp as [Hp _].
  apply andb_true_iff in Hp; destruct Hp as [Hp _].
  apply Nat.eqb_eq in Hp; rewrite Hp; reflexivity.
Qed.

Lemma handleInsertMode_bounds (ev : KeyboardEvent) (e : ViEditor) :
  rowInRange e -> colInRange e ->
  rowInRange (handleInsertMode ev e) /\ colInRange (handleInsertMode ev e).
Proof.
  intros Hr Hc; unfold handleInsertMode.
  destruct (key ev =? "Escape")%string; [split; solve_bounds|].
  destruct (key ev =? "Enter")%string; [split; solve_bounds|].
  destruct (key ev =? "Backspace")%string.
  { destruct (Z.ltb_spec0 0 (cursorCol e)); [split; solve_bounds|].
    destruct (Z.ltb_spec0 0 (cursorRow e)); [|split; solve_bounds].
    bounds.
    rewrite count_spliceOut by (rewrite ?count_setLine; lia).
    rewrite lineAt_spliceOut_before by (rewrite ?count_setLine; lia).
    rewrite count_setLine, lineAt_setLine by lia.
    rewrite len_append; know_lengths; lia. }
  destruct (printable ev) eqn:Hp; [|split; solve_bounds].
  pose proof (printable_length ev Hp).
  split; solve_bounds.
Qed.

Lemma handleCommandMode_bounds (ev : KeyboardEvent) (e : ViEditor) :
  rowInRange e -> colInRange e ->
  rowInRange (handleCommandMode ev e) /\ colInRange (handleCommandMode ev e).
Proof.
  intros Hr Hc; unfold handleCommandMode, executeCommand.
  repeat match goal with
         | |- context [if ?b then _ else _] =>
             match type of b with bool => destruct b end
         end; split; solve_bounds; assumption.
Qed.

Lemma split_not_nil (c : ascii) (s : string) : split c s <> [].
Proof.
  destruct s as [|a s]; simpl; [discriminate|].
  destruct (Ascii.eqb a c); [discriminate|].
  destruct (split c s); discriminate.
Qed.

Lemma construct_bounds (f content : string) :
  rowInRange (construct f content) /\ colInRange (construct f content).
Proof.
  unfold construct; split; bounds.
  - destruct (nonempty content); [|unfold count; simpl; lia].
    pose proof (split_not_nil "010" content) as Hn.
    destruct (split "010" content); [congruence|].
    unfold count; simpl; lia.
  - know_lengths; lia.
Qed.

(** Every key leaves the cursor on a row of the buffer. *)
Lemma handleKey_row (ev : KeyboardEvent) (e : ViEditor) :
  rowInRange e -> rowInRange (handleKey ev e).
Proof.
  intros Hr; unfold handleKey; cbn [mode with_message].
  assert (Hr' : rowInRange (with_message e "")) by exact Hr.
  assert (Hz : colInRange (with_col (with_message e "") 0))
    by (unfold colInRange; cbn [cursorCol with_col]; know_lengths; lia).
  destruct (mode e).
  - apply handleNormalMode_row; exact Hr'.
  - unfold handleInsertMode.
    repeat match goal with
           | |- context [if ?b then _ else _] =>
               match type of b with
               | bool =>
                   match b with
                   | (?x <? ?y)%Z => destruct (Z.ltb_spec0 x y)
                   | _ => destruct b eqn:?
                   end
               end
           end; try solve [solve_bounds].
    bounds; rewrite count_spliceOut by (rewrite ?count_setLine; lia).
    rewrite count_setLine; lia.
  - unfold handleCommandMode, executeCommand.
    repeat match goal with
           | |- context [if ?b then _ else _] =>
               match type of b with bool => destruct b end
           end; solve_bounds; assumption.
Qed.

(** The row of the cursor is inside the buffer in every state the editor
    reaches. *)
Lemma row_in_range (e : ViEditor) : Reachable e -> rowInRange e.
Proof.
  induction 1 as [f content|ev e _ IH _].
  - apply construct_bounds.
  - apply handleKey_row; exact IH.
Qed.

(** Every key but [p] and [Shift+g] in normal mode with no delete pending
    keeps a column that is in range in range. *)
Lemma handleKey_col (ev : KeyboardEvent) (e : ViEditor) :
  rowInRange e -> colInRange e ->
  (mode e = normal -> normalModeBuffer e <> "d" ->
   pasteOrLastLine ev = false) ->
  colInRange (handleKey ev e).
Proof.
  intros Hr Hc Hx; unfold handleKey; cbn [mode with_message].
  assert (Hr' : rowInRange (with_message e "")) by exact Hr.
  assert (Hc' : colInRange (with_message e "")) by exact Hc.
  destruct (mode e) eqn:Hm.
  - apply handleNormalMode_col; try assumption.
    cbn [normalModeBuffer with_message].
    destruct (String.eqb_spec (normalModeBuffer e) "d"); [left; assumption|].
    right; apply Hx; [reflexivity | assumption].
  - apply handleInsertMode_bounds; assumption.
  - apply handleCommandMode_bounds; assumption.
Qed.

(** C8, at the failing inputs.  On the buffer [ab], [hello] the plain
    keys [d], [d], [$], [p] leave the cursor at row 1, column 5, on the
    pasted line [ab] of length 2; on the buffer [hello], [] the keys [$]
    and [Shift+g] leave it at row 1, column 5, on an empty line.  Both
    states are reachable.  ([j] and [k] clamp the column to the line they
    move to; [p] and [Shift+g] move the row and leave the column.) *)
Theorem cursor_column_past_line :
  let dd_p :=
    handleKey (plain "p")
      (handleKey (plain "$")
         (handleKey (plain "d")
            (handleKey (plain "d")
               (construct "f.txt" ("ab" ++ Shell.LF ++ "hello"))))) in
  let shift_g :=
    handleKey (mkKey "g" true false false)
      (handleKey (plain "$") (construct "f.txt" ("hello" ++ Shell.LF))) in
  (Reachable dd_p /\ lines dd_p = ["hello"; "ab"] /\
   cursorRow dd_p = 1%Z /\ cursorCol dd_p = 5%Z /\ len (line dd_p) = 2%Z /\
   ~ colInRange dd_p) /\
  (Reachable shift_g /\ lines shift_g = ["hello"; ""] /\
   cursorRow shift_g = 1%Z /\ cursorCol shift_g = 5%Z /\
   len (line shift_g) = 0%Z /\ ~ colInRange shift_g).
Proof.
  cbv zeta; split.
  - split; [repeat (apply reach_key; [|reflexivity]); apply reach_construct|].
    repeat split; try reflexivity.
    intros [_ Hc]; vm_compute in Hc; apply Hc; reflexivity.
  - split; [repeat (apply reach_key; [|reflexivity]); apply reach_construct|].
    repeat split; try reflexivity.
    intros [_ Hc]; vm_compute in Hc; apply Hc; reflexivity.
Qed.

(** * Further properties of the shell *)

(** ** Paths *)

Lemma resolvePath_resolved (s : UnixShell) (p : string) :
  startsWith (resolvePath s p) "/" = true /\
  resolvePath s (resolvePath s p) = resolvePath s p /\
  getNode s (resolvePath s p) = getNode s p.
Proof.
  pose proof (resolvePath_rooted s p) as Hr.
  split; [exact Hr|].
  split; [apply resolvePath_absolute; exact Hr|].
  unfold getNode; rewrite (resolvePath_absolute s _ Hr); reflexivity.
Qed.

(** X1.  [resolvePath] answers an absolute path, resolving its answer again
    changes nothing, and the answer leads to the node the argument leads
    to. *)
Theorem resolvePath_idempotent (s : UnixShell) (p : string) :
  startsWith (resolvePath s p) "/" = true /\
  resolvePath s (resolvePath s p) = resolvePath s p /\
  getNode s (resolvePath s p) = getNode s p.
Proof. exact (resolvePath_resolved s p). Qed.

Lemma canWrite_resolved (s : UnixShell) (p : string) :
  canWrite s (resolvePath s p) = canWrite s p.
Proof.
  unfold canWrite.
  rewrite (resolvePath_absolute s _ (resolvePath_rooted s p)); reflexivity.
Qed.

(** ** Entries of a directory *)

Lemma get_replace_other {A} (o : Obj.t A) (k k' : string) (v : A) :
  k' <> k -> Obj.get (Obj.replace o k v) k' = Obj.get o k'.
Proof.
  intros Hk; induction o as [|[k0 v0] o IH]; simpl; [reflexivity|].
  destruct (String.eqb_spec k0 k) as [->|Hn]; simpl.
  - destruct (String.eqb_spec k k'); [congruence | reflexivity].
  - rewrite IH; reflexivity.
Qed.

Lemma get_insert_other {A} (n : N) (o : Obj.t A) (k k' : string) (v : A) :
  k' <> k -> Obj.get (Obj.insert_index n k v o) k' = Obj.get o k'.
Proof.
  intros Hk; induction o as [|[k0 v0] o IH]; simpl.
  - destruct (String.eqb_spec k k'); [congruence | reflexivity].
  - destruct (Obj.array_index k0) as [n0|].
    + destruct (n0 <? n)%N; simpl.
      * rewrite IH; reflexivity.
      * destruct (String.eqb_spec k k'); [congruence | reflexivity].
    + simpl; destruct (String.eqb_spec k k'); [congruence | reflexivity].
Qed.

Lemma get_app_other {A} (o : Obj.t A) (k k' : string) (v : A) :
  k' <> k -> Obj.get (o ++ [(k, v)])%list k' = Obj.get o k'.
Proof.
  intros Hk; induction o as [|[k0 v0] o IH]; simpl.
  - destruct (String.eqb_spec k k'); [congruence | reflexivity].
  - rewrite IH; reflexivity.
Qed.

(** Writing one property leaves the others as they were. *)
Lemma get_set_other {A} (o : Obj.t A) (k k' : string) (v : A) :
  k' <> k -> Obj.get (Obj.set o k v) k' = Obj.get o k'.
Proof.
  intros Hk; unfold Obj.set.
  destruct (Obj.has o k); [apply get_replace_other; exact Hk|].
  destruct (Obj.array_index k).
  - apply get_insert_other; exact Hk.
  - apply get_app_other; exact Hk.
Qed.




(** ** A name of the current directory *)

Lemma plainName_facts (name : string) :
  plainName name ->
  nonempty name = true /\ startsWith name "/" = false /\
  segments name = [name].
Proof.
  intros [[Hne Hns] _]; split; [exact Hne|].
  split.
  - destruct name as [|c r]; [discriminate|].
    simpl in Hns |- *; apply orb_false_iff in Hns; destruct Hns as [Hc _].
    rewrite Hc; reflexivity.
  - unfold segments; rewrite (split_no_sep _ _ Hns); simpl.
    rewrite Hne; reflexivity.
Qed.

(** Where the path of a name of the current directory leads: its parts,
    its last part, its parent, and the node of the parent. *)
Lemma name_in_cwd (s : UnixShell) (d : Directory) (name : string) :
  cwdIs s d -> plainName name ->
  let parts := segments (resolvePath s name) in
  let parentPath := "/" ++ join "/" (segments (currentPath s)) in
  parts = (segments (currentPath s) ++ [name])%list /\
  popName parts = name /\
  parentOf parts = parentPath /\
  getNode s parentPath = Some (Dir d) /\
  segments (resolvePath s parentPath) = segments (currentPath s) /\
  getNode s name = Obj.get d name.
Proof.
  intros Hc Hp; cbv zeta.
  destruct (plainName_facts name Hp) as (Hne & Hsl & Hseg).
  destruct Hp as (Hsg & Hti & _ & Hdd & Hd).
  pose proof (cwdIs_walk s d Hc) as Hw.
  assert (Hparts : segments (resolvePath s name) =
                   (segments (currentPath s) ++ [name])%list).
  { rewrite resolvePath_name by assumption.
    apply segments_join, segment_snoc;
      [apply segments_are_segments | exact Hsg]. }
  assert (Hseg' : segments (resolvePath s ("/" ++ join "/"
                                              (segments (currentPath s)))) =
                  segments (currentPath s)).
  { rewrite resolvePath_absolute by reflexivity.
    apply segments_join, segments_are_segments. }
  rewrite Hparts; repeat split.
  - unfold popName; apply last_last.
  - unfold parentOf; rewrite removelast_last; reflexivity.
  - unfold getNode; rewrite Hseg'; exact Hw.
  - exact Hseg'.
  - apply getNode_name; assumption.
Qed.




(** ** Writing, creating and removing in the current directory *)

Lemma writeToFile_cwd (s : UnixShell) (d : Directory) (name content : string)
      (mode : RedirectMode) :
  cwdIs s d -> plainName name ->
  writeToFile name content mode s =
    match Obj.get d name with
    | Some (Dir _) => (Some ("bash: " ++ name ++ ": Is a directory"), s)
    | Some (File old) =>
        (None,
         modifyAt s ("/" ++ join "/" (segments (currentPath s)))
                  (fun d0 => Obj.set d0 name
                               (File match mode with
                                     | append => old ++ content
                                     | overwrite => content
                                     end)))
    | None =>
        (None,
         modifyAt s ("/" ++ join "/" (segments (currentPath s)))
                  (fun d0 => Obj.set d0 name (File content)))
    end.
Proof.
  intros Hc Hp.
  destruct (name_in_cwd s d name Hc Hp) as (_ & Hpop & Hpar & Hget & _).
  unfold writeToFile; rewrite Hpop, Hpar, Hget; cbn [falsy].
  destruct (Obj.get d name) as [[old|sub]|]; reflexivity.
Qed.



(** X3.  A redirection onto a directory is refused and changes nothing, and so
    does the editor's save, which answers [false]. *)
Theorem write_onto_directory (s : UnixShell) (d sub : Directory)
        (name content : string) (mode : RedirectMode) :
  cwdIs s d -> plainName name -> Obj.get d name = Some (Dir sub) ->
  writeToFile name content mode s =
    (Some ("bash: " ++ name ++ ": Is a directory"), s) /\
  saveCallback name content s = (false, s).
Proof.
  intros Hc Hp Hg; unfold saveCallback.
  rewrite !(writeToFile_cwd s d name content _ Hc Hp), Hg.
  split; reflexivity.
Qed.

Lemma plainName_docs : plainName "docs".
Proof. repeat split; discriminate. Qed.

Lemma write_onto_directory_witness :
  let s := snd (cmd_mkdir ["docs"] Sample.fresh) in
  writeToFile "docs" "text" overwrite s =
    (Some "bash: docs: Is a directory", s).
Proof.
  apply (write_onto_directory
           (snd (cmd_mkdir ["docs"] Sample.fresh))
           [("README.md",
             File ("# Welcome" ++ LF ++ LF ++
                   "This is a simple Unix shell emulator." ++ LF));
            ("example.txt", File ("This is an example file." ++ LF));
            ("docs", Dir [])]
           [] "docs" "text" overwrite);
    [split; reflexivity | exact plainName_docs | reflexivity].
Defined.











(** ** Permission *)

(** X7.  Outside the home prefix a user who is not [root] can create nothing:
    [mkdir] and [touch] answer [Permission denied] and change nothing,
    also when run through [sudo], which raises no privilege; [rm] answers
    the same where the parent of its target lies outside. *)
Theorem denied_outside_home (H : Host) (s : UnixShell) (a : string) :
  nonempty a = true -> outsideHome s a ->
  cmd_mkdir [a] s =
    ("mkdir: cannot create directory '" ++ a ++ "': Permission denied", s) /\
  cmd_touch [a] s =
    ("touch: cannot touch '" ++ a ++ "': Permission denied", s) /\
  cmd_sudo H builtins ["mkdir"; a] s =
    (Normal ("mkdir: cannot create directory '" ++ a ++
             "': Permission denied"), s) /\
  (startsWith a "-" = false ->
   startsWith (parentOf (segments (resolvePath s a)))
              ("/home/" ++ currentUser s) = false ->
   cmd_rm [a] s =
     ("rm: cannot remove '" ++ a ++ "': Permission denied", s)).
Proof.
  intros Hne [Hu Ho].
  assert (Hw : canWrite s (resolvePath s a) = false).
  { rewrite canWrite_resolved; unfold canWrite.
    destruct (String.eqb_spec (currentUser s) "root"); [contradiction|].
    exact Ho. }
  assert (Hm : cmd_mkdir [a] s =
               ("mkdir: cannot create directory '" ++ a ++
                "': Permission denied", s))
    by (unfold cmd_mkdir, arg0; rewrite Hne, Hw; reflexivity).
  split; [exact Hm|]; split; [|split].
  - unfold cmd_touch, arg0; rewrite Hne, Hw; reflexivity.
  - cbn [cmd_sudo String.eqb Ascii.eqb Bool.eqb].
    change (Obj.get builtins "mkdir") with (Some (Method Bmkdir)).
    cbn [call_with method]; unfold returns; rewrite Hm; reflexivity.
  - intros Hd Hp.
    assert (Hwp : canWrite s (parentOf (segments (resolvePath s a))) = false).
    { unfold canWrite.
      destruct (String.eqb_spec (currentUser s) "root"); [contradiction|].
      rewrite resolvePath_absolute by reflexivity; exact Hp. }
    unfold cmd_rm, arg0; rewrite Hne; cbn [filter]; rewrite Hd.
    cbn [negb existsb fold_left andb]; unfold rm_target; cbn [rm_shell].
    rewrite Hwp; reflexivity.
Qed.

Lemma denied_outside_home_witness :
  outsideHome Sample.fresh "/etc/motd" /\
  cmd_touch ["/etc/motd"] Sample.fresh =
    ("touch: cannot touch '/etc/motd': Permission denied", Sample.fresh) /\
  cmd_sudo Sample.host builtins ["mkdir"; "/etc/motd"] Sample.fresh =
    (Normal "mkdir: cannot create directory '/etc/motd': Permission denied",
     Sample.fresh).
Proof.
  assert (Ho : outsideHome Sample.fresh "/etc/motd")
    by (split; [discriminate | reflexivity]).
  split; [exact Ho|].
  destruct (denied_outside_home Sample.host Sample.fresh "/etc/motd"
                                eq_refl Ho) as (_ & Ht & Hs & _).
  split; [exact Ht | exact Hs].
Defined.

(** ** [cd] *)



Lemma shell_eta (s : UnixShell) :
  mkShell (fileSystem s) (currentUser s) (currentPath s)
          (mkEnv (USER (environment s)) (HOME (environment s))
                 (PWD (environment s)) (PATH (environment s))
                 (SHELL (environment s)))
          (commandHistory s) (userStack s) (isPiped s) = s.
Proof. destruct s as [fs u p [e1 e2 e3 e4 e5] h st b]; reflexivity. Qed.

(** X9.  From a directory whose path is canonical, [cd] into a subdirectory
    followed by [cd ..] leads back: the state is the one before. *)
Theorem cd_there_and_back (s : UnixShell) (d sub : Directory)
        (name : string) :
  cwdIs s d -> canonical (currentPath s) -> pwdInSync s ->
  plainName name -> Obj.get d name = Some (Dir sub) ->
  let s1 := snd (cmd_cd [name] s) in
  currentPath s1 =
    "/" ++ join "/" (segments (currentPath s) ++ [name])%list /\
  cwdIs s1 sub /\
  cmd_cd [".."] s1 = ("", s).
Proof.
  intros Hc Hcan Hpwd Hp Hg; cbv zeta.
  destruct (plainName_facts name Hp) as (Hne & Hsl & Hseg).
  destruct (name_in_cwd s d name Hc Hp) as (Hparts & _ & _ & _ & _ & Hn).
  destruct (resolvePath_resolved s name) as (Hr & _ & Hgr).
  assert (Hpath : resolvePath s name =
                  "/" ++ join "/" (segments (currentPath s) ++ [name])%list)
    by (apply resolvePath_name; try assumption; apply Hp).
  assert (H1 : cmd_cd [name] s =
               ("", mkShell (fileSystem s) (currentUser s) (resolvePath s name)
                            (with_PWD (environment s) (resolvePath s name))
                            (commandHistory s) (userStack s) (isPiped s))).
  { unfold cmd_cd, arg0; rewrite Hne, Hgr, Hn, Hg; reflexivity. }
  rewrite H1; cbn [snd currentPath].
  split; [exact Hpath|].
  assert (Hsub : getNode s (resolvePath s name) = Some (Dir sub))
    by (rewrite Hgr, Hn; exact Hg).
  split.
  - split; [exact Hr|].
    unfold getNode in Hsub |- *; cbn [fileSystem currentPath].
    rewrite (resolvePath_absolute s _ Hr) in Hsub.
    rewrite (resolvePath_absolute _ _ Hr); exact Hsub.
  - unfold cmd_cd; cbn [arg0 nonempty].
    assert (Hup : forall t, currentPath t = resolvePath s name ->
                            resolvePath t ".." = currentPath s).
    { intros t Ht; unfold resolvePath; cbn [startsWith Ascii.eqb Bool.eqb andb].
      rewrite Ht, Hparts.
      change (segments "..") with [".."]; cbn [fold_left].
      unfold resolveStep; cbn [String.eqb Ascii.eqb Bool.eqb].
      rewrite removelast_last; symmetry; exact Hcan. }
    rewrite Hup by reflexivity.
    destruct Hc as [Ha Hd].
    assert (Hback : forall t, fileSystem t = fileSystem s ->
                              getNode t (currentPath s) = Some (Dir d)).
    { intros t Ht; unfold getNode in Hd |- *.
      rewrite (resolvePath_absolute s _ Ha) in Hd.
      rewrite (resolvePath_absolute t _ Ha), Ht; exact Hd. }
    rewrite Hback by reflexivity.
    cbn [fileSystem currentUser environment commandHistory userStack isPiped
         with_PWD USER HOME PATH SHELL].
    unfold pwdInSync in Hpwd; clear - Hpwd.
    destruct s as [fs u p [e1 e2 e3 e4 e5] h st b]; cbn in *.
    subst; reflexivity.
Qed.

Lemma cd_there_and_back_witness :
  let s := snd (cmd_mkdir ["docs"] Sample.fresh) in
  currentPath (snd (cmd_cd ["docs"] s)) = "/home/testuser/docs" /\
  cmd_cd [".."] (snd (cmd_cd ["docs"] s)) = ("", s).
Proof.
  cbv zeta.
  destruct (cd_there_and_back
              (snd (cmd_mkdir ["docs"] Sample.fresh))
              [("README.md",
                File ("# Welcome" ++ LF ++ LF ++
                      "This is a simple Unix shell emulator." ++ LF));
               ("example.txt", File ("This is an example file." ++ LF));
               ("docs", Dir [])]
              [] "docs"
              (conj eq_refl eq_refl) eq_refl eq_refl plainName_docs eq_refl)
    as (H1 & _ & H2).
  split; [exact H1 | exact H2].
Defined.

(** ** Absolute paths *)

Lemma stack_last (P : UserState -> Prop) (l : list UserState)
      (u : UserState) (dflt : UserState) :
  Forall P (u :: l) ->
  P (last (u :: l) dflt) /\ Forall P (removelast (u :: l)).
Proof.
  intros Hf.
  destruct (exists_last (l := u :: l) ltac:(discriminate)) as (l' & x & E).
  rewrite E in Hf |- *; rewrite last_last, removelast_last.
  apply Forall_app in Hf; destruct Hf as [Hl Hx].
  inversion Hx; subst; split; assumption.
Qed.

(** X10.  The current path, [HOME] and the paths saved by [su] are absolute in
    the state the constructor builds (without a stored state) and stay so
    through every call of [execute] on the built-in commands. *)
Theorem paths_stay_absolute :
  (forall (fs : option Directory) (username : string),
      wellPathed (Shell.construct fs username None)) /\
  (forall (H : Host) (line : string) (s : UnixShell),
      wellPathed s -> wellPathed (snd (execute H builtins line s))).
Proof.
  split.
  - intros fs u; repeat split; constructor.
  - intros H line s Hs; unfold execute.
    destruct (negb _); [exact Hs|].
    unfold run.
    apply (frame_dispatch (fun a b => wellPathed a -> wellPathed b)); auto.
    + intros args t (Hp & Hh & Hst); unfold cmd_cd.
      destruct (arg0 args) as [a|].
      * destruct (getNode t _) as [[c|d]|]; cbn [snd];
          try (repeat split; assumption).
        repeat split; try assumption.
        apply resolvePath_rooted.
      * repeat split; assumption.
    + intros args t (Hp & Hh & Hst); unfold cmd_su; cbn [snd].
      split; [exact Hp|]; split.
      * cbn [environment HOME].
        destruct (_ =? "root")%string; reflexivity.
      * cbn [userStack]; apply Forall_app; split; [exact Hst|].
        constructor; [split; assumption | constructor].
    + intros t (Hp & Hh & Hst); unfold cmd_exit.
      destruct (userStack t) as [|u l] eqn:E;
        [repeat split; try assumption; cbn [snd]; rewrite E; constructor|].
      destruct (stack_last _ l u (mkUserState "" "" "") Hst)
        as [[Hlh Hlp] Hrest].
      cbn [snd]; repeat split; assumption.
    + intros name f Hin; destruct (builtins_no_custom _ _ Hin).
Qed.

Lemma paths_stay_absolute_witness :
  wellPathed Sample.fresh /\
  wellPathed (Sample.session ["su alice"; "cd"; "cd ../.."] Sample.fresh) /\
  currentPath (Sample.session ["su alice"; "cd"; "cd ../.."] Sample.fresh) =
    "/".
Proof.
  pose proof (proj2 paths_stay_absolute Sample.host) as Hstep.
  assert (H0 : wellPathed Sample.fresh)
    by apply (proj1 paths_stay_absolute None "testuser").
  split; [exact H0|]; split; [|reflexivity].
  unfold Sample.session.
  apply Hstep, Hstep, Hstep; exact H0.
Defined.

(** ** Nested [su] *)

Lemma exit_ignores_user (s : UnixShell) (u p : string) (e : Environment) :
  userStack s <> [] ->
  PATH e = PATH (environment s) -> SHELL e = SHELL (environment s) ->
  cmd_exit (mkShell (fileSystem s) u p e (commandHistory s) (userStack s)
                    (isPiped s)) =
  cmd_exit s.
Proof.
  intros Hn Hp Hs; unfold cmd_exit; cbn [userStack].
  destruct (userStack s); [congruence|].
  cbn [fileSystem environment commandHistory isPiped]; rewrite Hp, Hs.
  reflexivity.
Qed.

Lemma suAll_snoc (users : list string) (u : string) (s : UnixShell) :
  suAll (users ++ [u]) s = snd (cmd_su [u] (suAll users s)).
Proof. unfold suAll; rewrite fold_left_app; reflexivity. Qed.

Lemma exitTimes_after_su (n : nat) (u : string) (s : UnixShell) :
  userStack s <> [] ->
  exitTimes (S (S n)) (snd (cmd_su [u] s)) = exitTimes (S n) s.
Proof.
  intros Hn; cbn [exitTimes]; rewrite exit_after_su.
  rewrite exit_ignores_user by (assumption || reflexivity); reflexivity.
Qed.

(** X11.  The stack of users is a stack: after [su] to any number of users in
    turn, as many [exit]s lead back to the user, [HOME], current path and
    stack of before, with the file system and the history untouched. *)
Theorem su_exit_nested (users : list string) (s : UnixShell) :
  let t := exitTimes (length users) (suAll users s) in
  length (userStack (suAll users s)) =
    (length (userStack s) + length users)%nat /\
  currentUser t = currentUser s /\
  HOME (environment t) = HOME (environment s) /\
  currentPath t = currentPath s /\
  userStack t = userStack s /\
  fileSystem t = fileSystem s /\
  commandHistory t = commandHistory s.
Proof.
  cbv zeta; split.
  - induction users as [|u users IH] using rev_ind; [simpl; lia|].
    rewrite suAll_snoc; unfold cmd_su; cbn [snd userStack].
    rewrite !length_app, IH; simpl; lia.
  - induction users as [|u users IH] using rev_ind; [repeat split|].
    rewrite suAll_snoc, length_app, Nat.add_comm; cbn [length Nat.add].
    destruct users as [|u0 users0] using rev_ind.
    + cbn [exitTimes suAll fold_left]; rewrite exit_after_su; repeat split.
    + clear IHusers0.
      rewrite length_app, Nat.add_comm in IH |- *; cbn [length Nat.add] in *.
      rewrite exitTimes_after_su; [exact IH|].
      rewrite suAll_snoc; unfold cmd_su; cbn [snd userStack].
      intros Hn; apply app_eq_nil in Hn; destruct Hn; discriminate.
Qed.

Lemma su_exit_nested_witness :
  let t := exitTimes 3 (suAll ["alice"; "root"; "bob"] Sample.fresh) in
  currentUser (suAll ["alice"; "root"; "bob"] Sample.fresh) = "bob" /\
  currentUser t = "testuser" /\ userStack t = [].
Proof.
  destruct (su_exit_nested ["alice"; "root"; "bob"] Sample.fresh)
    as (_ & Hu & _ & _ & Hs & _).
  split; [reflexivity|]; split; [exact Hu | exact Hs].
Defined.

(** ** Lines without a pipe or a redirection *)

Lemma has_char_trimStart (c : ascii) (s : string) :
  has_char c s = false -> has_char c (trimStart s) = false.
Proof.
  induction s as [|a s IH]; simpl; [reflexivity|]; intros Hc.
  destruct (is_space a); [|exact Hc].
  apply orb_false_iff in Hc; apply IH, Hc.
Qed.

Lemma has_char_trimEnd (c : ascii) (s : string) :
  has_char c s = false -> has_char c (trimEnd s) = false.
Proof.
  induction s as [|a s IH]; simpl; [reflexivity|]; intros Hc.
  apply orb_false_iff in Hc; destruct Hc as [Ha Hs].
  specialize (IH Hs).
  destruct (trimEnd s) as [|b r].
  - destruct (is_space a); simpl; [reflexivity | rewrite Ha; reflexivity].
  - simpl in IH |- *; rewrite Ha; exact IH.
Qed.

Lemma has_char_trim (c : ascii) (s : string) :
  has_char c s = false -> has_char c (trim s) = false.
Proof. intros Hc; apply has_char_trimEnd, has_char_trimStart, Hc. Qed.

Lemma has_char_drop (c : ascii) (n : nat) (s : string) :
  has_char c s = false -> has_char c (drop n s) = false.
Proof.
  revert s; induction n as [|n IH]; intros [|a s] Hc; simpl; auto.
  simpl in Hc; apply orb_false_iff in Hc; apply IH, Hc.
Qed.

Lemma has_char_cut (c x : ascii) (s l r : string) :
  cut x s = Some (l, r) -> has_char c s = false ->
  has_char c l = false /\ has_char c r = false.
Proof.
  revert l r; induction s as [|a s IH]; simpl; intros l r; [discriminate|].
  intros Hcut Hc; apply orb_false_iff in Hc; destruct Hc as [Ha Hs].
  destruct (Ascii.eqb a x).
  - injection Hcut as <- <-; split; [reflexivity | exact Hs].
  - destruct (cut x s) as [[l' r']|]; [|discriminate].
    injection Hcut as <- <-.
    destruct (IH l' r' eq_refl Hs) as [Hl Hr].
    split; [simpl; rewrite Ha; exact Hl | exact Hr].
Qed.

Lemma cut_absent (x : ascii) (s : string) :
  has_char x s = false -> cut x s = None.
Proof.
  induction s as [|a s IH]; simpl; [reflexivity|]; intros Hc.
  apply orb_false_iff in Hc; destruct Hc as [Ha Hs].
  rewrite Ha, (IH Hs); reflexivity.
Qed.

Lemma redirect_needs_gt {X} (k : string -> option X) (t : string) :
  has_char ">" t = false ->
  ws_star (lit ">" k) t = None /\
  dot_plus_lazy (ws_star (lit ">" k)) t = None.
Proof.
  induction t as [|a t IH]; intros Hc; [split; reflexivity|].
  simpl in Hc; apply orb_false_iff in Hc; destruct Hc as [Ha Ht].
  destruct (IH Ht) as [Hw Hl].
  assert (Hlit : lit ">" k (String a t) = None)
    by (unfold lit; rewrite Ha; reflexivity).
  split.
  - cbn [ws_star]; rewrite Hw, Hlit; destruct (is_space a); reflexivity.
  - cbn [dot_plus_lazy]; rewrite Hw, Hl; destruct (is_dot a); reflexivity.
Qed.

(** X12.  A line without [|] has no grep pattern; a line without [>] has no
    redirection; a line with neither is run as it was typed: its words,
    split at white space, are the command and its arguments. *)
Theorem plain_line_runs_as_typed (H : Host) (commands : Commands)
        (line : string) (s : UnixShell) :
  (has_char "|" line = false ->
   grepPattern (parsePipe line) = None /\ pipedCommand (parsePipe line) = line) /\
  (has_char ">" line = false -> redirectOf line = None) /\
  (has_char "|" line = false -> has_char ">" line = false ->
   blank line = false ->
   execute H commands line s =
     dispatch H commands None (mkFlags false false) None
              (hd "" (split_ws (trim line))) (tl (split_ws (trim line)))
              (with_history s (commandHistory s ++ [line]))).
Proof.
  assert (Hpipe : has_char "|" line = false ->
                  parsePipe line =
                    mkPiped None (mkFlags false false) line line)
    by (intros Hp; unfold parsePipe; rewrite (cut_absent _ _ Hp); reflexivity).
  assert (Hgt : forall t a, has_char ">" t = false ->
                            parseRedirect t a = (None, a)).
  { intros t a Ht; unfold parseRedirect, appendRegex, overwriteRegex.
    rewrite (proj2 (redirect_needs_gt _ t Ht)).
    rewrite (proj2 (redirect_needs_gt _ t Ht)); reflexivity. }
  assert (Hline : has_char ">" line = false ->
                  has_char ">" (pipedLine (parsePipe line)) = false).
  { intros Hg; unfold parsePipe.
    destruct (cut "|" line) as [[before after]|] eqn:E; [|exact Hg].
    destruct (has_char_cut ">" _ _ _ _ E Hg) as [Hb Ha].
    destruct (_ || _); [|exact Hg].
    unfold grepRedirectRegex.
    rewrite (proj2 (redirect_needs_gt _ _
                      (has_char_trim _ _
                         (has_char_drop _ 4 _ (has_char_trim _ _ Ha))))).
    destruct (fold_left _ _ _); exact Hg. }
  split; [|split].
  - intros Hp; rewrite (Hpipe Hp); split; reflexivity.
  - intros Hg; unfold redirectOf; rewrite (Hgt _ _ (Hline Hg)); reflexivity.
  - intros Hp Hg Hb; unfold execute, run, wordsOf, redirectOf.
    rewrite trim_blank, Hb, (Hpipe Hp); cbn [negb pipedLine pipedCommand
                                               grepPattern grepFlags].
    rewrite (Hgt _ _ Hg); reflexivity.
Qed.

Lemma plain_line_runs_as_typed_witness :
  has_char "|" "echo  one   two" = false /\
  has_char ">" "echo  one   two" = false /\
  execute Sample.host builtins "echo  one   two" Sample.fresh =
    dispatch Sample.host builtins None (mkFlags false false) None
             "echo" ["one"; "two"]
             (with_history Sample.fresh ["echo  one   two"]) /\
  fst (execute Sample.host builtins "echo  one   two" Sample.fresh) =
    Normal "one two".
Proof.
  split; [reflexivity|]; split; [reflexivity|]; split; [|reflexivity].
  apply (proj2 (proj2 (plain_line_runs_as_typed
                         Sample.host builtins "echo  one   two"
                         Sample.fresh)));
    reflexivity.
Defined.

(** ** The piped flag and faults of a handler *)

Lemma expandLoop_flag (H : Host) (s : UnixShell) (b : bool)
      (args expanded : list string) :
  expandLoop H (with_isPiped s b) args expanded = expandLoop H s args expanded.
Proof.
  revert expanded; induction args as [|arg rest IH]; intros expanded;
    [reflexivity|].
  cbn [expandLoop].
  change (getNode (with_isPiped s b) (currentPath (with_isPiped s b)))
    with (getNode s (currentPath s)).
  destruct (hasWildcard arg); [|apply IH].
  destruct (getNode s (currentPath s)) as [[c|d]|]; try apply IH.
  destruct (RegExp H _); [|reflexivity].
  destruct (filter _ _); apply IH.
Qed.

(** X13.  The flag [_isPiped] is set afresh for every call of a handler: what a
    line prints does not depend on the value an earlier call left. *)
Theorem output_ignores_stale_flag (H : Host) (commands : Commands)
        (line : string) (s : UnixShell) (b : bool) :
  fst (execute H commands line (with_isPiped s b)) =
  fst (execute H commands line s).
Proof.
  unfold execute; destruct (negb _); [reflexivity|].
  unfold run, dispatch.
  set (args := tl (wordsOf line)).
  change (with_history (with_isPiped s b) _)
    with (with_isPiped (with_history s (commandHistory s ++ [line])) b).
  unfold expandWildcards; rewrite expandLoop_flag.
  destruct (expandLoop H _ args []) as [args'|m]; [|reflexivity].
  destruct (Obj.get commands _) as [h|]; [|reflexivity].
  reflexivity.
Qed.

(** X14.  [tree] in a current directory that is gone: the fault of the handler
    is reported as text and nothing but the history changes; under a pipe
    to grep the piped flag is left set, since the reset after the call is
    skipped. *)
Theorem tree_without_directory (H : Host) (s : UnixShell) :
  getNode s (currentPath s) = None ->
  execute H builtins "tree" s =
    (Normal ("Error executing tree: " ++ nullEntriesMessage H),
     with_isPiped (with_history s (commandHistory s ++ ["tree"])) false) /\
  execute H builtins "tree | grep x" s =
    (Normal ("Error executing tree: " ++ nullEntriesMessage H),
     with_isPiped (with_history s (commandHistory s ++ ["tree | grep x"]))
                  true).
Proof.
  intros Hn; split.
  - rewrite (execute_words H builtins "tree" s None (mkFlags false false)
                           None "tree" []) by reflexivity.
    unfold dispatch; rewrite expandWildcards_plain by reflexivity.
    change (Obj.get builtins "tree") with (Some (Method Btree)).
    cbn [call call_with method isSome]; unfold cmd_tree.
    change (getNode (with_isPiped _ false) (currentPath (with_isPiped _ false)))
      with (getNode s (currentPath s)).
    rewrite Hn; reflexivity.
  - rewrite (execute_words H builtins "tree | grep x" s (Some "x")
                           (mkFlags false false) None "tree" [])
      by reflexivity.
    unfold dispatch; rewrite expandWildcards_plain by reflexivity.
    change (Obj.get builtins "tree") with (Some (Method Btree)).
    cbn [call call_with method isSome]; unfold cmd_tree.
    change (getNode (with_isPiped _ true) (currentPath (with_isPiped _ true)))
      with (getNode s (currentPath s)).
    rewrite Hn; reflexivity.
Qed.

Lemma tree_without_directory_witness :
  let s := Sample.session ["mkdir d"; "cd d"; "rm -r ../d"] Sample.fresh in
  currentPath s = "/home/testuser/d" /\
  getNode s (currentPath s) = None /\
  fst (execute Sample.host builtins "tree" s) =
    Normal "Error executing tree: Cannot convert undefined or null to object".
Proof.
  cbv zeta; split; [reflexivity|]; split; [reflexivity|].
  rewrite (proj1 (tree_without_directory
                    Sample.host
                    (Sample.session ["mkdir d"; "cd d"; "rm -r ../d"]
                                    Sample.fresh)
                    eq_refl)).
  reflexivity.
Defined.

(** * Further properties of the editor *)

(** ** The cursor during a session *)

Lemma press_bounds (evs : list KeyboardEvent) (e : ViEditor) :
  rowInRange e -> rowInRange (press evs e).
Proof.
  revert e; induction evs as [|ev evs IH]; intros e Hr; [exact Hr|].
  cbn [press]; destruct (closed e); [exact Hr|].
  apply IH, handleKey_row, Hr.
Qed.

(** X15.  Whatever keys are typed, the buffer keeps at least one line and the
    cursor stays on a row of it. *)
Theorem cursor_row_in_buffer (f content : string)
        (evs : list KeyboardEvent) :
  let e := press evs (Vi.construct f content) in
  lines e <> [] /\ (0 <= cursorRow e < count (lines e))%Z.
Proof.
  cbv zeta.
  pose proof (press_bounds evs _ (proj1 (construct_bounds f content))) as Hr.
  split; [|exact Hr].
  unfold rowInRange, count in Hr.
  destruct (lines _); [simpl in Hr; lia | discriminate].
Qed.

(** X16.  In a session without [p] and [Shift+g] the cursor column stays on the
    current line or just past its end. *)
Theorem cursor_column_on_line (f content : string)
        (evs : list KeyboardEvent) :
  Forall (fun ev => pasteOrLastLine ev = false) evs ->
  let e := press evs (Vi.construct f content) in
  (0 <= cursorCol e <= len (line e))%Z.
Proof.
  intros Hevs; cbv zeta.
  destruct (construct_bounds f content) as [Hr Hc].
  revert Hr Hc; generalize (Vi.construct f content).
  induction Hevs as [|ev evs Hev _ IH]; intros e Hr Hc; [exact Hc|].
  cbn [press]; destruct (closed e); [exact Hc|].
  apply IH; [apply handleKey_row, Hr|].
  apply handleKey_col; auto.
Qed.

Lemma cursor_column_on_line_witness :
  let e := press [plain "a"; plain "x"; plain "Enter";
                  plain "Escape"; plain "k"; plain "$"; plain "d";
                  plain "h"; plain "j"]
                 (Vi.construct "f.txt" "hello") in
  lines e = ["h"; "ello"] /\ cursorRow e = 1%Z /\
  (0 <= cursorCol e <= len (line e))%Z.
Proof.
  cbv zeta; split; [reflexivity|]; split; [reflexivity|].
  apply (cursor_column_on_line "f.txt" "hello").
  repeat constructor.
Defined.

(** ** Writing and closing *)

Ltac fields :=
  cbn [filename lines cursorRow cursorCol mode commandBuffer
       normalModeBuffer yankBuffer message modified saved closed
       with_lines with_row with_col with_mode with_commandBuffer
       with_normalModeBuffer with_yankBuffer with_message with_modified
       save close] in *.

Ltac cases :=
  repeat first
         [ progress fields
         | match goal with
           | |- context [if ?b then _ else _] =>
               match type of b with bool => destruct b eqn:? end
           | |- context [match ?x with [] => _ | _ :: _ => _ end] =>
               destruct x eqn:?
           | |- context [match ?x with Some _ => _ | None => _ end] =>
               destruct x eqn:?
           end ].

Lemma handleDeleteMotion_session (k : string) (e : ViEditor) :
  closed (handleDeleteMotion k e) = closed e /\
  saved (handleDeleteMotion k e) = saved e.
Proof.
  unfold handleDeleteMotion, finishDelete, clampRow, keepOneLine, with_line.
  cases; split; reflexivity.
Qed.

Lemma handleNormalMode_session (ev : KeyboardEvent) (e : ViEditor) :
  closed (handleNormalMode ev e) = closed e /\
  saved (handleNormalMode ev e) = saved e.
Proof.
  unfold handleNormalMode.
  destruct (normalModeBuffer e =? "d")%string;
    [apply handleDeleteMotion_session|].
  unfold with_line; cases; split; reflexivity.
Qed.

Lemma handleInsertMode_session (ev : KeyboardEvent) (e : ViEditor) :
  closed (handleInsertMode ev e) = closed e /\
  saved (handleInsertMode ev e) = saved e.
Proof. unfold handleInsertMode, with_line; cases; split; reflexivity. Qed.

(** X17.  The file is written only by [:w], [:wq] and [:x], each time with the
    lines of the buffer joined by newlines, and the editor closes only by
    [:q] on an unmodified buffer, [:q!], [:wq] and [:x].  [:q] on a
    modified buffer writes nothing, keeps the editor open and leaves the
    buffer as it is. *)
Theorem only_commands_write_or_close (ev : KeyboardEvent) (e : ViEditor) :
  let e' := handleKey ev e in
  let content := join Shell.LF (lines e) in
  (mode e = command /\ key ev = "Enter" /\ lines e' = lines e /\
   ((commandBuffer e = "w" /\ saved e' = (saved e ++ [content])%list /\
     closed e' = closed e /\ modified e' = false) \/
    (commandBuffer e = "q" /\ saved e' = saved e /\
     modified e' = modified e /\
     closed e' = if modified e then closed e else true) \/
    (commandBuffer e = "q!" /\ saved e' = saved e /\ closed e' = true) \/
    ((commandBuffer e = "wq" \/ commandBuffer e = "x") /\
     saved e' = (saved e ++ [content])%list /\ closed e' = true))) \/
  (saved e' = saved e /\ closed e' = closed e).
Proof.
  cbv zeta; unfold handleKey; cbn [mode with_message].
  destruct (mode e) eqn:Hm.
  - right; destruct (handleNormalMode_session ev (with_message e "")) as [Hc Hs].
    rewrite Hc, Hs; split; reflexivity.
  - right; destruct (handleInsertMode_session ev (with_message e "")) as [Hc Hs].
    rewrite Hc, Hs; split; reflexivity.
  - unfold handleCommandMode; cbn [commandBuffer with_message].
    destruct (key ev =? "Escape")%string; [right; split; reflexivity|].
    destruct (String.eqb_spec (key ev) "Enter") as [Hk|_].
    + unfold executeCommand, is_key.
      destruct (String.eqb_spec (commandBuffer e) "w") as [Hw|_].
      { left; split; [reflexivity|]; split; [exact Hk|];
        split; [reflexivity|]; left; repeat split;
        first [assumption | reflexivity]. }
      destruct (String.eqb_spec (commandBuffer e) "q") as [Hq|_].
      { fields; destruct (modified e) eqn:Em;
          (left; split; [reflexivity|]; split; [exact Hk|];
           split; [reflexivity|]; right; left; repeat split;
           first [assumption | reflexivity]). }
      destruct (String.eqb_spec (commandBuffer e) "q!") as [Hq|_].
      { left; split; [reflexivity|]; split; [exact Hk|];
        split; [reflexivity|]; right; right; left.
        repeat split; first [assumption | reflexivity]. }
      destruct (String.eqb_spec (commandBuffer e) "wq") as [Hq|_].
      { left; split; [reflexivity|]; split; [exact Hk|];
        split; [reflexivity|]; right; right; right.
        repeat split; first [left; assumption | reflexivity]. }
      destruct (String.eqb_spec (commandBuffer e) "x") as [Hq|_].
      { left; split; [reflexivity|]; split; [exact Hk|];
        split; [reflexivity|]; right; right; right.
        repeat split; first [right; assumption | reflexivity]. }
      right; split; reflexivity.
    + right; cases; split; reflexivity.
Qed.

(** X18.  A key that changes the lines of the buffer sets the modified flag,
    delete motions apart. *)
Theorem change_sets_modified (ev : KeyboardEvent) (e : ViEditor) :
  (mode e = normal -> normalModeBuffer e <> "d") ->
  lines (handleKey ev e) = lines e \/ modified (handleKey ev e) = true.
Proof.
  intros Hd; unfold handleKey; cbn [mode with_message].
  destruct (mode e).
  - unfold handleNormalMode; cbn [normalModeBuffer with_message].
    destruct (String.eqb_spec (normalModeBuffer e) "d") as [Hb|_];
      [destruct (Hd eq_refl Hb)|].
    unfold with_line; cases; first [left; reflexivity | right; reflexivity].
  - unfold handleInsertMode, with_line; cases;
      first [left; reflexivity | right; reflexivity].
  - unfold handleCommandMode, executeCommand; cases; left; reflexivity.
Qed.

Lemma change_sets_modified_witness :
  let e := handleKey (plain "i") (Vi.construct "f.txt" "ab") in
  let e' := handleKey (plain "c") e in
  lines e' = ["cab"] /\ modified e = false /\ modified e' = true.
Proof.
  cbv zeta; split; [reflexivity|]; split; [reflexivity|].
  destruct (change_sets_modified
              (plain "c")
              (handleKey (plain "i") (Vi.construct "f.txt" "ab"))
              ltac:(discriminate)) as [Hl|Hm];
    [discriminate Hl | exact Hm].
Defined.

Lemma quit_unmodified (e : ViEditor) :
  mode e = normal -> normalModeBuffer e <> "d" -> closed e = false ->
  modified e = false ->
  let q := press [plain ":"; plain "q"; plain "Enter"] e in
  closed q = true /\ saved q = saved e.
Proof.
  intros Hm Hb Hc Hmod; cbv zeta.
  assert (H1 : handleKey (plain ":") e =
               with_commandBuffer
                 (with_mode (with_normalModeBuffer (with_message e "") "")
                            command) "").
  { unfold handleKey; cbn [mode with_message]; rewrite Hm.
    unfold handleNormalMode; cbn [normalModeBuffer with_message].
    destruct (String.eqb_spec (normalModeBuffer e) "d"); [contradiction|].
    reflexivity. }
  cbn [press]; rewrite Hc, H1; clear H1.
  set (e1 := with_commandBuffer _ "").
  change (closed e1) with (closed e); rewrite Hc.
  change (handleKey (plain "q") e1)
    with (with_commandBuffer (with_message e1 "") "q").
  set (e2 := with_commandBuffer _ "q").
  change (closed e2) with (closed e); rewrite Hc.
  change (handleKey (plain "Enter") e2)
    with (with_commandBuffer (executeCommand "q" (with_message e2 "")) "").
  unfold executeCommand; cbn [String.eqb Ascii.eqb Bool.eqb].
  change (modified (with_message e2 "")) with (modified e); rewrite Hmod.
  split; reflexivity.
Qed.

(** X19.  The exception: [d] [d] on an empty line of a buffer of several lines
    removes the line and leaves the modified flag and the yank buffer as
    they were, so that [:q] then closes an unmodified editor without
    writing. *)
Theorem dd_empty_line_unflagged (e : ViEditor) :
  mode e = normal -> normalModeBuffer e <> "d" -> closed e = false ->
  rowInRange e -> line e = "" -> (1 < count (lines e))%Z ->
  let e' := press [plain "d"; plain "d"] e in
  lines e' = spliceOut (lines e) (cursorRow e) 1 /\
  count (lines e') = (count (lines e) - 1)%Z /\
  modified e' = modified e /\ yankBuffer e' = yankBuffer e /\
  (modified e = false ->
   let q := press [plain ":"; plain "q"; plain "Enter"] e' in
   closed q = true /\ saved q = saved e).
Proof.
  intros Hm Hb Hc Hr Hl Hn; cbv zeta.
  assert (Hcount : count (spliceOut (lines e) (cursorRow e) 1) =
                   (count (lines e) - 1)%Z)
    by (apply count_spliceOut; unfold rowInRange in Hr; simpl; lia).
  remember (press [plain "d"; plain "d"] e) as e' eqn:De.
  assert (Hfacts : lines e' = spliceOut (lines e) (cursorRow e) 1 /\
                   modified e' = modified e /\
                   yankBuffer e' = yankBuffer e /\
                   mode e' = normal /\ normalModeBuffer e' = "" /\
                   closed e' = false /\ saved e' = saved e).
  { subst e'; cbn [press]; rewrite Hc.
    rewrite (handleKey_d e Hm Hb).
    cbn [closed with_normalModeBuffer with_message]; rewrite Hc.
    rewrite handleKey_pending by (try reflexivity; exact Hm).
    unfold handleDeleteMotion; cbn [String.eqb Ascii.eqb Bool.eqb key plain].
    unfold line in Hl |- *.
    cbn [lines cursorRow with_message with_normalModeBuffer]; rewrite Hl.
    unfold finishDelete, keepOneLine, clampRow; cbn [nonempty].
    fields.
    destruct (spliceOut (lines e) (cursorRow e) 1) as [|x l] eqn:E;
      [unfold count in Hcount, Hn; simpl in Hcount; lia|].
    fields; rewrite <- E in *.
    destruct (count _ <=? cursorRow e)%Z; fields;
      repeat split; assumption. }
  destruct Hfacts as (H1 & H2 & H3 & H4 & H5 & H6 & H7).
  split; [exact H1|]; split; [rewrite H1; exact Hcount|].
  split; [exact H2|]; split; [exact H3|].
  intros Hmod; rewrite <- H7; apply quit_unmodified; try assumption.
  - rewrite H5; discriminate.
  - rewrite H2; exact Hmod.
Qed.

Lemma dd_empty_line_unflagged_witness :
  let e := handleKey (plain "j") (Vi.construct "f.txt"
                                   ("a" ++ Shell.LF ++ Shell.LF ++ "b")) in
  lines e = ["a"; ""; "b"] /\
  let e' := press [plain "d"; plain "d"] e in
  lines e' = ["a"; "b"] /\ modified e' = false /\
  let q := press [plain ":"; plain "q"; plain "Enter"] e' in
  closed q = true /\ saved q = [].
Proof.
  cbv zeta; split; [reflexivity|].
  destruct (dd_empty_line_unflagged
              (handleKey (plain "j")
                 (Vi.construct "f.txt" ("a" ++ Shell.LF ++ Shell.LF ++ "b")))
              eq_refl ltac:(discriminate) eq_refl
              ltac:(unfold rowInRange, count; simpl; lia)
              eq_refl ltac:(unfold count; simpl; lia))
    as (Hl & _ & Hm & _ & Hq).
  split; [exact Hl|]; split; [exact Hm|]; exact (Hq eq_refl).
Defined.

(** ** Round trips *)

Lemma join_split (c : ascii) (s : string) :
  join (String c "") (split c s) = s.
Proof.
  unfold join; induction s as [|a s IH]; [reflexivity|].
  cbn [split]; pose proof (split_not_nil c s) as Hn.
  destruct (Ascii.eqb_spec a c) as [->|_].
  - destruct (split c s) as [|h t]; [congruence|].
    cbn [String.concat]; cbn [String.concat] in IH.
    simpl; f_equal; exact IH.
  - destruct (split c s) as [|h t]; [congruence|].
    destruct t as [|h' t]; simpl in IH |- *; rewrite IH; reflexivity.
Qed.

Lemma split_join (c : ascii) (l : list string) :
  l <> [] -> Forall (fun x => has_char c x = false) l ->
  split c (join (String c "") l) = l.
Proof.
  intros Hn Hl; unfold join.
  induction Hl as [|x l Hx Hl IH]; [congruence|].
  destruct l as [|y l]; [apply split_no_sep, Hx|].
  change (String.concat (String c "") (x :: y :: l))
    with (x ++ String c (String.concat (String c "") (y :: l))).
  rewrite (split_app_sep _ _ _ Hx); f_equal; apply IH; discriminate.
Qed.

Lemma join_empty (c : ascii) (l : list string) :
  l <> [] -> join (String c "") l = "" -> l = [""].
Proof.
  unfold join; destruct l as [|x [|y l]]; [congruence| |].
  - simpl; intros _ ->; reflexivity.
  - intros _; cbn [String.concat].
    destruct x; simpl; discriminate.
Qed.

Lemma write_quit (e : ViEditor) :
  mode e = normal -> normalModeBuffer e <> "d" -> closed e = false ->
  let q := press [plain ":"; plain "w"; plain "q"; plain "Enter"] e in
  closed q = true /\
  saved q = (saved e ++ [join Shell.LF (lines e)])%list.
Proof.
  intros Hm Hb Hc; cbv zeta.
  assert (H1 : handleKey (plain ":") e =
               with_commandBuffer
                 (with_mode (with_normalModeBuffer (with_message e "") "")
                            command) "").
  { unfold handleKey; cbn [mode with_message]; rewrite Hm.
    unfold handleNormalMode; cbn [normalModeBuffer with_message].
    destruct (String.eqb_spec (normalModeBuffer e) "d"); [contradiction|].
    reflexivity. }
  cbn [press]; rewrite Hc, H1; clear H1.
  set (e1 := with_commandBuffer _ "").
  change (closed e1) with (closed e); rewrite Hc.
  change (handleKey (plain "w") e1)
    with (with_commandBuffer (with_message e1 "") "w").
  set (e2 := with_commandBuffer _ "w").
  change (closed e2) with (closed e); rewrite Hc.
  change (handleKey (plain "q") e2)
    with (with_commandBuffer (with_message e2 "") "wq").
  set (e3 := with_commandBuffer _ "wq").
  change (closed e3) with (closed e); rewrite Hc.
  split; reflexivity.
Qed.

(** X20.  A file opened and written back with [:wq] without an edit is written
    with the content it was opened with. *)
Theorem open_write_keeps_content (f content : string) :
  join Shell.LF (lines (Vi.construct f content)) = content /\
  let q := press [plain ":"; plain "w"; plain "q"; plain "Enter"]
                 (Vi.construct f content) in
  closed q = true /\ saved q = [content].
Proof.
  assert (Hj : join Shell.LF (lines (Vi.construct f content)) = content).
  { unfold Vi.construct; cbn [lines].
    destruct content as [|a content]; [reflexivity|].
    cbn [nonempty]; apply join_split. }
  split; [exact Hj|].
  destruct (write_quit (Vi.construct f content) eq_refl ltac:(discriminate)
                       eq_refl) as [Hc Hs].
  cbv zeta; split; [exact Hc|].
  rewrite Hs, Hj; reflexivity.
Qed.

(** X21.  What [:w] writes, opened again, gives the buffer that was written,
    as long as no line of the buffer holds a newline. *)
Theorem write_reopen_keeps_lines (f : string) (e : ViEditor) :
  lines e <> [] -> singleLines (lines e) ->
  lines (Vi.construct f (join Shell.LF (lines e))) = lines e.
Proof.
  intros Hn Hs; unfold Vi.construct; cbn [lines].
  destruct (nonempty (join Shell.LF (lines e))) eqn:E.
  - apply split_join; assumption.
  - symmetry; apply (join_empty "010"); [exact Hn|].
    destruct (join Shell.LF (lines e)) eqn:Ej; [exact Ej | discriminate].
Qed.

Lemma write_reopen_keeps_lines_witness :
  let e := press [plain "o"; plain "x"; plain "Enter"]
                 (Vi.construct "f.txt" ("a" ++ Shell.LF ++ "b")) in
  lines e = ["a"; "x"; ""; "b"] /\
  lines (Vi.construct "g.txt" (join Shell.LF (lines e))) = lines e.
Proof.
  cbv zeta; split; [reflexivity|].
  apply (write_reopen_keeps_lines
           "g.txt"
           (press [plain "o"; plain "x"; plain "Enter"]
                  (Vi.construct "f.txt" ("a" ++ Shell.LF ++ "b")))).
  - vm_compute; discriminate.
  - vm_compute; repeat constructor.
Defined.

Lemma take_drop (n : nat) (s : string) : (take n s ++ drop n s)%string = s.
Proof.
  revert s; induction n as [|n IH]; intros [|a s]; simpl; try reflexivity.
  rewrite IH; reflexivity.
Qed.

Lemma slice_sliceFrom (s : string) (c : Z) :
  (0 <= c <= len s)%Z -> (slice s 0 c ++ sliceFrom s c)%string = s.
Proof.
  intros Hc; unfold slice, sliceFrom.
  rewrite (clamp_inside (len s) 0) by lia.
  rewrite (clamp_inside (len s) c) by exact Hc.
  simpl; rewrite Nat.sub_0_r; apply take_drop.
Qed.

Lemma take_app_length (a b : string) :
  take (String.length a) (a ++ b) = a.
Proof. induction a as [|x a IH]; simpl; [destruct b|rewrite IH]; reflexivity. Qed.

Lemma drop_app_length (a b : string) :
  drop (String.length a) (a ++ b) = b.
Proof. induction a as [|x a IH]; simpl; [reflexivity | exact IH]. Qed.

Lemma append_append (a b c : string) :
  ((a ++ b) ++ c)%string = (a ++ b ++ c)%string.
Proof. induction a as [|x a IH]; simpl; [reflexivity | rewrite IH; reflexivity]. Qed.

(** A buffer cut at the row of the cursor. *)
Lemma lines_at_row (l : list string) (r : Z) :
  (0 <= r < count l)%Z ->
  exists l1 l2, l = (l1 ++ lineAt l r :: l2)%list /\
                length l1 = Z.to_nat r.
Proof.
  intros Hr; unfold count, lineAt in *.
  destruct (nth_split l "" (n := Z.to_nat r)) as (l1 & l2 & Hl & Hlen);
    [lia|].
  exists l1, l2; split; [exact Hl | exact Hlen].
Qed.

Lemma update_middle (l1 l2 : list string) (x v : string) :
  update (l1 ++ x :: l2) (length l1) v = (l1 ++ v :: l2)%list.
Proof. induction l1 as [|y l1 IH]; simpl; [reflexivity | rewrite IH; reflexivity]. Qed.

Lemma nth_middle_next (l1 l2 : list string) (x y : string) :
  nth (S (length l1)) (l1 ++ x :: y :: l2) "" = y.
Proof. induction l1 as [|z l1 IH]; simpl; [reflexivity | exact IH]. Qed.

Lemma firstn_middle (l1 l2 : list string) (x : string) :
  firstn (S (length l1)) (l1 ++ x :: l2) = (l1 ++ [x])%list.
Proof.
  induction l1 as [|z l1 IH]; simpl in *;
    [destruct l2; reflexivity | f_equal; exact IH].
Qed.

Lemma skipn_middle (l1 l2 : list string) (x : string) :
  skipn (S (length l1)) (l1 ++ x :: l2) = l2.
Proof. induction l1 as [|z l1 IH]; simpl; [reflexivity | exact IH]. Qed.

Lemma skipn_middle_next (l1 l2 : list string) (x y : string) :
  skipn (S (S (length l1))) (l1 ++ x :: y :: l2) = l2.
Proof. induction l1 as [|z l1 IH]; simpl; [reflexivity | exact IH]. Qed.

(** X22.  In insert mode [Backspace] takes back what the key before it typed:
    after [Enter] or a printable character, then [Backspace], the lines
    and the cursor are as they were. *)
Theorem backspace_undoes_typing (ev : KeyboardEvent) (e : ViEditor) :
  mode e = insert -> rowInRange e -> colInRange e ->
  key ev = "Enter" \/ printable ev = true ->
  let e' := handleKey (plain "Backspace") (handleKey ev e) in
  lines (handleKey ev e) <> lines e /\
  lines e' = lines e /\ cursorRow e' = cursorRow e /\
  cursorCol e' = cursorCol e /\ mode e' = insert.
Proof.
  intros Hm Hr Hc Hk; cbv zeta.
  destruct (lines_at_row _ _ Hr) as (l1 & l2 & Hl & Hlen).
  assert (Hrow : cursorRow e = Z.of_nat (length l1))
    by (unfold rowInRange in Hr; lia).
  assert (Hcut : (slice (line e) 0 (cursorCol e) ++
                  sliceFrom (line e) (cursorCol e))%string = line e)
    by (apply slice_sliceFrom, Hc).
  assert (Hlen0 : len (slice (line e) 0 (cursorCol e)) = cursorCol e)
    by (apply len_slice0, Hc).
  unfold line in Hcut, Hlen0.
  set (x := lineAt (lines e) (cursorRow e)) in *.
  set (b := slice x 0 (cursorCol e)) in *.
  set (a := sliceFrom x (cursorCol e)) in *.
  assert (Hcol : (0 <= cursorCol e)%Z) by (unfold colInRange in Hc; lia).
  destruct Hk as [Hk|Hp].
  - assert (H1 : handleKey ev e =
                 with_modified
                   (with_col
                      (with_row
                         (with_lines (with_message e "")
                                     (l1 ++ b :: a :: l2)%list)
                         (cursorRow e + 1)) 0) true).
    { unfold handleKey; cbn [mode with_message]; rewrite Hm.
      unfold handleInsertMode; rewrite Hk.
      cbn [String.eqb Ascii.eqb Bool.eqb].
      unfold with_line, line; fields; fold x; fold b; fold a.
      do 3 f_equal.
      unfold with_lines; fields; f_equal.
      unfold setLine, spliceIn; rewrite Hl, <- Hlen, update_middle.
      rewrite clamp_inside
        by (unfold count; rewrite length_app; simpl; lia).
      replace (Z.to_nat (cursorRow e + 1)) with (S (length l1)) by lia.
      rewrite firstn_middle, skipn_middle, <- app_assoc; reflexivity. }
    rewrite H1; fields.
    split.
    { rewrite Hl; intros Heq; apply app_inv_head in Heq.
      apply (f_equal (@length string)) in Heq; simpl in Heq; lia. }
    unfold handleKey; fields; rewrite Hm.
    unfold handleInsertMode; fields.
    cbn [key plain String.eqb Ascii.eqb Bool.eqb].
    cbn [Z.ltb Z.compare].
    destruct (Z.ltb_spec0 0 (cursorRow e + 1)); [|lia].
    unfold with_line, line; fields.
    replace (cursorRow e + 1 - 1)%Z with (cursorRow e) by lia.
    assert (Hb : lineAt (l1 ++ b :: a :: l2) (cursorRow e) = b)
      by (unfold lineAt; rewrite <- Hlen; apply nth_middle).
    assert (Ha : lineAt (l1 ++ b :: a :: l2) (cursorRow e + 1) = a).
    { unfold lineAt.
      replace (Z.to_nat (cursorRow e + 1)) with (S (length l1)) by lia.
      apply nth_middle_next. }
    rewrite Hb, Ha, Hcut, Hlen0.
    repeat split; try reflexivity; try exact Hm.
    unfold setLine, spliceOut; rewrite <- Hlen, update_middle.
    rewrite clamp_inside
      by (unfold count; rewrite length_app; simpl; lia).
    replace (Z.to_nat (cursorRow e + 1)) with (S (length l1)) by lia.
    rewrite firstn_middle.
    replace (S (length l1) + 1)%nat with (S (S (length l1))) by lia.
    rewrite skipn_middle_next, <- app_assoc.
    symmetry; exact Hl.
  - pose proof (printable_length ev Hp) as Hlk.
    assert (Hlk' : String.length (key ev) = 1%nat)
      by (unfold len in Hlk; lia).
    assert (Hne : (key ev =? "Escape")%string = false /\
                  (key ev =? "Enter")%string = false /\
                  (key ev =? "Backspace")%string = false).
    { repeat split; apply String.eqb_neq; intros Heq; rewrite Heq in Hlk;
        discriminate Hlk. }
    destruct Hne as (N1 & N2 & N3).
    assert (H1 : handleKey ev e =
                 with_modified
                   (with_col
                      (with_lines (with_message e "")
                                  (l1 ++ (b ++ key ev ++ a)%string :: l2)%list)
                      (cursorCol e + 1)) true).
    { unfold handleKey; cbn [mode with_message]; rewrite Hm.
      unfold handleInsertMode; rewrite N1, N2, N3, Hp.
      unfold with_line, line; fields; fold x; fold b; fold a.
      do 2 f_equal.
      unfold with_lines; fields; f_equal.
      unfold setLine; rewrite Hl, <- Hlen, update_middle; reflexivity. }
    rewrite H1; fields.
    split.
    { rewrite Hl; intros Heq; apply app_inv_head in Heq.
      injection Heq as Heq.
      apply (f_equal String.length) in Heq.
      rewrite <- Hcut in Heq; rewrite !length_append in Heq; lia. }
    unfold handleKey; fields; rewrite Hm.
    unfold handleInsertMode; fields.
    cbn [key plain String.eqb Ascii.eqb Bool.eqb].
    destruct (Z.ltb_spec0 0 (cursorCol e + 1)); [|lia].
    unfold with_line, line; fields.
    replace (cursorCol e + 1 - 1)%Z with (cursorCol e) by lia.
    assert (Hx : lineAt (l1 ++ (b ++ key ev ++ a)%string :: l2) (cursorRow e)
                 = (b ++ key ev ++ a)%string)
      by (unfold lineAt; rewrite <- Hlen; apply nth_middle).
    rewrite Hx.
    assert (Hlb : String.length b = Z.to_nat (cursorCol e))
      by (unfold len in Hlen0; lia).
    assert (Hs1 : slice (b ++ key ev ++ a) 0 (cursorCol e) = b).
    { unfold slice.
      rewrite (clamp_inside _ 0) by (pose proof (len_nonneg (b ++ key ev ++ a)); lia).
      rewrite clamp_inside by (rewrite len_append; pose proof (len_nonneg (key ev ++ a)); lia).
      simpl; rewrite Nat.sub_0_r, <- Hlb; apply take_app_length. }
    assert (Hs2 : sliceFrom (b ++ key ev ++ a) (cursorCol e + 1) = a).
    { unfold sliceFrom.
      rewrite clamp_inside
        by (rewrite !len_append; pose proof (len_nonneg a); lia).
      replace (Z.to_nat (cursorCol e + 1))
        with (String.length (b ++ key ev)%string)
        by (rewrite length_append, Hlk'; lia).
      rewrite <- (drop_app_length (b ++ key ev) a) at 2.
      f_equal; symmetry; apply append_append. }
    rewrite Hs1, Hs2, Hcut.
    repeat split; try reflexivity; try exact Hm.
    unfold setLine; rewrite <- Hlen, update_middle.
    symmetry; exact Hl.
Qed.

Lemma backspace_undoes_typing_witness :
  let e := handleKey (plain "i")
             (handleKey (plain "l") (Vi.construct "f.txt" "hello")) in
  mode e = insert /\ cursorCol e = 1%Z /\
  lines (handleKey (plain "Enter") e) = ["h"; "ello"] /\
  lines (handleKey (plain "Backspace") (handleKey (plain "Enter") e)) =
    ["hello"] /\
  cursorCol (handleKey (plain "Backspace") (handleKey (plain "Enter") e)) =
    1%Z.
Proof.
  cbv zeta; split; [reflexivity|]; split; [reflexivity|].
  split; [reflexivity|].
  destruct (backspace_undoes_typing
              (plain "Enter")
              (handleKey (plain "i")
                 (handleKey (plain "l") (Vi.construct "f.txt" "hello")))
              eq_refl
              ltac:(unfold rowInRange, count; simpl; lia)
              ltac:(vm_compute; split; intros X; discriminate X)
              (or_introl eq_refl))
    as (_ & Hl & _ & Hc & _).
  split; [exact Hl | exact Hc].
Defined.

(** * Tab completion and the store *)

Lemma cutLast_absent (c : ascii) (w : string) :
  has_char c w = false -> cutLast c w = None.
Proof.
  induction w as [|a w IH]; simpl; [reflexivity|]; intros Hc.
  apply orb_false_iff in Hc; destruct Hc as [Ha Hw].
  rewrite (IH Hw), Ha; reflexivity.
Qed.

Lemma keys_get {A} (o : Obj.t A) (k : string) :
  In k (Obj.keys o) <-> exists v, Obj.get o k = Some v.
Proof.
  induction o as [|[k0 v0] o IH]; simpl.
  - split; [intros [] | intros [v Hv]; discriminate].
  - destruct (String.eqb_spec k0 k) as [->|Hn].
    + split; [intros _; eauto | intros _; left; reflexivity].
    + rewrite <- IH; split; [intros [He|Hi]; [contradiction | exact Hi]|].
      intros Hi; right; exact Hi.
Qed.

Lemma startsWith_nonempty (name t p : string) :
  nonempty name = true -> String.length p = 1%nat ->
  startsWith (name ++ t) p = startsWith name p.
Proof.
  destruct name as [|a name]; [discriminate|]; intros _.
  destruct p as [|c [|c' p]]; try discriminate; intros _.
  simpl; reflexivity.
Qed.

Lemma resolvePath_trailing_slash (s : UnixShell) (name : string) :
  plainName name -> resolvePath s (name ++ "/") = resolvePath s name.
Proof.
  intros Hp; destruct (plainName_facts _ Hp) as (Hne & Hsl & Hseg).
  destruct Hp as ([_ Hns] & Ht & _).
  unfold resolvePath.
  rewrite (startsWith_nonempty name "/" "~") by (assumption || reflexivity).
  rewrite Ht.
  rewrite (startsWith_nonempty name "/" "/") by (assumption || reflexivity).
  rewrite Hsl, Hseg.
  replace (segments (name ++ "/")) with [name]; [reflexivity|].
  unfold segments.
  change (name ++ "/") with (name ++ String "/" "").
  rewrite (split_app_sep _ _ _ Hns); simpl; rewrite Hne; reflexivity.
Qed.

(** X23.  Completion of the last of several words, a word without a slash: the
    matches are the entries of the current directory whose name starts
    with the word, a directory with a slash after its name, and each
    match of a plain name is a path to the entry it was made from. *)
Theorem completions_name_entries (commands : Commands) (partial : string)
        (s : UnixShell) (d : Directory) (first w : string)
        (rest : list string) :
  cwdIs s d ->
  split_ws (trim partial) = (first :: rest ++ [w])%list ->
  has_char "/" w = false ->
  let r := getCompletions commands partial s in
  let decorate name node := if isDir node then name ++ "/" else name in
  completionType r = pathType /\ completionPrefix r = w /\
  (forall m, In m (matches r) <->
             exists name node, Obj.get d name = Some node /\
                               startsWith name w = true /\
                               m = decorate name node) /\
  (forall name node, Obj.get d name = Some node -> plainName name ->
                     getNode s (decorate name node) = Some node).
Proof.
  intros Hcwd Hparts Hw; cbv zeta.
  assert (Hr : getCompletions commands partial s =
               mkCompletion pathType
                 (map (fun name => match Obj.get d name with
                                   | Some (Dir _) => name ++ "/"
                                   | _ => name
                                   end)
                      (filter (fun name => startsWith name w) (Obj.keys d)))
                 w (Some w)).
  { unfold getCompletions; rewrite Hparts.
    destruct (rest ++ [w])%list as [|x l] eqn:E;
      [destruct (app_cons_not_nil _ _ _ (eq_sym E))|].
    rewrite <- E.
    change (first :: rest ++ [w])%list with ((first :: rest) ++ [w])%list.
    rewrite last_last, (cutLast_absent _ _ Hw), (proj2 Hcwd); reflexivity. }
  rewrite Hr; cbn [completionType completionPrefix matches].
  split; [reflexivity|]; split; [reflexivity|]; split.
  - intros m; rewrite in_map_iff; split.
    + intros (name & <- & Hin); apply filter_In in Hin.
      destruct Hin as [Hin Hs]; apply keys_get in Hin.
      destruct Hin as [node Hn]; exists name, node; rewrite Hn.
      repeat split; try assumption; destruct node; reflexivity.
    + intros (name & node & Hn & Hs & ->); exists name; rewrite Hn.
      split; [destruct node; reflexivity|].
      apply filter_In; split; [apply keys_get; eauto | exact Hs].
  - intros name node Hn Hp.
    assert (Hg : getNode s name = Some node).
    { destruct (name_in_cwd s d name Hcwd Hp) as (Hparts' & _).
      unfold getNode; rewrite Hparts'.
      rewrite (walk_snoc _ _ _ d (cwdIs_walk _ _ Hcwd)); exact Hn. }
    destruct (isDir node); [|exact Hg].
    unfold getNode; rewrite (resolvePath_trailing_slash _ _ Hp); exact Hg.
Qed.

Lemma completions_name_entries_witness :
  let s := snd (cmd_mkdir ["docs"] Sample.fresh) in
  matches (getCompletions builtins "cat  d" s) = ["docs/"] /\
  getNode s "docs/" = Some (Dir []) /\
  completionPrefix (getCompletions builtins "cat  d" s) = "d".
Proof.
  cbv zeta.
  destruct (completions_name_entries
              builtins "cat  d" (snd (cmd_mkdir ["docs"] Sample.fresh))
              [("README.md",
                File ("# Welcome" ++ LF ++ LF ++
                      "This is a simple Unix shell emulator." ++ LF));
               ("example.txt", File ("This is an example file." ++ LF));
               ("docs", Dir [])]
              "cat" "d" []
              ltac:(split; reflexivity) eq_refl eq_refl)
    as (_ & Hp & _ & Hg).
  split; [reflexivity|]; split; [|exact Hp].
  exact (Hg "docs" (Dir []) eq_refl plainName_docs).
Defined.

(** X24.  An empty partial, or one of white space only, completes to every
    command; white space after a partial is not looked at, so that a
    command name followed by a blank still completes command names. *)
Theorem completions_ignore_blanks (commands : Commands) (partial : string)
        (c : ascii) (s : UnixShell) :
  (blank partial = true ->
   getCompletions commands partial s =
     mkCompletion commandType (Obj.keys commands) "" None) /\
  (is_space c = true ->
   getCompletions commands (partial ++ String c "") s =
     getCompletions commands partial s).
Proof.
  split.
  - intros Hb; unfold getCompletions.
    pose proof (trim_blank partial) as Ht; rewrite Hb in Ht.
    destruct (trim partial); [|discriminate]; cbn [split_ws split_ws_from].
    f_equal; induction (Obj.keys commands) as [|k l IH]; [reflexivity|].
    simpl; f_equal; exact IH.
  - intros Hc; unfold getCompletions.
    replace (trim (partial ++ String c "")) with (trim partial);
      [reflexivity|].
    assert (He : forall t, trimEnd (t ++ String c "") = trimEnd t).
    { induction t as [|a t IH]; cbn [String.append trimEnd];
        [rewrite Hc | rewrite IH]; reflexivity. }
    unfold trim; induction partial as [|a p IH]; cbn [String.append trimStart].
    + rewrite Hc; reflexivity.
    + destruct (is_space a); [exact IH|].
      symmetry; apply (He (String a p)).
Qed.

Lemma completions_ignore_blanks_witness :
  getCompletions builtins "ca " Sample.fresh =
    getCompletions builtins "ca" Sample.fresh /\
  matches (getCompletions builtins "ca " Sample.fresh) = ["cat"] /\
  length (matches (getCompletions builtins "  " Sample.fresh)) = 22%nat.
Proof.
  split; [|split; [reflexivity|]].
  - apply (proj2 (completions_ignore_blanks builtins "ca" " " Sample.fresh));
      reflexivity.
  - rewrite (proj1 (completions_ignore_blanks builtins "  " " "
                                              Sample.fresh) eq_refl).
    reflexivity.
Defined.




(** * Listing, history, user and command table *)

Lemma insert_by_perm {A} (cmp : A -> A -> Z) (x : A) (l : list A) :
  Permutation (insert_by cmp x l) (x :: l).
Proof.
  induction l as [|y l IH]; simpl; [apply Permutation_refl|].
  destruct (0 <? cmp x y)%Z; [|apply Permutation_refl].
  apply perm_trans with (y :: x :: l); [apply perm_skip, IH | apply perm_swap].
Qed.

Lemma sort_by_perm {A} (cmp : A -> A -> Z) (l : list A) :
  Permutation (sort_by cmp l) l.
Proof.
  unfold sort_by; induction l as [|x l IH]; simpl; [apply perm_nil|].
  apply perm_trans with (x :: fold_right (insert_by cmp) [] l);
    [apply insert_by_perm | apply perm_skip, IH].
Qed.

Section DirectoriesFirst.

Variable H : Host.
Variable d : Directory.

Let dir (k : string) : bool :=
  match Obj.get d k with Some n => isDir n | None => false end.

Let parted (l : list string) : Prop :=
  exists ds fs, l = (ds ++ fs)%list /\
                Forall (fun k => dir k = true) ds /\
                Forall (fun k => dir k = false) fs.

Lemma insert_by_files (x : string) (fs : list string) :
  dir x = false -> Forall (fun k => dir k = false) fs ->
  Forall (fun k => dir k = false) (insert_by (ls_compare H d) x fs).
Proof.
  intros Hx Hfs.
  apply (Permutation_Forall
           (Permutation_sym (insert_by_perm (ls_compare H d) x fs))).
  constructor; assumption.
Qed.

Lemma insert_by_parted (x : string) (l : list string) :
  parted l -> parted (insert_by (ls_compare H d) x l).
Proof.
  intros (ds & fs & -> & Hds & Hfs).
  induction Hds as [|y ds Hy Hds IH]; cbn [app].
  - destruct (dir x) eqn:Hx.
    + exists [x], fs; repeat split; [|repeat constructor; exact Hx | exact Hfs].
      destruct Hfs as [|y fs Hy Hfs]; [reflexivity|].
      cbn [insert_by]; unfold ls_compare; fold (dir x); fold (dir y).
      rewrite Hx, Hy; reflexivity.
    + exists [], (insert_by (ls_compare H d) x fs); repeat split;
        [constructor | apply insert_by_files; assumption].
  - cbn [insert_by].
    destruct (0 <? ls_compare H d x y)%Z eqn:E.
    + destruct IH as (ds' & fs' & Heq & Hds' & Hfs').
      exists (y :: ds'), fs'; rewrite Heq; repeat split;
        [constructor; assumption | assumption].
    + exists (x :: y :: ds), fs; repeat split; [|exact Hfs].
      constructor; [|constructor; assumption].
      destruct (dir x) eqn:Hx; [reflexivity|].
      unfold ls_compare in E; fold (dir x) in E; fold (dir y) in E.
      rewrite Hx, Hy in E; discriminate E.
Qed.

Lemma sort_by_parted (l : list string) :
  parted (sort_by (ls_compare H d) l).
Proof.
  unfold sort_by; induction l as [|x l IH]; simpl.
  - exists [], []; repeat split; constructor.
  - apply insert_by_parted, IH.
Qed.

End DirectoriesFirst.

(** X26.  [ls] without an argument prints each entry of the current directory
    whose name does not start with a dot once, the directories, with a
    slash after the name, before the files; [ls -a] prints the entries
    with a dot as well.  An empty listing is the empty string. *)
Theorem ls_lists_directory (H : Host) (s : UnixShell) (d : Directory) :
  cwdIs s d -> isPiped s = false ->
  let dir k := match Obj.get d k with Some n => isDir n | None => false end in
  let decorate name := match Obj.get d name with
                       | Some (Dir _) => name ++ "/"
                       | _ => name
                       end in
  let shown l listed :=
    Permutation listed l /\
    (exists ds fs, listed = (ds ++ fs)%list /\
                   Forall (fun k => dir k = true) ds /\
                   Forall (fun k => dir k = false) fs) in
  (exists listed,
      shown (filter (fun name => negb (startsWith name ".")) (Obj.keys d))
            listed /\
      cmd_ls H [] s = join "    " (map decorate listed)) /\
  (exists listed,
      shown (Obj.keys d) listed /\
      cmd_ls H ["-a"] s = join "    " (map decorate listed)).
Proof.
  intros Hcwd Hp; cbv zeta.
  assert (Hnode : getNode s (if (currentPath s =? ".")%string
                             then currentPath s
                             else resolvePath s (currentPath s)) =
                  Some (Dir d)).
  { destruct (currentPath s =? ".")%string; [apply Hcwd|].
    rewrite resolvePath_absolute by apply Hcwd; apply Hcwd. }
  split.
  - exists (sort_by (ls_compare H d)
                    (filter (fun name => negb (startsWith name "."))
                            (Obj.keys d))).
    split; [split; [apply sort_by_perm | apply sort_by_parted]|].
    unfold cmd_ls; cbn [filter existsb flat_map app].
    unfold ls_target; rewrite Hnode, Hp.
    destruct (filter _ (Obj.keys d)) as [|x l]; reflexivity.
  - exists (sort_by (ls_compare H d) (Obj.keys d)).
    split; [split; [apply sort_by_perm | apply sort_by_parted]|].
    unfold cmd_ls.
    change (filter (fun arg => startsWith arg "-") ["-a"]) with ["-a"].
    change (filter (fun arg => negb (startsWith arg "-")) ["-a"])
      with (@nil string).
    change (existsb (fun arg => includes_char arg "a") ["-a"]) with true.
    change (existsb (fun arg => includes_char arg "l") ["-a"]) with false.
    cbn [flat_map app].
    unfold ls_target; rewrite Hnode, Hp.
    destruct (Obj.keys d) as [|x l]; reflexivity.
Qed.

Lemma ls_lists_directory_witness :
  let s := Sample.session ["mkdir zoo"; "touch .hidden"] Sample.fresh in
  let d := [("README.md",
             File ("# Welcome" ++ LF ++ LF ++
                   "This is a simple Unix shell emulator." ++ LF));
            ("example.txt", File ("This is an example file." ++ LF));
            ("zoo", Dir []); (".hidden", File "")] in
  cmd_ls Sample.host [] s = "zoo/    example.txt    README.md" /\
  exists listed,
    Permutation listed ["README.md"; "example.txt"; "zoo"] /\
    cmd_ls Sample.host [] s =
      join "    " (map (fun name => match Obj.get d name with
                                    | Some (Dir _) => name ++ "/"
                                    | _ => name
                                    end) listed).
Proof.
  cbv zeta; split; [reflexivity|].
  destruct (ls_lists_directory
              Sample.host
              (Sample.session ["mkdir zoo"; "touch .hidden"] Sample.fresh)
              [("README.md",
                File ("# Welcome" ++ LF ++ LF ++
                      "This is a simple Unix shell emulator." ++ LF));
               ("example.txt", File ("This is an example file." ++ LF));
               ("zoo", Dir []); (".hidden", File "")]
              ltac:(split; reflexivity) eq_refl)
    as [(listed & [Hperm _] & Hout) _].
  exists listed; split; [exact Hperm | exact Hout].
Defined.



Lemma su_user (args : list string) (s : UnixShell) :
  USER (environment (snd (cmd_su args s))) = currentUser (snd (cmd_su args s)).
Proof. reflexivity. Qed.

Lemma dispatch_user (H : Host)
      (pattern : option string) (fl : GrepFlags)
      (redirect : option (RedirectMode * string))
      (command : string) (args : list string) (s : UnixShell) :
  USER (environment s) = currentUser s ->
  let t := snd (dispatch H builtins pattern fl redirect command args s) in
  USER (environment t) = currentUser t.
Proof.
  cbv zeta.
  apply (frame_dispatch
           (fun a b => USER (environment a) = currentUser a ->
                       USER (environment b) = currentUser b)); auto.
  - intros a0 s0 Hs; unfold cmd_cd.
    destruct (arg0 a0); [|exact Hs].
    destruct (getNode s0 _) as [[|]|]; exact Hs.
  - intros s0 Hs; unfold cmd_exit; destruct (userStack s0); [exact Hs|].
    reflexivity.
  - intros name f Hin; destruct (builtins_no_custom _ _ Hin).
Qed.

(** X28.  [whoami] prints the current user: [environment.USER] is the current
    user in the state the constructor builds and after every line run
    with the built-in commands. *)
Theorem whoami_prints_current_user (H : Host) :
  (forall fs u loaded,
      USER (environment (Shell.construct fs u loaded)) =
      currentUser (Shell.construct fs u loaded)) /\
  (forall line s,
      USER (environment s) = currentUser s ->
      USER (environment (snd (execute H builtins line s))) =
      currentUser (snd (execute H builtins line s))) /\
  (forall s,
      USER (environment s) = currentUser s ->
      fst (execute H builtins "whoami" s) = Normal (currentUser s)).
Proof.
  split; [|split].
  - intros fs u [l|]; reflexivity.
  - intros line s Hs; unfold execute.
    destruct (negb _); [exact Hs|].
    unfold run; apply dispatch_user; exact Hs.
  - intros s Hs.
    rewrite (execute_words H builtins "whoami" s None (mkFlags false false)
                           None "whoami" []) by reflexivity.
    unfold dispatch; rewrite expandWildcards_plain by reflexivity.
    change (Obj.get builtins "whoami") with (Some (Method Bwhoami)).
    cbn [call call_with method fst isSome]; unfold cmd_whoami.
    cbn [environment with_isPiped with_history fst]; rewrite Hs; reflexivity.
Qed.

Lemma whoami_prints_current_user_witness :
  let s := Sample.session ["su alice"; "cd /tmp"; "su"; "exit"] Sample.fresh in
  currentUser s = "alice" /\
  fst (execute Sample.host builtins "whoami" s) = Normal "alice".
Proof.
  cbv zeta; split; [reflexivity|].
  apply (proj2 (proj2 (whoami_prints_current_user Sample.host))
               (Sample.session ["su alice"; "cd /tmp"; "su"; "exit"]
                               Sample.fresh)).
  reflexivity.
Defined.

Lemma fold_set_get {A B} (wrap : A -> B) (custom : Obj.t A) (base : Obj.t B)
      (k : string) :
  Obj.get (fold_left (fun cmds entry =>
                        Obj.set cmds (fst entry) (wrap (snd entry)))
                     custom base) k =
  match Obj.get (rev custom) k with
  | Some f => Some (wrap f)
  | None => Obj.get base k
  end.
Proof.
  induction custom as [|[k' f] custom IH] using rev_ind; [reflexivity|].
  rewrite fold_left_app, rev_app_distr; cbn [fold_left rev app fst snd Obj.get].
  destruct (String.eqb_spec k' k) as [->|Hn].
  - apply get_set_same.
  - rewrite get_set_other by congruence; exact IH.
Qed.

(** X29.  A command of the caller replaces the built-in command of its name and
    leaves the other built-in commands in place: looking a name up in the
    table finds the handler the caller gave for it, the last one if it
    was given twice, and the built-in command otherwise. *)
Theorem custom_commands_override
        (customCommands :
           Obj.t (list string -> UnixShell -> Completion * UnixShell))
        (name : string) :
  Obj.get (initializeCommands customCommands) name =
  match Obj.get (rev customCommands) name with
  | Some f => Some (Custom f)
  | None => Obj.get builtins name
  end.
Proof. unfold initializeCommands; apply fold_set_get. Qed.

(** * The editor and the shell *)





